(** * autokey/qtui/centralwidget.py: tree/model synchronisation and log mirror

    A shallow embedding of [CentralWidget] and [ListWidgetHandler].

    Python objects live in two arenas indexed by address: model objects
    ([model.Folder], [model.Phrase], [model.Script]) and tree widget items.
    Handlers are computations in a state monad over the whole application
    state; a Python exception leaves the state as mutated so far.  Calls
    into collaborators that are not part of this file (monitor, persistence,
    hotkey registry, host notifications) are recorded in a trace. *)

From Stdlib Require Import List Ascii String Bool Arith ZArith Lia.
From stdpp Require Import base option list.
Import ListNotations.

Set Default Proof Using "Type".

(** ** Data model *)

Abbreviation ref := nat (only parsing).    (* address of a model object *)
Abbreviation wref := nat (only parsing).   (* address of a tree widget item *)

Inductive Kind := KFolder | KPhrase | KScript.

(** [model.TriggerMode]: this file only ever tests for [HOTKEY]. *)
Inductive TriggerMode := HOTKEY | OtherMode (tag : nat).

Definition is_HOTKEY (m : TriggerMode) : bool :=
  match m with HOTKEY => true | OtherMode _ => false end.

Definition Kind_eqb (a b : Kind) : bool :=
  match a, b with
  | KFolder, KFolder | KPhrase, KPhrase | KScript, KScript => true
  | _, _ => false
  end.

(** A model object.  [title] is [Folder.title] for a folder and
    [description] for a phrase or script; [folders] and [items] are empty
    for leaves. *)
Record Entity := mkEntity {
  kind : Kind;
  title : string;
  content : string;
  parent : option ref;
  path : option string;
  modes : list TriggerMode;
  folders : list ref;
  items : list ref
}.

(** A [QTreeWidgetItem] with the model object stored in its data slot. *)
Record WidgetItem := mkWidget {
  w_parent : option wref;
  w_children : list wref;
  w_text : string;
  w_data : ref
}.

Inductive Button := Yes | No | Cancel.

(** Calls that leave this file. *)
Inductive Event :=
| MonitorSuspend
| MonitorUnsuspend
| ConfigAltered (persistGlobal : bool)
| HotkeyRemoved (e : ref)
| Persist (e : ref) (path_at_call : option string)
| RemoveData (e : ref)
| RebuildPath (e : ref)
| SortItems
| SetCurrentItem (w : option wref)
| SetItemSelected (w : wref) (b : bool)
| EditItem (w : wref)
| PageLoad (page : nat) (e : ref)
| UpdateActions (sel : list ref) (single : bool)
| CancelRecord.

Fixpoint list_eqb (a b : list nat) : bool :=
  match a, b with
  | [], [] => true
  | x :: a', y :: b' => Nat.eqb x y && list_eqb a' b'
  | _, _ => false
  end.

Definition option_eqb {A} (eqb : A -> A -> bool) (a b : option A) : bool :=
  match a, b with
  | Some x, Some y => eqb x y
  | None, None => true
  | _, _ => false
  end.

Definition Event_eqb (a b : Event) : bool :=
  match a, b with
  | MonitorSuspend, MonitorSuspend => true
  | MonitorUnsuspend, MonitorUnsuspend => true
  | ConfigAltered x, ConfigAltered y => Bool.eqb x y
  | HotkeyRemoved x, HotkeyRemoved y => Nat.eqb x y
  | Persist x p, Persist y q => Nat.eqb x y && option_eqb String.eqb p q
  | RemoveData x, RemoveData y => Nat.eqb x y
  | RebuildPath x, RebuildPath y => Nat.eqb x y
  | SortItems, SortItems => true
  | SetCurrentItem x, SetCurrentItem y => option_eqb Nat.eqb x y
  | SetItemSelected x b, SetItemSelected y c => Nat.eqb x y && Bool.eqb b c
  | EditItem x, EditItem y => Nat.eqb x y
  | PageLoad p x, PageLoad q y => Nat.eqb p q && Nat.eqb x y
  | UpdateActions l b, UpdateActions m c => list_eqb l m && Bool.eqb b c
  | CancelRecord, CancelRecord => true
  | _, _ => false
  end.

Definition count_event (ev : Event) (t : list Event) : nat :=
  length (List.filter (Event_eqb ev) t).

Record World := mkWorld {
  heap : list Entity;             (* model objects *)
  witems : list WidgetItem;       (* tree widget items *)
  cm_folders : list ref;          (* configManager.folders *)
  topLevelItems : list wref;      (* top-level items of treeWidget *)
  selectedItems : list wref;      (* treeWidget.selectedItems() *)
  cutCopiedItems : list ref;
  dirty : bool;
  stackIndex : nat;               (* stack.currentIndex() *)
  pageItems : list (option ref);  (* object loaded in folder/phrase/script page *)
  trace : list Event              (* oldest first *)
}.

Definition set_heap (h : list Entity) (w : World) : World :=
  mkWorld h (witems w) (cm_folders w) (topLevelItems w) (selectedItems w)
          (cutCopiedItems w) (dirty w) (stackIndex w) (pageItems w) (trace w).
Definition set_witems (ws : list WidgetItem) (w : World) : World :=
  mkWorld (heap w) ws (cm_folders w) (topLevelItems w) (selectedItems w)
          (cutCopiedItems w) (dirty w) (stackIndex w) (pageItems w) (trace w).
Definition set_cm_folders (l : list ref) (w : World) : World :=
  mkWorld (heap w) (witems w) l (topLevelItems w) (selectedItems w)
          (cutCopiedItems w) (dirty w) (stackIndex w) (pageItems w) (trace w).
Definition set_topLevelItems (l : list wref) (w : World) : World :=
  mkWorld (heap w) (witems w) (cm_folders w) l (selectedItems w)
          (cutCopiedItems w) (dirty w) (stackIndex w) (pageItems w) (trace w).
Definition set_selectedItems (l : list wref) (w : World) : World :=
  mkWorld (heap w) (witems w) (cm_folders w) (topLevelItems w) l
          (cutCopiedItems w) (dirty w) (stackIndex w) (pageItems w) (trace w).
Definition set_cutCopiedItems (l : list ref) (w : World) : World :=
  mkWorld (heap w) (witems w) (cm_folders w) (topLevelItems w) (selectedItems w)
          l (dirty w) (stackIndex w) (pageItems w) (trace w).
Definition set_dirty_field (b : bool) (w : World) : World :=
  mkWorld (heap w) (witems w) (cm_folders w) (topLevelItems w) (selectedItems w)
          (cutCopiedItems w) b (stackIndex w) (pageItems w) (trace w).
Definition set_stackIndex (n : nat) (w : World) : World :=
  mkWorld (heap w) (witems w) (cm_folders w) (topLevelItems w) (selectedItems w)
          (cutCopiedItems w) (dirty w) n (pageItems w) (trace w).
Definition set_pageItems (l : list (option ref)) (w : World) : World :=
  mkWorld (heap w) (witems w) (cm_folders w) (topLevelItems w) (selectedItems w)
          (cutCopiedItems w) (dirty w) (stackIndex w) l (trace w).
Definition set_trace (t : list Event) (w : World) : World :=
  mkWorld (heap w) (witems w) (cm_folders w) (topLevelItems w) (selectedItems w)
          (cutCopiedItems w) (dirty w) (stackIndex w) (pageItems w) t.

(** ** The handler monad *)

Inductive PyExn := IndexError | ValueError | AttributeError.

(** [Dangling]: an address outside its arena (no Python execution gets
    there); [OutOfFuel]: the recursion bound of the model was reached. *)
Inductive Outcome (A : Type) :=
| Ret (a : A)
| Raise (x : PyExn)
| Dangling
| OutOfFuel.
Arguments Ret {A} a.
Arguments Raise {A} x.
Arguments Dangling {A}.
Arguments OutOfFuel {A}.

Definition M (A : Type) := World -> Outcome A * World.

Definition ret {A} (a : A) : M A := fun w => (Ret a, w).

Definition bind {A B} (c : M A) (k : A -> M B) : M B :=
  fun w =>
    match c w with
    | (Ret a, w') => k a w'
    | (Raise x, w') => (Raise x, w')
    | (Dangling, w') => (Dangling, w')
    | (OutOfFuel, w') => (OutOfFuel, w')
    end.

Declare Scope m_scope.
Delimit Scope m_scope with M.
Notation "x <- c ;; k" := (bind c (fun x => k))
  (at level 100, c at next level, right associativity) : m_scope.
Notation "c ;; k" := (bind c (fun _ => k))
  (at level 100, right associativity) : m_scope.
Open Scope m_scope.

Definition raise {A} (x : PyExn) : M A := fun w => (Raise x, w).
Definition dangling {A} : M A := fun w => (Dangling, w).
Definition out_of_fuel {A} : M A := fun w => (OutOfFuel, w).
Definition get : M World := fun w => (Ret w, w).
Definition modify (f : World -> World) : M unit := fun w => (Ret tt, f w).
Definition emit_event (ev : Event) : M unit :=
  modify (fun w => set_trace (trace w ++ [ev]) w).
Definition when (b : bool) (c : M unit) : M unit := if b then c else ret tt.

Fixpoint for_each {A} (l : list A) (body : A -> M unit) : M unit :=
  match l with
  | [] => ret tt
  | x :: l' => body x ;; for_each l' body
  end.

Fixpoint map_m {A B} (f : A -> M B) (l : list A) : M (list B) :=
  match l with
  | [] => ret []
  | x :: l' => y <- f x ;; ys <- map_m f l' ;; ret (y :: ys)
  end.

Fixpoint filter_m {A} (p : A -> M bool) (l : list A) : M (list A) :=
  match l with
  | [] => ret []
  | x :: l' =>
      b <- p x ;; ys <- filter_m p l' ;; ret (if b then x :: ys else ys)
  end.

(** ** Arena access *)

Definition deref (r : ref) : M Entity :=
  fun w => match heap w !! r with
           | Some e => (Ret e, w)
           | None => (Dangling, w)
           end.

Definition wderef (i : wref) : M WidgetItem :=
  fun w => match witems w !! i with
           | Some x => (Ret x, w)
           | None => (Dangling, w)
           end.

Definition update_entity (r : ref) (f : Entity -> Entity) : M unit :=
  e <- deref r ;; modify (fun w => set_heap (<[r := f e]> (heap w)) w).

Definition update_widget (i : wref) (f : WidgetItem -> WidgetItem) : M unit :=
  x <- wderef i ;; modify (fun w => set_witems (<[i := f x]> (witems w)) w).

Definition alloc_entity (e : Entity) : M ref :=
  fun w => (Ret (length (heap w)), set_heap (heap w ++ [e]) w).

Definition alloc_widget (x : WidgetItem) : M wref :=
  fun w => (Ret (length (witems w)), set_witems (witems w ++ [x]) w).

Definition set_parent (p : option ref) (e : Entity) : Entity :=
  mkEntity (kind e) (title e) (content e) p (path e) (modes e) (folders e) (items e).
Definition set_path (p : option string) (e : Entity) : Entity :=
  mkEntity (kind e) (title e) (content e) (parent e) p (modes e) (folders e) (items e).
Definition set_title (t : string) (e : Entity) : Entity :=
  mkEntity (kind e) t (content e) (parent e) (path e) (modes e) (folders e) (items e).
Definition set_content (c : string) (e : Entity) : Entity :=
  mkEntity (kind e) (title e) c (parent e) (path e) (modes e) (folders e) (items e).
Definition set_folders (l : list ref) (e : Entity) : Entity :=
  mkEntity (kind e) (title e) (content e) (parent e) (path e) (modes e) l (items e).
Definition set_items (l : list ref) (e : Entity) : Entity :=
  mkEntity (kind e) (title e) (content e) (parent e) (path e) (modes e) (folders e) l.

Definition set_w_parent (p : option wref) (x : WidgetItem) : WidgetItem :=
  mkWidget p (w_children x) (w_text x) (w_data x).
Definition set_w_children (l : list wref) (x : WidgetItem) : WidgetItem :=
  mkWidget (w_parent x) l (w_text x) (w_data x).
Definition set_w_text (t : string) (x : WidgetItem) : WidgetItem :=
  mkWidget (w_parent x) (w_children x) t (w_data x).

(** Python [x in l] on object references (identity). *)
Definition mem (x : nat) (l : list nat) : bool := existsb (Nat.eqb x) l.

Definition opt_mem (x : option nat) (l : list nat) : bool :=
  match x with Some y => mem y l | None => false end.

(** Python [l.index(x)] as used by Qt's [indexOf...]: [-1] when absent. *)
Fixpoint index_of (x : nat) (l : list nat) : Z :=
  match l with
  | [] => (-1)%Z
  | y :: l' => if Nat.eqb x y then 0%Z
               else let i := index_of x l' in
                    if (i <? 0)%Z then (-1)%Z else (i + 1)%Z
  end.

(** First occurrence removed, as [list.remove] and Qt's [removeChild] do. *)
Fixpoint remove_first (x : nat) (l : list nat) : list nat :=
  match l with
  | [] => []
  | y :: l' => if Nat.eqb x y then l' else y :: remove_first x l'
  end.

Definition nth_Z {A} (l : list A) (i : Z) : option A :=
  if (i <? 0)%Z then None else l !! Z.to_nat i.

Definition take_at (i : Z) (l : list nat) : list nat :=
  if (i <? 0)%Z then l else take (Z.to_nat i) l ++ drop (S (Z.to_nat i)) l.

(** ** Collaborators whose code is outside this file *)

(** What the handlers use from [ui_common], [autokey_treewidget], the
    editor pages and Qt's collation, taken as parameters.
    - [EMPTY_FIELD_REGEX_match s]: [ui_common.EMPTY_FIELD_REGEX.match(s)]
      finds a match; the empty string matches.
    - [label_leb]: the order [sortItems] compares labels with.
    - [save_persist_global]: the flag the current page's [save()] returns.
    - [processFolder]: [WidgetItemFactory.processFolder(item, folder)],
      which adds the presentation nodes of a folder's descendants below
      [item]; it sees the model objects and yields the new node arena. *)
Class Collaborators := {
  EMPTY_FIELD_REGEX_match : string -> bool;
  EMPTY_FIELD_REGEX_empty : EMPTY_FIELD_REGEX_match EmptyString = true;
  label_leb : string -> string -> bool;
  save_persist_global : Entity -> bool;
  processFolder : list Entity -> list WidgetItem -> wref -> ref -> list WidgetItem
}.

Section CentralWidget.
Context `{Collab : Collaborators}.

(** *** [autokey.model] *)

(** Modelled from the spec: the constructors [model.Folder(title, path)],
    [model.Phrase(description, phrase)] and [model.Script(description,
    code)] are not in this file.  A new object has no parent, no children
    and no trigger modes. *)
Definition Folder_new (t : string) (p : option string) : M ref :=
  alloc_entity (mkEntity KFolder t EmptyString None p [] [] []).
Definition Phrase_new (description phrase : string) : M ref :=
  alloc_entity (mkEntity KPhrase description phrase None None [] [] []).
Definition Script_new (description code : string) : M ref :=
  alloc_entity (mkEntity KScript description code None None [] [] []).

(** Modelled from the spec: [Folder.add_folder], [Folder.add_item],
    [Folder.remove_folder] and [Folder.remove_item] are not in this file.
    A folder keeps an ordered list of child folders and one of child
    leaves, and a child keeps a back-reference to its owner; removal is
    Python's [list.remove]. *)
Definition add_folder (p f : ref) : M unit :=
  update_entity f (set_parent (Some p)) ;;
  update_entity p (fun e => set_folders (folders e ++ [f]) e).

Definition add_item (p i : ref) : M unit :=
  update_entity i (set_parent (Some p)) ;;
  update_entity p (fun e => set_items (items e ++ [i]) e).

Definition remove_folder (p f : ref) : M unit :=
  e <- deref p ;;
  if mem f (folders e)
  then update_entity p (fun e => set_folders (remove_first f (folders e)) e)
  else raise ValueError.

Definition remove_item (p i : ref) : M unit :=
  e <- deref p ;;
  if mem i (items e)
  then update_entity p (fun e => set_items (remove_first i (items e)) e)
  else raise ValueError.

(** Modelled from the spec: [persist()] is [PersistenceStore.persist],
    not in this file.  The call is recorded with the path the object
    carries when it is made. *)
Definition persist (r : ref) : M unit :=
  e <- deref r ;; emit_event (Persist r (path e)).

(** Modelled from the spec: [remove_data()] is not in this file; removal
    discards the stored data of an object.  The call is recorded. *)
Definition remove_data (r : ref) : M unit := emit_event (RemoveData r).

(** Modelled from the spec: [copy(source)] is not in this file; a
    duplicate takes over the content fields of its source and has a new
    identity and no parent. *)
Definition copy (new_obj source : ref) : M unit :=
  s <- deref source ;;
  update_entity new_obj (fun e => set_content (content s) (set_title (title s) e)).

Definition has_hotkey (e : Entity) : bool := existsb is_HOTKEY (modes e).
Definition is_folder (e : Entity) : bool := Kind_eqb (kind e) KFolder.
Definition is_phrase (e : Entity) : bool := Kind_eqb (kind e) KPhrase.
Definition is_script (e : Entity) : bool := Kind_eqb (kind e) KScript.

(** *** The application object *)

Definition monitor_suspend : M unit := emit_event MonitorSuspend.
Definition monitor_unsuspend : M unit := emit_event MonitorUnsuspend.
Definition config_altered (persistGlobal : bool) : M unit :=
  emit_event (ConfigAltered persistGlobal).
Definition hotkey_removed (r : ref) : M unit := emit_event (HotkeyRemoved r).

(** *** Qt's tree widget

    Signals Qt emits on its own are not modelled: a handler runs where
    this file calls it. *)

(** [ak_tree.FolderWidgetItem(parent, obj)] and its phrase and script
    siblings: a new item labelled with the object's title, appended to
    [parent] when there is one. *)
Definition new_widget_item (parent_item : option wref) (obj : ref) : M wref :=
  e <- deref obj ;;
  i <- alloc_widget (mkWidget parent_item [] (title e) obj) ;;
  match parent_item with
  | Some p => update_widget p (fun x => set_w_children (w_children x ++ [i]) x)
  | None => ret tt
  end ;;
  ret i.

Definition FolderWidgetItem := new_widget_item.
Definition PhraseWidgetItem := new_widget_item.
Definition ScriptWidgetItem := new_widget_item.

(** [item.update()] of [ak_tree]: the label is read again from the model. *)
Definition item_update (i : wref) : M unit :=
  x <- wderef i ;;
  e <- deref (w_data x) ;;
  update_widget i (set_w_text (title e)).

Definition addTopLevelItem (i : wref) : M unit :=
  modify (fun w => set_topLevelItems (topLevelItems w ++ [i]) w).

Definition indexOfTopLevelItem (i : wref) : M Z :=
  w <- get ;; ret (index_of i (topLevelItems w)).

Definition takeTopLevelItem (index : Z) : M unit :=
  modify (fun w => set_topLevelItems (take_at index (topLevelItems w)) w).

Definition topLevelItemCount : M Z :=
  w <- get ;; ret (Z.of_nat (length (topLevelItems w))).

Definition topLevelItem (index : Z) : M (option wref) :=
  w <- get ;; ret (nth_Z (topLevelItems w) index).

Definition indexOfChild (p i : wref) : M Z :=
  x <- wderef p ;; ret (index_of i (w_children x)).

Definition removeChild (p i : wref) : M unit :=
  x <- wderef p ;;
  if mem i (w_children x)
  then update_widget p (fun x => set_w_children (remove_first i (w_children x)) x) ;;
       update_widget i (set_w_parent None)
  else ret tt.

Definition addChild (p i : wref) : M unit :=
  update_widget p (fun x => set_w_children (w_children x ++ [i]) x) ;;
  update_widget i (set_w_parent (Some p)).

Definition childCount (p : wref) : M Z :=
  x <- wderef p ;; ret (Z.of_nat (length (w_children x))).

Definition child (p : wref) (index : Z) : M (option wref) :=
  x <- wderef p ;; ret (nth_Z (w_children x) index).

Definition label_of (ws : list WidgetItem) (i : wref) : string :=
  match ws !! i with Some x => w_text x | None => EmptyString end.

Fixpoint insert_by (leb : wref -> wref -> bool) (x : wref) (l : list wref) : list wref :=
  match l with
  | [] => [x]
  | y :: l' => if leb x y then x :: y :: l' else y :: insert_by leb x l'
  end.

Definition sort_by (leb : wref -> wref -> bool) (l : list wref) : list wref :=
  foldr (insert_by leb) [] l.

Definition sort_labels (ws : list WidgetItem) (l : list wref) : list wref :=
  sort_by (fun a b => label_leb (label_of ws a) (label_of ws b)) l.

(** [treeWidget.sortItems(0, Qt.AscendingOrder)]: every sibling list is
    put in ascending label order. *)
Definition sortItems : M unit :=
  emit_event SortItems ;;
  modify (fun w =>
    set_topLevelItems (sort_labels (witems w) (topLevelItems w))
      (set_witems
         (map (fun x => set_w_children (sort_labels (witems w) (w_children x)) x)
              (witems w)) w)).

Definition setCurrentItem (i : option wref) : M unit :=
  emit_event (SetCurrentItem i) ;;
  modify (set_selectedItems (match i with Some x => [x] | None => [] end)).

Definition setItemSelected (i : wref) (b : bool) : M unit :=
  emit_event (SetItemSelected i b) ;;
  modify (fun w =>
    set_selectedItems
      (if b then (if mem i (selectedItems w) then selectedItems w
                  else selectedItems w ++ [i])
       else remove_first i (selectedItems w)) w).

Definition editItem (i : wref) : M unit := emit_event (EditItem i).

(** Python's [l[0]] and [l[-1]]. *)
Definition first_of {A} (l : list A) : M A :=
  match l with
  | x :: _ => ret x
  | [] => raise IndexError
  end.

Definition last_of {A} (l : list A) : M A :=
  match last l with
  | Some x => ret x
  | None => raise IndexError
  end.

Definition selected : M (list wref) := w <- get ;; ret (selectedItems w).

(** *** [CentralWidget] *)

Definition __extractData (item : option wref) : M ref :=
  match item with
  | Some i => x <- wderef i ;; ret (w_data x)
  | None => raise AttributeError
  end.

Definition __getSelection : M (list ref) :=
  items <- selected ;;
  ret_ <- map_m (fun item => __extractData (Some item)) items ;;
  (* Filter out any child objects that belong to a parent already in the list *)
  filter_m (fun f => e <- deref f ;; ret (negb (opt_mem (parent e) ret_))) ret_.

Definition get_selected_item : M (list ref) := __getSelection.

Definition set_dirty (b : bool) : M unit := modify (set_dirty_field b).

(** Modelled from the spec: the editor pages ([stack.currentWidget()])
    are not in this file.  A page holds the object it was loaded with;
    [set_item_title] sets its title or description, [rebuild_item_path]
    recomputes its derived path, [save] persists it. *)
Definition page_load (page : nat) (r : ref) : M unit :=
  modify (fun w => set_pageItems (<[page := Some r]> (pageItems w))
                     (set_stackIndex page w)) ;;
  emit_event (PageLoad page r).

Definition currentWidget : M ref :=
  w <- get ;;
  match pageItems w !! stackIndex w with
  | Some (Some r) => ret r
  | _ => raise AttributeError
  end.

Definition page_set_item_title (t : string) : M unit :=
  r <- currentWidget ;; update_entity r (set_title t).

Definition page_rebuild_item_path : M unit :=
  r <- currentWidget ;; emit_event (RebuildPath r).

Definition page_save : M bool :=
  r <- currentWidget ;;
  persist r ;;
  e <- deref r ;;
  ret (save_persist_global e).

(** Modelled from the spec: [ui_common.validate] is not in this file; a
    validation succeeds exactly when its condition holds. *)
Definition validate (expression : bool) : bool := expression.

Definition on_treeWidget_itemSelectionChanged : M unit :=
  model_items <- __getSelection ;;
  match model_items with
  | [model_item] =>
      e <- deref model_item ;;
      match kind e with
      | KFolder => page_load 0 model_item
      | KPhrase => page_load 1 model_item
      | KScript => page_load 2 model_item
      end ;;
      emit_event (UpdateActions model_items true) ;;
      set_dirty false ;;
      emit_event CancelRecord
  | _ => emit_event (UpdateActions model_items false)
  end.

Definition on_rename : M unit :=
  items <- selected ;;
  widget_item <- first_of items ;;
  editItem widget_item.

Definition on_treeWidget_itemChanged (item : wref) (column : nat) : M unit :=
  items <- selected ;;
  first <- first_of items ;;
  if Nat.eqb item first && Nat.eqb column 0 then
    x <- wderef item ;;
    let newText := w_text x in
    if validate (negb (EMPTY_FIELD_REGEX_match newText)) then
      monitor_suspend ;;
      page_set_item_title newText ;;
      page_rebuild_item_path ;;
      persistGlobal <- page_save ;;
      monitor_unsuspend ;;
      config_altered persistGlobal ;;
      sortItems
    else
      item_update item
  else ret tt.

Definition __createFolder (parent_item : option wref) : M unit :=
  folder <- Folder_new "New Folder"%string None ;;
  new_item <- FolderWidgetItem parent_item folder ;;
  monitor_suspend ;;
  match parent_item with
  | Some _ =>
      parentFolder <- __extractData parent_item ;;
      add_folder parentFolder folder
  | None =>
      addTopLevelItem new_item ;;
      modify (fun w => set_cm_folders (cm_folders w ++ [folder]) w)
  end ;;
  persist folder ;;
  monitor_unsuspend ;;
  sortItems ;;
  setCurrentItem (Some new_item) ;;
  on_treeWidget_itemSelectionChanged ;;
  on_rename.

(** [os.path.basename]: what follows the last slash. *)
Fixpoint basename_aux (acc s : string) : string :=
  match s with
  | EmptyString => acc
  | String c s' =>
      if Ascii.eqb c "/"%char then basename_aux EmptyString s'
      else basename_aux (acc ++ String c EmptyString) s'
  end.
Definition basename (s : string) : string := basename_aux EmptyString s.

(** [result] is the button of the message box, [chosen] the directory
    the file dialog returns (empty when dismissed). *)
Definition on_new_topfolder (result : Button) (chosen : string) : M unit :=
  monitor_suspend ;;
  match result with
  | Yes => __createFolder None
  | No =>
      (if negb (String.eqb chosen EmptyString) then
         let name := basename chosen in
         folder <- Folder_new name (Some chosen) ;;
         new_item <- FolderWidgetItem None folder ;;
         addTopLevelItem new_item ;;
         modify (fun w => set_cm_folders (cm_folders w ++ [folder]) w) ;;
         config_altered true
       else ret tt) ;;
      monitor_unsuspend
  | Cancel => monitor_unsuspend
  end.

Definition on_new_folder : M unit :=
  items <- selected ;;
  parent_item <- first_of items ;;
  __createFolder (Some parent_item).

Definition on_new_phrase : M unit :=
  monitor_suspend ;;
  items <- selected ;;
  parent_item <- first_of items ;;
  parent_ <- __extractData (Some parent_item) ;;
  phrase <- Phrase_new "New Phrase"%string "Enter phrase contents"%string ;;
  new_item <- PhraseWidgetItem (Some parent_item) phrase ;;
  add_item parent_ phrase ;;
  persist phrase ;;
  monitor_unsuspend ;;
  sortItems ;;
  setCurrentItem (Some new_item) ;;
  setItemSelected parent_item false ;;
  on_treeWidget_itemSelectionChanged ;;
  on_rename.

Definition on_new_script : M unit :=
  monitor_suspend ;;
  items <- selected ;;
  parent_item <- first_of items ;;
  parent_ <- __extractData (Some parent_item) ;;
  script <- Script_new "New Script"%string "#Enter script code"%string ;;
  new_item <- ScriptWidgetItem (Some parent_item) script ;;
  add_item parent_ script ;;
  persist script ;;
  monitor_unsuspend ;;
  sortItems ;;
  setCurrentItem (Some new_item) ;;
  setItemSelected parent_item false ;;
  on_treeWidget_itemSelectionChanged ;;
  on_rename.

Definition on_copy : M unit :=
  source_objects <- __getSelection ;;
  for_each source_objects (fun source =>
    s <- deref source ;;
    new_obj <- (if is_phrase s then Phrase_new EmptyString EmptyString
                else Script_new EmptyString EmptyString) ;;
    copy new_obj source ;;
    modify (fun w => set_cutCopiedItems (cutCopiedItems w ++ [new_obj]) w)).

Definition on_clone : M unit :=
  sel <- __getSelection ;;
  source_object <- first_of sel ;;
  items <- selected ;;
  first <- first_of items ;;
  x <- wderef first ;;
  let parent_item := w_parent x in
  parent_ <- __extractData parent_item ;;
  s <- deref source_object ;;
  new_obj <- (if is_phrase s then Phrase_new EmptyString EmptyString
                else Script_new EmptyString EmptyString) ;;
  copy new_obj source_object ;;
  new_item <- new_widget_item parent_item new_obj ;;
  add_item parent_ new_obj ;;
  monitor_suspend ;;
  persist new_obj ;;
  monitor_unsuspend ;;
  sortItems ;;
  setCurrentItem (Some new_item) ;;
  match parent_item with
  | Some p => setItemSelected p false
  | None => ret tt
  end ;;
  on_treeWidget_itemSelectionChanged ;;
  config_altered false.

Fixpoint __deleteHotkeys (fuel : nat) (theItem : ref) : M unit :=
  match fuel with
  | 0 => out_of_fuel
  | S fuel' =>
      e <- deref theItem ;;
      when (has_hotkey e) (hotkey_removed theItem) ;;
      if is_folder e then
        for_each (folders e) (__deleteHotkeys fuel') ;;
        for_each (items e) (fun item =>
          i <- deref item ;;
          when (has_hotkey i) (hotkey_removed item))
      else ret tt
  end.

Definition __removeItem (fuel : nat) (widgetItem : wref) : M unit :=
  x <- wderef widgetItem ;;
  let parent_ := w_parent x in
  item <- __extractData (Some widgetItem) ;;
  __deleteHotkeys fuel item ;;
  removed_index <-
    match parent_ with
    | None =>
        removed_index <- indexOfTopLevelItem widgetItem ;;
        takeTopLevelItem removed_index ;;
        w <- get ;;
        (if mem item (cm_folders w)
         then modify (fun w => set_cm_folders (remove_first item (cm_folders w)) w)
         else raise ValueError) ;;
        ret removed_index
    | Some p =>
        removed_index <- indexOfChild p widgetItem ;;
        removeChild p widgetItem ;;
        e <- deref item ;;
        match parent e with
        | None => raise AttributeError
        | Some ip =>
            if is_folder e then remove_folder ip item else remove_item ip item
        end ;;
        ret removed_index
    end ;;
  remove_data item ;;
  sortItems ;;
  match parent_ with
  | Some p =>
      n <- childCount p ;;
      if (n >? 0)%Z then
        let new_index := Z.min removed_index (n - 1) in
        c <- child p new_index ;;
        setCurrentItem c
      else setCurrentItem (Some p)
  | None =>
      n <- topLevelItemCount ;;
      let new_index := Z.min removed_index (n - 1) in
      c <- topLevelItem new_index ;;
      setCurrentItem c
  end.

(** [f for f in source_items if f.parent() not in source_items] *)
Definition top_level_filter (source_items : list wref) : M (list wref) :=
  filter_m (fun f => x <- wderef f ;;
                     ret (negb (opt_mem (w_parent x) source_items)))
           source_items.

Definition on_cut (fuel : nat) : M unit :=
  sel <- __getSelection ;;
  modify (set_cutCopiedItems sel) ;;
  monitor_suspend ;;
  source_items <- selected ;;
  result <- top_level_filter source_items ;;
  for_each result (__removeItem fuel) ;;
  monitor_unsuspend ;;
  config_altered false.

Definition on_paste : M unit :=
  items <- selected ;;
  parent_item <- first_of items ;;
  parent_ <- __extractData (Some parent_item) ;;
  monitor_suspend ;;
  w0 <- get ;;
  new_items <-
    map_m (fun item =>
      e <- deref item ;;
      new_item <-
        (if is_folder e then
           new_item <- FolderWidgetItem (Some parent_item) item ;;
           modify (fun w => set_witems (processFolder (heap w) (witems w) new_item item) w) ;;
           add_folder parent_ item ;;
           ret new_item
         else if is_phrase e then
           new_item <- PhraseWidgetItem (Some parent_item) item ;;
           add_item parent_ item ;;
           ret new_item
         else
           new_item <- ScriptWidgetItem (Some parent_item) item ;;
           add_item parent_ item ;;
           ret new_item) ;;
      persist item ;;
      ret new_item) (cutCopiedItems w0) ;;
  sortItems ;;
  last_item <- last_of new_items ;;
  setCurrentItem (Some last_item) ;;
  on_treeWidget_itemSelectionChanged ;;
  modify (set_cutCopiedItems []) ;;
  for_each new_items (fun item => setItemSelected item true) ;;
  monitor_unsuspend ;;
  config_altered false.

(** The parts of [on_paste], named for the statements about it. *)

(** One turn of the loop of [on_paste]. *)
Definition paste_one (parent_item : wref) (parent_ : ref) (item : ref) : M wref :=
  e <- deref item ;;
  new_item <-
    (if is_folder e then
       new_item <- FolderWidgetItem (Some parent_item) item ;;
       modify (fun w => set_witems (processFolder (heap w) (witems w) new_item item) w) ;;
       add_folder parent_ item ;;
       ret new_item
     else if is_phrase e then
       new_item <- PhraseWidgetItem (Some parent_item) item ;;
       add_item parent_ item ;;
       ret new_item
     else
       new_item <- ScriptWidgetItem (Some parent_item) item ;;
       add_item parent_ item ;;
       ret new_item) ;;
  persist item ;;
  ret new_item.

(** What follows the loop in [on_paste]. *)
Definition paste_finish (new_items : list wref) : M unit :=
  sortItems ;;
  last_item <- last_of new_items ;;
  setCurrentItem (Some last_item) ;;
  on_treeWidget_itemSelectionChanged ;;
  modify (set_cutCopiedItems []) ;;
  for_each new_items (fun item => setItemSelected item true) ;;
  monitor_unsuspend ;;
  config_altered false.

(** [result] is the button the confirmation box returns. *)
Definition on_delete (fuel : nat) (result : Button) : M unit :=
  widget_items <- selected ;;
  monitor_suspend ;;
  match widget_items with
  | [widget_item] =>
      data <- __extractData (Some widget_item) ;;
      _ <- deref data ;;
      ret tt
  | _ => ret tt
  end ;;
  match result with
  | Yes => for_each widget_items (__removeItem fuel)
  | _ => ret tt
  end ;;
  monitor_unsuspend ;;
  match result with
  | Yes => config_altered false
  | _ => ret tt
  end.

Fixpoint __moveRecurseUpdate (fuel : nat) (folder : ref) : M unit :=
  match fuel with
  | 0 => out_of_fuel
  | S fuel' =>
      update_entity folder (set_path None) ;;
      persist folder ;;
      e <- deref folder ;;
      for_each (folders e) (__moveRecurseUpdate fuel') ;;
      e <- deref folder ;;
      for_each (items e) (fun child =>
        update_entity child (set_path None) ;;
        persist child)
  end.

Definition move_items (fuel : nat) (sourceItems : list wref) (target : wref) : M unit :=
  target_model_item <- __extractData (Some target) ;;
  (* Filter out any child objects that belong to a parent already in the list *)
  result <- top_level_filter sourceItems ;;
  monitor_suspend ;;
  for_each result (fun source =>
    __removeItem fuel source ;;
    source_model_item <- __extractData (Some source) ;;
    e <- deref source_model_item ;;
    (if is_folder e then
       add_folder target_model_item source_model_item ;;
       __moveRecurseUpdate fuel source_model_item
     else
       add_item target_model_item source_model_item ;;
       update_entity source_model_item (set_path None) ;;
       persist source_model_item) ;;
    addChild target source) ;;
  monitor_unsuspend ;;
  sortItems ;;
  config_altered true.

(** One turn of the loop of [move_items], named for the statements
    about it. *)
Definition move_one (fuel : nat) (target_model_item : ref) (target : wref)
    (source : wref) : M unit :=
  __removeItem fuel source ;;
  source_model_item <- __extractData (Some source) ;;
  e <- deref source_model_item ;;
  (if is_folder e then
     add_folder target_model_item source_model_item ;;
     __moveRecurseUpdate fuel source_model_item
   else
     add_item target_model_item source_model_item ;;
     update_entity source_model_item (set_path None) ;;
     persist source_model_item) ;;
  addChild target source.

End CentralWidget.

(** ** [ListWidgetHandler]: the log mirror *)

Record LogRecord := mkLogRecord { levelno : Z; message : string }.
Record ListItem := mkListItem { text : string; warning : bool }.

Definition logging_INFO : Z := 20.

(** [_add_item]: append, then drop the first entry once there are more
    than fifty. *)
Definition _add_item {A} (item : A) (widget : list A) : list A :=
  let widget := widget ++ [item] in
  if 50 <? length widget then drop 1 widget else widget.

(** [emit]: the record is formatted with [%(message)s], marked as a
    warning above INFO and handed to [_add_item]. *)
Definition emit (record : LogRecord) (widget : list ListItem) : list ListItem :=
  _add_item (mkListItem (message record) (logging_INFO <? levelno record)%Z) widget.

Definition on_clear_log {A} (widget : list A) : list A := [].

(** ** A concrete set of collaborators, for running the handlers *)

Module Concrete.

(** The empty-field rule as a run of blanks. *)
Fixpoint all_blank (s : string) : bool :=
  match s with
  | EmptyString => true
  | String c s' => Ascii.eqb c " "%char && all_blank s'
  end.

Definition attach (h : list Entity) (ws : list WidgetItem) (p : wref) (obj : ref)
  : list WidgetItem :=
  let t := match h !! obj with Some e => title e | None => EmptyString end in
  let ws' := ws ++ [mkWidget (Some p) [] t obj] in
  match ws' !! p with
  | Some x => <[p := set_w_children (w_children x ++ [length ws]) x]> ws'
  | None => ws'
  end.

(** One presentation node per descendant, folders first, to depth [fuel]. *)
Fixpoint processFolder_rec (fuel : nat) (h : list Entity) (ws : list WidgetItem)
    (parent_item : wref) (parent_folder : ref) : list WidgetItem :=
  match fuel with
  | 0 => ws
  | S fuel' =>
      match h !! parent_folder with
      | None => ws
      | Some e =>
          let ws1 :=
            fold_left (fun acc f =>
                         processFolder_rec fuel' h (attach h acc parent_item f)
                                           (length acc) f)
                      (folders e) ws in
          fold_left (fun acc i => attach h acc parent_item i) (items e) ws1
      end
  end.

#[export] Instance collaborators : Collaborators := {|
  EMPTY_FIELD_REGEX_match := all_blank;
  EMPTY_FIELD_REGEX_empty := eq_refl;
  label_leb := String.leb;
  save_persist_global := fun _ => false;
  processFolder := fun h ws i f => processFolder_rec (length h) h ws i f
|}.

End Concrete.

(** [records] reach the mirror one after the other. *)
Definition feed {A} (records : list A) (widget : list A) : list A :=
  fold_left (fun acc r => _add_item r acc) records widget.

(** ** Reference definitions used in the statements *)

(** The model object behind a presentation node. *)
Definition data_of (w : World) (i : wref) : ref :=
  match witems w !! i with Some x => w_data x | None => 0 end.

Definition selected_data (w : World) : list ref :=
  map (data_of w) (selectedItems w).

Definition parent_of (h : list Entity) (r : ref) : option ref :=
  match h !! r with Some e => parent e | None => None end.

(** The top-level filter in the spec's words: drop every object whose
    parent is also in the list. *)
Definition top_level (h : list Entity) (l : list ref) : list ref :=
  List.filter (fun f => negb (opt_mem (parent_of h f) l)) l.

(** Every selected node exists and carries an existing model object. *)
Definition selection_ok (w : World) : bool :=
  forallb (fun i => match witems w !! i with
                    | Some x => match heap w !! w_data x with
                                | Some _ => true
                                | None => false
                                end
                    | None => false
                    end) (selectedItems w).

(** The duplicate Copy makes of the object at [source]: a new phrase for
    a phrase, a new script for anything else, with the content fields of
    the source. *)
Definition duplicate (h : list Entity) (source : ref) : Entity :=
  match h !! source with
  | Some s =>
      mkEntity (if is_phrase s then KPhrase else KScript) (title s) (content s)
               None None [] [] []
  | None => mkEntity KScript EmptyString EmptyString None None [] [] []
  end.

(** The state [sortItems] leaves, apart from the recorded call. *)
Definition sorted_world `{Collab : Collaborators} (w : World) : World :=
  set_topLevelItems (sort_labels (witems w) (topLevelItems w))
    (set_witems
       (map (fun x => set_w_children (sort_labels (witems w) (w_children x)) x)
            (witems w)) w).

(** The state after a selection change that leaves exactly the object
    [r] of kind [k] selected. *)
Definition page_of (k : Kind) : nat :=
  match k with KFolder => 0 | KPhrase => 1 | KScript => 2 end.

Definition loaded_world (r : ref) (k : Kind) (w : World) : World :=
  set_trace (trace w ++ [PageLoad (page_of k) r; UpdateActions [r] true; CancelRecord])
    (set_dirty_field false
       (set_pageItems (<[page_of k := Some r]> (pageItems w))
          (set_stackIndex (page_of k) w))).

(** *** Subtrees

    The tree below an object, as the arena lays it out: the object, the
    trees of its child folders in order, then its child leaves. *)
#[local] Unset Elimination Schemes.
Inductive Shape := Node (r : ref) (subs : list Shape) (leaves : list ref).
#[local] Set Elimination Schemes.

Definition root (t : Shape) : ref :=
  match t with Node r _ _ => r end.

Definition valid_ref (h : list Entity) (r : ref) : bool :=
  match h !! r with Some _ => true | None => false end.

Definition folder_at (h : list Entity) (r : ref) : bool :=
  match h !! r with Some e => is_folder e | None => false end.

(** [shape_ok h t]: the arena [h] holds the tree [t]; the child folders
    of a folder are folders. *)
Fixpoint shape_ok (h : list Entity) (t : Shape) : bool :=
  match t with
  | Node r subs leaves =>
      match h !! r with
      | None => false
      | Some e =>
          if is_folder e then
            list_eqb (folders e) (map root subs) &&
            list_eqb (items e) leaves &&
            forallb (valid_ref h) leaves &&
            forallb (folder_at h) (map root subs) &&
            forallb (shape_ok h) subs
          else
            match subs, leaves with
            | [], [] => true
            | _, _ => false
            end
      end
  end.

Fixpoint height (t : Shape) : nat :=
  match t with
  | Node _ subs _ => S (list_max (map height subs))
  end.

(** The object and all its descendants, in the order a traversal that
    takes folders before leaves meets them. *)
Fixpoint nodes (t : Shape) : list ref :=
  match t with
  | Node r subs leaves => r :: flat_map nodes subs ++ leaves
  end.

Definition hotkey_at (h : list Entity) (r : ref) : bool :=
  match h !! r with Some e => has_hotkey e | None => false end.

(** Two widget arenas with the same nodes showing the same objects. *)
Definition same_data (ws ws' : list WidgetItem) : Prop :=
  forall i, w_data <$> ws' !! i = w_data <$> ws !! i.

(** The arena after [child] has left the child list of [p], where [e] is
    the object behind [child] as it was: the list of folders or of leaves
    of [p] loses its first occurrence of [child]. *)
Definition detach (e : Entity) (child : ref) (pe : Entity) : Entity :=
  if is_folder e then set_folders (remove_first child (folders pe)) pe
  else set_items (remove_first child (items pe)) pe.

Definition listed (e : Entity) (child : ref) (pe : Entity) : bool :=
  if is_folder e then mem child (folders pe) else mem child (items pe).

(** [removable w i]: node [i] can be taken out of the tree, that is, a
    top-level node shows a root folder and any other node shows an object
    that its parent object lists. *)
Definition removable (w : World) (i : wref) : bool :=
  match witems w !! i with
  | None => false
  | Some x =>
      match w_parent x with
      | None => mem (w_data x) (cm_folders w)
      | Some p =>
          match witems w !! p, heap w !! w_data x with
          | Some _, Some e =>
              match parent e with
              | Some ip =>
                  match heap w !! ip with
                  | Some pe => listed e (w_data x) pe
                  | None => false
                  end
              | None => false
              end
          | _, _ => false
          end
      end
  end.

(** The model objects once the object behind node [i] has left its
    parent's list; root folders are not listed by any object. *)
Definition heap_without (w : World) (i : wref) : list Entity :=
  match witems w !! i with
  | Some x =>
      match w_parent x, heap w !! w_data x with
      | Some _, Some e =>
          match parent e with
          | Some ip =>
              match heap w !! ip with
              | Some pe => <[ip := detach e (w_data x) pe]> (heap w)
              | None => heap w
              end
          | None => heap w
          end
      | _, _ => heap w
      end
  | None => heap w
  end.

(** The root folder list once node [i] is removed. *)
Definition roots_without (w : World) (i : wref) : list ref :=
  match witems w !! i with
  | Some x =>
      match w_parent x with
      | None => remove_first (w_data x) (cm_folders w)
      | Some _ => cm_folders w
      end
  | None => cm_folders w
  end.

(** [attached h r]: the object at [r] names a parent that lists it. *)
Definition attached (h : list Entity) (r : ref) : bool :=
  match h !! r with
  | Some e =>
      match parent e with
      | Some p => match h !! p with
                  | Some pe => listed e r pe
                  | None => false
                  end
      | None => false
      end
  | None => false
  end.

Definition occurrences (r : ref) (l : list ref) : nat :=
  length (List.filter (Nat.eqb r) l).

(** *** Moving

    [clear_paths l h]: the arena after [path] was set to [None], in
    turn, on every object of [l]; [reparent h target item]: the arena
    after [target.add_folder(item)] or [target.add_item(item)]. *)
Definition clear_path (h : list Entity) (r : ref) : list Entity :=
  match h !! r with
  | Some e => <[r := set_path None e]> h
  | None => h
  end.

Definition clear_paths (l : list ref) (h : list Entity) : list Entity :=
  fold_left clear_path l h.

Definition enlist (item : ref) (as_folder : bool) (te : Entity) : Entity :=
  if as_folder then set_folders (folders te ++ [item]) te
  else set_items (items te ++ [item]) te.

Definition reparent (h : list Entity) (target item : ref) : list Entity :=
  match h !! item with
  | Some e =>
      let h1 := <[item := set_parent (Some target) e]> h in
      match h1 !! target with
      | Some te => <[target := enlist item (is_folder e) te]> h1
      | None => h1
      end
  | None => h
  end.

Definition path_of (h : list Entity) (r : ref) : option string :=
  match h !! r with Some e => path e | None => None end.

(** What the tree structure of an object consists of. *)
Definition tree_fields (e : Entity) : Kind * list ref * list ref :=
  (kind e, folders e, items e).

(** Two arenas that hold the same tree structure at the objects of [l]. *)
Definition agree_on (l : list ref) (h h' : list Entity) : Prop :=
  forall r, In r l -> tree_fields <$> h' !! r = tree_fields <$> h !! r.

(** The top-level filter over presentation nodes, in the spec's words. *)
Definition w_parent_of (ws : list WidgetItem) (i : wref) : option wref :=
  match ws !! i with Some x => w_parent x | None => None end.

Definition top_level_nodes (ws : list WidgetItem) (l : list wref) : list wref :=
  List.filter (fun f => negb (opt_mem (w_parent_of ws f) l)) l.

Definition valid_node (ws : list WidgetItem) (i : wref) : bool :=
  match ws !! i with Some _ => true | None => false end.

(** Two widget arenas with the same nodes showing the same objects,
    every node but [i] below the same node as before. *)
Definition same_nodes_but (i : wref) (ws ws' : list WidgetItem) : Prop :=
  forall j,
    w_data <$> ws' !! j = w_data <$> ws !! j /\
    (j <> i -> w_parent <$> ws' !! j = w_parent <$> ws !! j).

Definition folders_of (h : list Entity) (p : ref) : list ref :=
  match h !! p with Some e => folders e | None => [] end.

Definition items_of (h : list Entity) (p : ref) : list ref :=
  match h !! p with Some e => items e | None => [] end.

(** How often the object [p] lists [c] as a child. *)
Definition child_count (h : list Entity) (p c : ref) : nat :=
  occurrences c (folders_of h p) + occurrences c (items_of h p).

(** [p] lists [c] in the list that fits the kind of [c]. *)
Definition lists_child (h : list Entity) (p c : ref) : bool :=
  if folder_at h c then mem c (folders_of h p) else mem c (items_of h p).

(** The model objects after one turn of the loop of [move_items] that
    moves the node [source], showing the tree [t], under the object
    [tgt]. *)
Definition moved_heap (w : World) (source : wref) (tgt : ref) (t : Shape)
  : list Entity :=
  clear_paths (nodes t) (reparent (heap_without w source) tgt (root t)).

(** *** Plans of a move

    A plan pairs each node to move with the tree its object heads. *)
Fixpoint distinct (l : list nat) : bool :=
  match l with
  | [] => true
  | x :: l' => negb (mem x l') && distinct l'
  end.

(** [source_ok fuel tgt ts w (s, t)]: node [s] shows the root of [t],
    the arena holds [t] within the recursion bound, [s] can be removed,
    the target object is not in [t], and the parent of the root is in
    none of the trees [ts]. *)
Definition source_ok (fuel : nat) (tgt : ref) (ts : list Shape) (w : World)
    (st : wref * Shape) : bool :=
  valid_node (witems w) (fst st) &&
  Nat.eqb (root (snd st)) (data_of w (fst st)) &&
  shape_ok (heap w) (snd st) &&
  (height (snd st) <=? fuel) &&
  removable w (fst st) &&
  negb (mem tgt (nodes (snd st))) &&
  match parent_of (heap w) (root (snd st)) with
  | Some ip => forallb (fun t' => negb (mem ip (nodes t'))) ts
  | None => true
  end.

Definition plan_ok (fuel : nat) (tgt : ref) (w : World)
    (plan : list (wref * Shape)) : bool :=
  forallb (source_ok fuel tgt (map snd plan) w) plan &&
  distinct (map fst plan) &&
  distinct (map (fun st => root (snd st)) plan).

(** What a move promises for the node [s] that shows the tree [t], from
    the state [w] before to the state [w'] after. *)
Definition moved (tgt : ref) (target : wref) (w w' : World) (s : wref) (t : Shape)
  : Prop :=
  (forall r, In r (nodes t) -> path_of (heap w') r = None) /\
  parent_of (heap w') (root t) = Some tgt /\
  lists_child (heap w') tgt (root t) = true /\
  w_parent_of (witems w') s = Some target /\
  (w_parent_of (witems w) s = None ->
   occurrences (root t) (cm_folders w') < occurrences (root t) (cm_folders w)) /\
  (forall ip, w_parent_of (witems w) s <> None ->
              parent_of (heap w) (root t) = Some ip -> ip <> tgt ->
              child_count (heap w') ip (root t) < child_count (heap w) ip (root t)).

(** What a move of the nodes [srcs], showing the objects [roots],
    leaves as it was, from the state [w] to the state [w']. *)
Definition frame (tgt : ref) (srcs : list wref) (roots : list ref) (w w' : World)
  : Prop :=
  (forall r, path_of (heap w) r = None -> path_of (heap w') r = None) /\
  (forall r, ~ In r roots -> parent_of (heap w') r = parent_of (heap w) r) /\
  (forall c p, ~ In c roots -> lists_child (heap w') p c = lists_child (heap w) p c) /\
  (forall j, ~ In j srcs -> w_parent_of (witems w') j = w_parent_of (witems w) j) /\
  (forall p c, p <> tgt -> child_count (heap w') p c <= child_count (heap w) p c) /\
  (forall c, occurrences c (cm_folders w') <= occurrences c (cm_folders w)).

(** A computation that raises no Python exception, whatever the state. *)
Definition no_raise {A} (c : M A) : Prop :=
  forall w x w', c w <> (Raise x, w').

(** ** Sample states *)

(** Root folder Work (object 0) holds phrase Signature (1, bound to a
    hotkey) and folder Sub (2, bound to a hotkey), which holds script
    Run (3); Home (4) is a second, empty root folder.  Node [i] shows
    object [i]. *)
Definition sample_heap : list Entity :=
  [ mkEntity KFolder "Work" EmptyString None (Some "/cfg/Work"%string) [] [2] [1];
    mkEntity KPhrase "Signature" "Regards" (Some 0)
             (Some "/cfg/Work/Signature.txt"%string) [HOTKEY] [] [];
    mkEntity KFolder "Sub" EmptyString (Some 0) (Some "/cfg/Work/Sub"%string)
             [HOTKEY] [] [3];
    mkEntity KScript "Run" "pass" (Some 2) (Some "/cfg/Work/Sub/Run.py"%string)
             [] [] [];
    mkEntity KFolder "Home" EmptyString None (Some "/cfg/Home"%string) [] [] [] ].

Definition sample_witems : list WidgetItem :=
  [ mkWidget None [1; 2] "Work" 0;
    mkWidget (Some 0) [] "Signature" 1;
    mkWidget (Some 0) [3] "Sub" 2;
    mkWidget (Some 2) [] "Run" 3;
    mkWidget None [] "Home" 4 ].

(** The sample tree with [sel] selected and [clip] on the clipboard. *)
Definition sample_world (sel : list wref) (clip : list ref) : World :=
  mkWorld sample_heap sample_witems [4; 0] [4; 0] sel clip false 0
          [None; None; None] [].

(** The sample tree after the user has blanked the label of node 1,
    which is selected and loaded in the phrase page. *)
Definition blank_label_world : World :=
  mkWorld sample_heap
    [ mkWidget None [1; 2] "Work" 0;
      mkWidget (Some 0) [] "  " 1;
      mkWidget (Some 0) [3] "Sub" 2;
      mkWidget (Some 2) [] "Run" 3;
      mkWidget None [] "Home" 4 ]
    [4; 0] [4; 0] [1] [] false 1 [None; Some 1; None] [].

(** The spec's example: root folder Work (object 0) holds phrase
    Signature (object 1) with no trigger mode; Work is selected. *)
Definition work_world : World :=
  mkWorld
    [ mkEntity KFolder "Work" EmptyString None (Some "/cfg/Work"%string) [] [] [1];
      mkEntity KPhrase "Signature" "Regards" (Some 0)
               (Some "/cfg/Work/Signature.txt"%string) [] [] [] ]
    [ mkWidget None [1] "Work" 0;
      mkWidget (Some 0) [] "Signature" 1 ]
    [0] [0] [0] [] false 0 [None; None; None] [].

(** ** The handlers of [CentralWidget] beside the synchroniser *)

Section Session.
Context `{Collab : Collaborators}.

(** [populate_tree(config)]: [root_folders] are the nodes that
    [factory.get_root_folder_list()] returns for [config.folders]; the
    factory is not in this file. *)
Definition populate_tree (root_folders : list wref) : M unit :=
  for_each root_folders addTopLevelItem ;;
  sortItems ;;
  first <- topLevelItem 0 ;;
  setCurrentItem first ;;
  on_treeWidget_itemSelectionChanged.

(** [on_save]: [page_valid] is what the current page's [validate()]
    returns; [save_completed] is the main window's method, which is not
    in this file.  [treeWidget.update()] only repaints. *)
Definition on_save (save_completed : bool -> M unit) (page_valid : bool) : M bool :=
  if page_valid then
    monitor_suspend ;;
    persist_global <- page_save ;;
    save_completed persist_global ;;
    set_dirty false ;;
    items <- selected ;;
    item <- first_of items ;;
    item_update item ;;
    sortItems ;;
    monitor_unsuspend ;;
    ret false
  else ret true.

(** [promptToSave]: [prompt_to_save] is the setting
    [SETTINGS[PROMPT_TO_SAVE]], [result] the button of the question box. *)
Definition promptToSave (save_completed : bool -> M unit) (prompt_to_save : bool)
    (result : Button) (page_valid : bool) : M bool :=
  if prompt_to_save then
    match result with
    | Yes => on_save save_completed page_valid
    | Cancel => ret true
    | No => ret false
    end
  else
    (* don't prompt, just save *)
    on_save save_completed page_valid.

End Session.

(** ** [on_save_log]: the log mirror written to a file *)

(** The files [on_save_log] can reach, by name. *)
Definition Files := string -> option string.

Definition write_file (fs : Files) (name content : string) : Files :=
  fun n => if String.eqb n name then Some content else fs n.

(** Where the operating system raises [IOError]: nowhere, at [open], or
    at the write call number [n] (counted from 0). *)
Inductive IOFault := NoFault | OpenFails | WriteFails (n : nat).

Definition newline : string := String "010"%char EmptyString.

(** The [write] calls of the loop, in order: two per entry. *)
Definition log_writes (widget : list ListItem) : list string :=
  flat_map (fun item => [text item; newline]) widget.

(** The writes reach the file one after the other until one fails; the
    result is the file's content and whether [IOError] was raised. *)
Fixpoint write_all (writes : list string) (failing : option nat) (written : string)
  : string * bool :=
  match writes with
  | [] => (written, false)
  | s :: rest =>
      match failing with
      | Some 0 => (written, true)
      | Some (S n) => write_all rest (Some n) (written ++ s)
      | None => write_all rest None (written ++ s)
      end
  end.

(** [file_name] is what the file dialog returns (empty when dismissed).
    The result is the files afterwards and whether [logger.exception]
    was called.  Opening with mode [w] empties the file. *)
Definition on_save_log (file_name : string) (fault : IOFault)
    (widget : list ListItem) (fs : Files) : Files * bool :=
  if negb (String.eqb file_name EmptyString) then
    match fault with
    | OpenFails => (fs, true)
    | NoFault =>
        let (content, failed) := write_all (log_writes widget) None EmptyString in
        (write_file fs file_name content, failed)
    | WriteFails n =>
        let (content, failed) := write_all (log_writes widget) (Some n) EmptyString in
        (write_file fs file_name content, failed)
    end
  else (fs, false).

(** ** Reference definitions for the handlers above and for the tree *)

(** The entry [emit] makes of a record. *)
Definition entry_of (record : LogRecord) : ListItem :=
  mkListItem (message record) (logging_INFO <? levelno record)%Z.

(** [records] are emitted one after the other. *)
Definition emit_all (records : list LogRecord) (widget : list ListItem)
  : list ListItem :=
  fold_left (fun acc r => emit r acc) records widget.

(** The lines of a text, each ended by a newline (the last one may lack
    it). *)
Fixpoint text_lines (s : string) : list string :=
  match s with
  | EmptyString => []
  | String c s' =>
      if Ascii.eqb c "010"%char then EmptyString :: text_lines s'
      else match text_lines s' with
           | [] => [String c EmptyString]
           | l :: ls => String c l :: ls
           end
  end.

Fixpoint has_char (c : ascii) (s : string) : bool :=
  match s with
  | EmptyString => false
  | String c' s' => Ascii.eqb c' c || has_char c s'
  end.

Definition join_all (l : list string) : string :=
  fold_right String.append EmptyString l.

(** [part] is a beginning of [full]. *)
Definition begins_with (full part : string) : Prop :=
  exists rest, full = (part ++ rest)%string.

(** A root node: it exists and shows an existing object without parent. *)
Definition root_node (w : World) (i : wref) : bool :=
  match witems w !! i with
  | Some x => match heap w !! w_data x with
              | Some e => match parent e with None => true | Some _ => false end
              | None => false
              end
  | None => false
  end.

(** A collaborator that only reports to the host: it returns and adds
    the events [evs b] to the trace. *)
Definition reports (evs : bool -> list Event) (c : bool -> M unit) : Prop :=
  forall b w, c b w = (Ret tt, set_trace (trace w ++ evs b) w).

(** The duplicate Clone makes of [s] for the folder [owner]. *)
Definition clone_of (s : Entity) (owner : ref) : Entity :=
  mkEntity (if is_phrase s then KPhrase else KScript) (title s) (content s)
           (Some owner) None [] [] [].

(** The nodes beside node [i], [i] included: the children of its parent
    node, or the top-level nodes. *)
Definition siblings (w : World) (i : wref) : list wref :=
  match witems w !! i with
  | Some x =>
      match w_parent x with
      | Some p => match witems w !! p with
                  | Some xp => w_children xp
                  | None => []
                  end
      | None => topLevelItems w
      end
  | None => []
  end.

Definition leaf_at (h : list Entity) (r : ref) : bool :=
  match h !! r with Some e => negb (is_folder e) | None => false end.

Definition kind_of (h : list Entity) (r : ref) : Kind :=
  match h !! r with Some e => kind e | None => KScript end.

Definition title_of (h : list Entity) (r : ref) : string :=
  match h !! r with Some e => title e | None => EmptyString end.

(** The state after one turn of the loop of [on_paste] for a phrase or
    script [item]: a new node below [parent_item], [item] entered under
    [tgt], and the call of [persist]. *)
Definition paste_leaf (parent_item : wref) (tgt : ref) (w : World) (item : ref)
  : World :=
  set_trace (trace w ++ [Persist item (path_of (heap w) item)])
    (set_heap (reparent (heap w) tgt item)
       (set_witems (Concrete.attach (heap w) (witems w) parent_item item) w)).

(** The arena after [tgt.add_item(item)] for each [item] of [l] in turn. *)
Definition reparent_all (tgt : ref) (l : list ref) (h : list Entity) : list Entity :=
  fold_left (fun h i => reparent h tgt i) l h.

(** The selection after [setItemSelected(item, True)] for each of [l]. *)
Definition select_all (l : list wref) (sel : list wref) : list wref :=
  fold_left (fun s i => if mem i s then s else s ++ [i]) l sel.

(** The sample tree with Signature selected, loaded in the phrase page
    and edited. *)
Definition saving_world : World :=
  mkWorld sample_heap sample_witems [4; 0] [4; 0] [1] [] true 1
          [None; Some 1; None] [].

(** * Properties *)

(** ** The log mirror *)

Lemma _add_item_below {A} (item : A) widget :
  length widget < 50 -> _add_item item widget = widget ++ [item].
Proof.
  intros H. unfold _add_item.
  destruct (Nat.ltb_spec 50 (length (widget ++ [item]))) as [Hlt|Hge]; [|reflexivity].
  rewrite length_app in Hlt. simpl in Hlt. lia.
Qed.

Lemma _add_item_full {A} (item : A) widget :
  50 <= length widget -> _add_item item widget = drop 1 (widget ++ [item]).
Proof.
  intros H. unfold _add_item.
  destruct (Nat.ltb_spec 50 (length (widget ++ [item]))) as [Hlt|Hge]; [reflexivity|].
  rewrite length_app in Hge. simpl in Hge. lia.
Qed.

Lemma _add_item_length {A} (item : A) widget :
  length widget <= 50 -> length (_add_item item widget) <= 50.
Proof.
  intros H. destruct (Nat.lt_ge_cases (length widget) 50) as [Hlt|Hge].
  - rewrite _add_item_below by exact Hlt. rewrite length_app. simpl. lia.
  - rewrite _add_item_full by exact Hge.
    rewrite length_drop, length_app. simpl. lia.
Qed.

Lemma feed_window {A} (records : list A) :
  forall widget,
    length widget <= 50 ->
    feed records widget
    = drop (length (widget ++ records) - 50) (widget ++ records).
Proof.
  induction records as [|r records IH]; intros widget Hlen.
  - simpl. rewrite app_nil_r.
    replace (length widget - 50) with 0 by lia. reflexivity.
  - change (feed (r :: records) widget) with (feed records (_add_item r widget)).
    rewrite IH by (apply _add_item_length; exact Hlen).
    destruct (Nat.lt_ge_cases (length widget) 50) as [Hlt|Hge].
    + rewrite _add_item_below by exact Hlt.
      rewrite <- app_assoc. reflexivity.
    + rewrite _add_item_full by exact Hge.
      assert (Hw : length widget = 50) by lia.
      destruct widget as [|x widget]; [simpl in Hw; lia|].
      simpl in Hw.
      change (drop 1 ((x :: widget) ++ [r])) with (widget ++ [r]).
      rewrite <- app_assoc. simpl ((x :: widget) ++ r :: records).
      simpl ([r] ++ records).
      rewrite !length_app. simpl (length (x :: _)). rewrite length_app.
      simpl (length (r :: records)).
      replace (S (length widget + S (length records)) - 50)
        with (S (length widget + S (length records) - 50)) by lia.
      reflexivity.
Qed.

(** C4: the mirror never holds more than fifty entries, an append to a
    full mirror drops the entry at index 0 and nothing else, and fifty-one
    records fed to an empty mirror leave records 2 to 51 in their order. *)
Theorem log_mirror_fifo {A} (records : list A) :
  length records = 51 ->
  (forall (item : A) widget,
      length widget <= 50 ->
      length (_add_item item widget) <= 50 /\
      (length widget < 50 -> _add_item item widget = widget ++ [item]) /\
      (length widget = 50 -> _add_item item widget = drop 1 widget ++ [item])) /\
  feed records [] = drop 1 records /\
  length (feed records []) = 50.
Proof.
  intros H51. split; [|split].
  - intros item widget Hlen. split; [|split].
    + apply _add_item_length; exact Hlen.
    + apply _add_item_below.
    + intros Hfull. rewrite _add_item_full by lia.
      destruct widget; [simpl in Hfull; lia | reflexivity].
  - rewrite feed_window by (simpl; lia). simpl. rewrite H51. reflexivity.
  - rewrite feed_window by (simpl; lia). simpl. rewrite H51.
    rewrite length_drop. lia.
Qed.

Lemma log_mirror_fifo_witness :
  length (seq 1 51) = 51 /\
  feed (seq 1 51) [] = seq 2 50.
Proof.
  split; [reflexivity|].
  exact (proj1 (proj2 (log_mirror_fifo (seq 1 51) eq_refl))).
Defined.

(** ** Running computations *)

Lemma bind_run {A B} (c : M A) (k : A -> M B) w a w' :
  c w = (Ret a, w') -> bind c k w = k a w'.
Proof. intros H. unfold bind. rewrite H. reflexivity. Qed.

Lemma bind_raise {A B} (c : M A) (k : A -> M B) w x w' :
  c w = (Raise x, w') -> bind c k w = (Raise x, w').
Proof. intros H. unfold bind. rewrite H. reflexivity. Qed.

Lemma deref_run w r e : heap w !! r = Some e -> deref r w = (Ret e, w).
Proof. intros H. unfold deref. rewrite H. reflexivity. Qed.

Lemma wderef_run w i x : witems w !! i = Some x -> wderef i w = (Ret x, w).
Proof. intros H. unfold wderef. rewrite H. reflexivity. Qed.

Lemma update_entity_run w r e f :
  heap w !! r = Some e ->
  update_entity r f w = (Ret tt, set_heap (<[r := f e]> (heap w)) w).
Proof.
  intros H. unfold update_entity. rewrite (bind_run _ _ _ _ _ (deref_run _ _ _ H)).
  reflexivity.
Qed.

Lemma update_widget_run w i x f :
  witems w !! i = Some x ->
  update_widget i f w = (Ret tt, set_witems (<[i := f x]> (witems w)) w).
Proof.
  intros H. unfold update_widget. rewrite (bind_run _ _ _ _ _ (wderef_run _ _ _ H)).
  reflexivity.
Qed.

Lemma map_m_pure {A B} (f : A -> M B) (g : A -> B) w l :
  (forall x, In x l -> f x w = (Ret (g x), w)) ->
  map_m f l w = (Ret (map g l), w).
Proof.
  induction l as [|x l IH]; intros Hf; simpl; [reflexivity|].
  rewrite (bind_run _ _ _ _ _ (Hf x (or_introl eq_refl))).
  rewrite (bind_run _ _ _ _ _ (IH (fun y Hy => Hf y (or_intror Hy)))).
  reflexivity.
Qed.

Lemma filter_m_pure {A} (p : A -> M bool) (q : A -> bool) w l :
  (forall x, In x l -> p x w = (Ret (q x), w)) ->
  filter_m p l w = (Ret (List.filter q l), w).
Proof.
  induction l as [|x l IH]; intros Hp; simpl; [reflexivity|].
  rewrite (bind_run _ _ _ _ _ (Hp x (or_introl eq_refl))).
  rewrite (bind_run _ _ _ _ _ (IH (fun y Hy => Hp y (or_intror Hy)))).
  reflexivity.
Qed.

Lemma mem_In x l : mem x l = true <-> In x l.
Proof.
  unfold mem. rewrite existsb_exists. split.
  - intros [y [Hy Heq]]. apply Nat.eqb_eq in Heq. now subst.
  - intros Hx. exists x. split; [exact Hx | apply Nat.eqb_refl].
Qed.

Lemma mem_false x l : mem x l = false <-> ~ In x l.
Proof.
  rewrite <- mem_In. destruct (mem x l); split; intros; congruence.
Qed.

(** ** SelectionQuery *)

Lemma selection_ok_spec w i :
  selection_ok w = true -> In i (selectedItems w) ->
  exists x e, witems w !! i = Some x /\ heap w !! w_data x = Some e.
Proof.
  unfold selection_ok. rewrite forallb_forall. intros Hall Hi.
  specialize (Hall i Hi).
  destruct (witems w !! i) as [x|]; [|discriminate].
  destruct (heap w !! w_data x) as [e|] eqn:He; [|discriminate].
  now exists x, e.
Qed.

Lemma __getSelection_run w :
  selection_ok w = true ->
  __getSelection w = (Ret (top_level (heap w) (selected_data w)), w).
Proof.
  intros Hok. unfold __getSelection, selected.
  rewrite (bind_run _ _ w (selectedItems w) w) by reflexivity.
  rewrite (bind_run _ _ w (selected_data w) w).
  - apply filter_m_pure. intros f Hf.
    unfold selected_data in Hf. apply in_map_iff in Hf as [i [Hi Hin]].
    destruct (selection_ok_spec w i Hok Hin) as (x & e & Hx & He).
    unfold data_of in Hi. rewrite Hx in Hi. subst f.
    rewrite (bind_run _ _ _ _ _ (deref_run _ _ _ He)).
    unfold parent_of. rewrite He. reflexivity.
  - apply map_m_pure. intros i Hin.
    destruct (selection_ok_spec w i Hok Hin) as (x & e & Hx & He).
    simpl. rewrite (bind_run _ _ _ _ _ (wderef_run _ _ _ Hx)).
    unfold data_of. rewrite Hx. reflexivity.
Qed.

(** C8: the selection query returns the objects behind the selected
    nodes without those whose parent is selected too, so no returned
    object has its parent in the result; from a folder selected together
    with one of its children only the folder comes back. *)
Theorem getSelection_top_level_filter (w : World) :
  selection_ok w = true ->
  exists result,
    __getSelection w = (Ret result, w) /\
    (forall f, In f result <->
               In f (selected_data w) /\
               opt_mem (parent_of (heap w) f) (selected_data w) = false) /\
    (forall f p, In f result -> parent_of (heap w) f = Some p -> ~ In p result) /\
    (forall wf wc f c,
        selectedItems w = [wf; wc] ->
        data_of w wf = f -> data_of w wc = c ->
        parent_of (heap w) c = Some f ->
        opt_mem (parent_of (heap w) f) [f; c] = false ->
        result = [f]).
Proof.
  intros Hok. exists (top_level (heap w) (selected_data w)).
  split; [apply __getSelection_run; exact Hok|].
  assert (Hiff : forall f, In f (top_level (heap w) (selected_data w)) <->
               In f (selected_data w) /\
               opt_mem (parent_of (heap w) f) (selected_data w) = false).
  { intros f. unfold top_level. rewrite filter_In, negb_true_iff. reflexivity. }
  split; [exact Hiff|]. split.
  - intros f p Hf Hp Hin.
    apply Hiff in Hf as [_ Hf]. apply Hiff in Hin as [Hin _].
    rewrite Hp in Hf. simpl in Hf. apply mem_false in Hf. contradiction.
  - intros wf wc f c Hsel Hf Hc Hpc Hpf.
    unfold top_level, selected_data. rewrite Hsel. simpl.
    rewrite Hf, Hc, Hpf, Hpc. simpl. rewrite Nat.eqb_refl. reflexivity.
Qed.

Lemma getSelection_top_level_filter_witness :
  selection_ok (sample_world [0; 1] []) = true /\
  __getSelection (sample_world [0; 1] []) = (Ret [0], sample_world [0; 1] []).
Proof.
  split; [reflexivity|].
  destruct (getSelection_top_level_filter (sample_world [0; 1] []) eq_refl)
    as (result & Hrun & _ & _ & Hpair).
  rewrite (Hpair 0 1 0 1 eq_refl eq_refl eq_refl eq_refl eq_refl) in Hrun.
  exact Hrun.
Defined.

(** ** Computations that raise no Python exception *)

Lemma no_raise_ret {A} (a : A) : no_raise (ret a).
Proof. intros w x w' H. discriminate. Qed.

Lemma no_raise_bind {A B} (c : M A) (k : A -> M B) :
  no_raise c -> (forall a, no_raise (k a)) -> no_raise (bind c k).
Proof.
  intros Hc Hk w x w' H. unfold bind in H.
  destruct (c w) as [[a|y| |] w1] eqn:Hcw.
  - exact (Hk a w1 x w' H).
  - exact (Hc w y w1 Hcw).
  - discriminate.
  - discriminate.
Qed.

Lemma no_raise_modify f : no_raise (modify f).
Proof. intros w x w' H. discriminate. Qed.

Lemma no_raise_get : no_raise get.
Proof. intros w x w' H. discriminate. Qed.

Lemma no_raise_emit_event ev : no_raise (emit_event ev).
Proof. apply no_raise_modify. Qed.

Lemma no_raise_deref r : no_raise (deref r).
Proof. intros w x w' H. unfold deref in H. destruct (heap w !! r); discriminate. Qed.

Lemma no_raise_wderef i : no_raise (wderef i).
Proof. intros w x w' H. unfold wderef in H. destruct (witems w !! i); discriminate. Qed.

Lemma no_raise_update_entity r f : no_raise (update_entity r f).
Proof.
  apply no_raise_bind; [apply no_raise_deref | intros; apply no_raise_modify].
Qed.

Lemma no_raise_update_widget i f : no_raise (update_widget i f).
Proof.
  apply no_raise_bind; [apply no_raise_wderef | intros; apply no_raise_modify].
Qed.

Lemma no_raise_alloc_entity e : no_raise (alloc_entity e).
Proof. intros w x w' H. discriminate. Qed.

Lemma no_raise_alloc_widget x0 : no_raise (alloc_widget x0).
Proof. intros w x w' H. discriminate. Qed.

Lemma no_raise_when b c : no_raise c -> no_raise (when b c).
Proof. intros Hc. destruct b; [exact Hc | apply no_raise_ret]. Qed.

Lemma no_raise_for_each {A} (l : list A) body :
  (forall a, no_raise (body a)) -> no_raise (for_each l body).
Proof.
  intros Hb. induction l as [|a l IH]; simpl.
  - apply no_raise_ret.
  - apply no_raise_bind; [apply Hb | intros _; exact IH].
Qed.

Lemma no_raise_map_m {A B} (f : A -> M B) l :
  (forall a, no_raise (f a)) -> no_raise (map_m f l).
Proof.
  intros Hf. induction l as [|a l IH]; simpl.
  - apply no_raise_ret.
  - apply no_raise_bind; [apply Hf|]. intros y.
    apply no_raise_bind; [exact IH|]. intros ys. apply no_raise_ret.
Qed.

Lemma no_raise_filter_m {A} (p : A -> M bool) l :
  (forall a, no_raise (p a)) -> no_raise (filter_m p l).
Proof.
  intros Hp. induction l as [|a l IH]; simpl.
  - apply no_raise_ret.
  - apply no_raise_bind; [apply Hp|]. intros b.
    apply no_raise_bind; [exact IH|]. intros ys. apply no_raise_ret.
Qed.

Ltac no_raise_step :=
  first
    [ apply no_raise_ret
    | apply no_raise_modify
    | apply no_raise_get
    | apply no_raise_emit_event
    | apply no_raise_deref
    | apply no_raise_wderef
    | apply no_raise_update_entity
    | apply no_raise_update_widget
    | apply no_raise_alloc_entity
    | apply no_raise_alloc_widget
    | apply no_raise_when
    | apply no_raise_for_each; intros ?
    | apply no_raise_map_m; intros ?
    | apply no_raise_filter_m; intros ?
    | apply no_raise_bind; [|intros ?] ].

Ltac no_raise_auto := repeat no_raise_step.

Lemma no_raise_persist r : no_raise (persist r).
Proof. unfold persist. no_raise_auto. Qed.

Lemma no_raise_add_folder p f : no_raise (add_folder p f).
Proof. unfold add_folder. no_raise_auto. Qed.

Lemma no_raise_add_item p i : no_raise (add_item p i).
Proof. unfold add_item. no_raise_auto. Qed.

Lemma no_raise_new_widget_item p obj : no_raise (new_widget_item p obj).
Proof. unfold new_widget_item. no_raise_auto. destruct p; no_raise_auto. Qed.

Lemma no_raise_setCurrentItem i : no_raise (setCurrentItem i).
Proof. unfold setCurrentItem. no_raise_auto. Qed.

Lemma no_raise_setItemSelected i b : no_raise (setItemSelected i b).
Proof. unfold setItemSelected. no_raise_auto. Qed.

Lemma no_raise___getSelection : no_raise __getSelection.
Proof. unfold __getSelection, selected. simpl. no_raise_auto. Qed.

Lemma no_raise_page_load page r : no_raise (page_load page r).
Proof. unfold page_load. no_raise_auto. Qed.

Lemma no_raise_on_treeWidget_itemSelectionChanged :
  no_raise on_treeWidget_itemSelectionChanged.
Proof.
  unfold on_treeWidget_itemSelectionChanged.
  apply no_raise_bind; [apply no_raise___getSelection|]. intros sel.
  destruct sel as [|r [|r' sel]]; [apply no_raise_emit_event| |apply no_raise_emit_event].
  apply no_raise_bind; [apply no_raise_deref|]. intros e.
  apply no_raise_bind.
  - destruct (kind e); apply no_raise_page_load.
  - intros _. unfold set_dirty. no_raise_auto.
Qed.

Lemma map_m_length {A B} (f : A -> M B) l :
  forall w ys w', map_m f l w = (Ret ys, w') -> length ys = length l.
Proof.
  induction l as [|a l IH]; intros w ys w' H; simpl in H.
  - injection H as <- _. reflexivity.
  - unfold bind in H.
    destruct (f a w) as [[y|?| |] w1]; try discriminate.
    destruct (map_m f l w1) as [[zs|?| |] w2] eqn:Hl; try discriminate.
    injection H as <- _. simpl. f_equal. exact (IH _ _ _ Hl).
Qed.

Lemma last_of_nonempty {A} (l : list A) :
  l <> [] -> exists x, last_of l = ret x.
Proof.
  intros Hl. unfold last_of.
  destruct (last l) as [x|] eqn:Hlast; [now exists x|].
  apply last_None in Hlast. contradiction.
Qed.

Section Paste.
Context `{Collab : Collaborators}.

Lemma no_raise_paste_one parent_item parent_ item :
  no_raise (paste_one parent_item parent_ item).
Proof.
  unfold paste_one, FolderWidgetItem, PhraseWidgetItem, ScriptWidgetItem.
  apply no_raise_bind; [apply no_raise_deref|]. intros e.
  apply no_raise_bind.
  - destruct (is_folder e); [|destruct (is_phrase e)].
    + apply no_raise_bind; [apply no_raise_new_widget_item|]. intros ?.
      apply no_raise_bind; [apply no_raise_modify|]. intros ?.
      apply no_raise_bind; [apply no_raise_add_folder|]. intros ?.
      apply no_raise_ret.
    + apply no_raise_bind; [apply no_raise_new_widget_item|]. intros ?.
      apply no_raise_bind; [apply no_raise_add_item|]. intros ?.
      apply no_raise_ret.
    + apply no_raise_bind; [apply no_raise_new_widget_item|]. intros ?.
      apply no_raise_bind; [apply no_raise_add_item|]. intros ?.
      apply no_raise_ret.
  - intros new_item. apply no_raise_bind; [apply no_raise_persist|].
    intros ?. apply no_raise_ret.
Qed.

Lemma on_paste_unfold w parent_item rest x :
  selectedItems w = parent_item :: rest ->
  witems w !! parent_item = Some x ->
  on_paste w =
  bind (map_m (paste_one parent_item (w_data x)) (cutCopiedItems w)) paste_finish
       (set_trace (trace w ++ [MonitorSuspend]) w).
Proof.
  intros Hsel Hx. unfold on_paste, selected.
  rewrite (bind_run _ _ w (selectedItems w) w) by reflexivity.
  rewrite Hsel. simpl first_of.
  rewrite (bind_run _ _ w parent_item w) by reflexivity.
  rewrite (bind_run _ _ w (w_data x) w)
    by (simpl; rewrite (bind_run _ _ _ _ _ (wderef_run _ _ _ Hx)); reflexivity).
  rewrite (bind_run _ _ w tt (set_trace (trace w ++ [MonitorSuspend]) w))
    by reflexivity.
  rewrite (bind_run _ _ _ (set_trace (trace w ++ [MonitorSuspend]) w)
             (set_trace (trace w ++ [MonitorSuspend]) w)) by reflexivity.
  reflexivity.
Qed.

Lemma no_raise_sortItems : no_raise sortItems.
Proof. unfold sortItems. no_raise_auto. Qed.

(** C10: with a target selected, pasting an empty clipboard suspends the
    monitor, then fails on the last element of the empty list of new
    items, and the monitor is not resumed; with a clipboard that is not
    empty that index is in bounds. *)
Theorem paste_empty_clipboard_raises (w : World) (parent_item : wref)
    (rest : list wref) (x : WidgetItem) :
  selectedItems w = parent_item :: rest ->
  witems w !! parent_item = Some x ->
  (cutCopiedItems w = [] ->
   exists w',
     on_paste w = (Raise IndexError, w') /\
     trace w' = trace w ++ [MonitorSuspend; SortItems] /\
     count_event MonitorUnsuspend (trace w') = count_event MonitorUnsuspend (trace w) /\
     heap w' = heap w) /\
  (cutCopiedItems w <> [] ->
   (forall w', on_paste w <> (Raise IndexError, w')) /\
   (forall new_items w1,
       map_m (paste_one parent_item (w_data x)) (cutCopiedItems w)
             (set_trace (trace w ++ [MonitorSuspend]) w) = (Ret new_items, w1) ->
       exists last_item, last new_items = Some last_item)).
Proof.
  intros Hsel Hx. split.
  - intros Hclip. rewrite (on_paste_unfold w parent_item rest x Hsel Hx).
    rewrite Hclip. simpl map_m.
    eexists. split; [reflexivity|]. simpl. split; [|split].
    + rewrite <- app_assoc. reflexivity.
    + unfold count_event. rewrite <- app_assoc, List.filter_app, length_app.
      simpl. lia.
    + reflexivity.
  - intros Hclip.
    assert (Hlast : forall new_items w1,
       map_m (paste_one parent_item (w_data x)) (cutCopiedItems w)
             (set_trace (trace w ++ [MonitorSuspend]) w) = (Ret new_items, w1) ->
       exists last_item, last new_items = Some last_item).
    { intros new_items w1 Hloop. apply map_m_length in Hloop.
      destruct (last new_items) as [y|] eqn:Hl; [now exists y|].
      apply last_None in Hl. subst new_items.
      destruct (cutCopiedItems w); [contradiction | discriminate]. }
    split; [|exact Hlast].
    intros w' Hrun. rewrite (on_paste_unfold w parent_item rest x Hsel Hx) in Hrun.
    unfold bind at 1 in Hrun.
    destruct (map_m _ _ _) as [[new_items|y| |] w1] eqn:Hloop; try discriminate.
    + destruct (Hlast new_items w1 eq_refl) as [last_item Hl].
      revert Hrun. unfold paste_finish, last_of. rewrite Hl.
      apply no_raise_bind; [apply no_raise_sortItems|]. intros ?.
      apply no_raise_bind; [apply no_raise_ret|]. intros ?.
      apply no_raise_bind; [apply no_raise_setCurrentItem|]. intros ?.
      apply no_raise_bind; [apply no_raise_on_treeWidget_itemSelectionChanged|].
      intros ?.
      apply no_raise_bind; [apply no_raise_modify|]. intros ?.
      apply no_raise_bind;
        [apply no_raise_for_each; intros; apply no_raise_setItemSelected|].
      intros ?. unfold monitor_unsuspend, config_altered. no_raise_auto.
    + exact (no_raise_map_m _ _ (no_raise_paste_one parent_item (w_data x))
               _ _ _ Hloop).
Qed.

End Paste.

Lemma paste_empty_clipboard_raises_witness :
  fst (on_paste (Collab := Concrete.collaborators) (sample_world [4] []))
  = Raise IndexError /\
  fst (on_paste (Collab := Concrete.collaborators) (sample_world [4] [1]))
  <> Raise IndexError.
Proof.
  split.
  - destruct (paste_empty_clipboard_raises (Collab := Concrete.collaborators)
                (sample_world [4] []) 4 [] (mkWidget None [] "Home" 4)
                eq_refl eq_refl) as [Hempty _].
    destruct (Hempty eq_refl) as (w' & Hrun & _).
    rewrite Hrun. reflexivity.
  - destruct (paste_empty_clipboard_raises (Collab := Concrete.collaborators)
                (sample_world [4] [1]) 4 [] (mkWidget None [] "Home" 4)
                eq_refl eq_refl) as [_ Hfull].
    destruct Hfull as [Hno _]; [discriminate|].
    intros Hfst.
    destruct (on_paste (sample_world [4] [1])) as [o w'] eqn:Hrun.
    simpl in Hfst. subst o. exact (Hno w' eq_refl).
Defined.

(** ** Copy *)

Lemma lookup_snoc_new {A} (l : list A) (a : A) : (l ++ [a]) !! length l = Some a.
Proof. rewrite lookup_app_r by lia. now rewrite Nat.sub_diag. Qed.

Lemma insert_snoc_new {A} (l : list A) (a b : A) :
  <[length l := b]> (l ++ [a]) = l ++ [b].
Proof.
  rewrite insert_app_r_alt by lia. now rewrite Nat.sub_diag.
Qed.

Lemma world_eta w :
  mkWorld (heap w) (witems w) (cm_folders w) (topLevelItems w) (selectedItems w)
          (cutCopiedItems w) (dirty w) (stackIndex w) (pageItems w) (trace w) = w.
Proof. destruct w; reflexivity. Qed.

Lemma copy_run w new_obj source s e :
  heap w !! source = Some s ->
  heap w !! new_obj = Some e ->
  copy new_obj source w
  = (Ret tt,
     set_heap (<[new_obj := set_content (content s) (set_title (title s) e)]> (heap w)) w).
Proof.
  intros Hs He. unfold copy.
  rewrite (bind_run _ _ _ _ _ (deref_run _ _ _ Hs)).
  exact (update_entity_run w new_obj e _ He).
Qed.

Lemma on_copy_loop sources :
  forall w,
    (forall s, In s sources -> s < length (heap w)) ->
    for_each sources (fun source =>
      s <- deref source ;;
      new_obj <- (if is_phrase s then Phrase_new EmptyString EmptyString
                  else Script_new EmptyString EmptyString) ;;
      copy new_obj source ;;
      modify (fun w => set_cutCopiedItems (cutCopiedItems w ++ [new_obj]) w)) w
    = (Ret tt,
       set_cutCopiedItems
         (cutCopiedItems w ++ seq (length (heap w)) (length sources))
         (set_heap (heap w ++ map (duplicate (heap w)) sources) w)).
Proof.
  induction sources as [|src sources IH]; intros w Hvalid.
  - simpl. unfold ret, set_cutCopiedItems, set_heap. simpl.
    rewrite !app_nil_r. now rewrite world_eta.
  - assert (Hsrc : src < length (heap w)) by (apply Hvalid; now left).
    destruct (lookup_lt_is_Some_2 _ _ Hsrc) as [s Hs].
    cbn [for_each].
    set (d := mkEntity (if is_phrase s then KPhrase else KScript) (title s)
                       (content s) None None [] [] []).
    set (w1 := set_cutCopiedItems (cutCopiedItems w ++ [length (heap w)])
                 (set_heap (heap w ++ [d]) w)).
    assert (Hstep :
      (s <- deref src ;;
       new_obj <- (if is_phrase s then Phrase_new EmptyString EmptyString
                   else Script_new EmptyString EmptyString) ;;
       copy new_obj src ;;
       modify (fun w => set_cutCopiedItems (cutCopiedItems w ++ [new_obj]) w)) w
      = (Ret tt, w1)).
    { rewrite (bind_run _ _ _ _ _ (deref_run _ _ _ Hs)).
      set (e0 := mkEntity (if is_phrase s then KPhrase else KScript)
                          EmptyString EmptyString None None [] [] []).
      rewrite (bind_run _ _ w (length (heap w)) (set_heap (heap w ++ [e0]) w))
        by (unfold e0; destruct (is_phrase s); reflexivity).
      rewrite (bind_run _ _ _ tt (set_heap (heap w ++ [d]) w)).
      - reflexivity.
      - rewrite (copy_run _ _ _ s e0)
          by (simpl; first [apply lookup_snoc_new
                           | rewrite lookup_app_l by exact Hsrc; exact Hs]).
        simpl. rewrite insert_snoc_new. reflexivity. }
    rewrite (bind_run _ _ _ _ _ Hstep).
    rewrite IH.
    + f_equal. unfold w1, set_cutCopiedItems, set_heap. simpl.
      rewrite length_app. simpl length.
      rewrite <- !app_assoc. simpl.
      replace (length (heap w) + 1) with (S (length (heap w))) by lia.
      f_equal.
      f_equal. f_equal.
      * unfold duplicate. rewrite Hs. reflexivity.
      * apply map_ext_in. intros a Ha. unfold duplicate.
        rewrite lookup_app_l by (apply Hvalid; now right). reflexivity.
    + intros a Ha. unfold w1. simpl. rewrite length_app. simpl.
      specialize (Hvalid a (or_intror Ha)). lia.
Qed.

Lemma top_level_incl h l f : In f (top_level h l) -> In f l.
Proof. unfold top_level. rewrite filter_In. tauto. Qed.

Lemma selected_data_valid w f :
  selection_ok w = true -> In f (selected_data w) -> f < length (heap w).
Proof.
  intros Hok Hf. unfold selected_data in Hf.
  apply in_map_iff in Hf as [i [Hi Hin]].
  destruct (selection_ok_spec w i Hok Hin) as (x & e & Hx & He).
  unfold data_of in Hi. rewrite Hx in Hi. subst f.
  exact (lookup_lt_Some _ _ _ He).
Qed.

(** C9: Copy appends one new object per selected top-level object; each
    is a new phrase when the source is a phrase and a new script
    otherwise (a folder included), never a folder and never an object
    that existed before. *)
Theorem copy_appends_fresh_leaves (w : World) :
  selection_ok w = true ->
  exists w',
    on_copy w = (Ret tt, w') /\
    heap w' = heap w ++ map (duplicate (heap w)) (top_level (heap w) (selected_data w)) /\
    cutCopiedItems w' =
      cutCopiedItems w ++
      seq (length (heap w)) (length (top_level (heap w) (selected_data w))) /\
    (forall new_obj,
        In new_obj (seq (length (heap w))
                        (length (top_level (heap w) (selected_data w)))) ->
        heap w !! new_obj = None /\
        ~ In new_obj (selected_data w) /\
        exists d, heap w' !! new_obj = Some d /\
                  (kind d = KPhrase \/ kind d = KScript) /\
                  parent d = None) /\
    (forall k source s,
        top_level (heap w) (selected_data w) !! k = Some source ->
        heap w !! source = Some s ->
        exists d, heap w' !! (length (heap w) + k) = Some d /\
                  kind d = (if is_phrase s then KPhrase else KScript) /\
                  title d = title s /\ content d = content s).
Proof.
  intros Hok.
  set (sources := top_level (heap w) (selected_data w)).
  assert (Hvalid : forall s, In s sources -> s < length (heap w)).
  { intros s Hs. apply (selected_data_valid w s Hok).
    exact (top_level_incl _ _ _ Hs). }
  eexists. split.
  { unfold on_copy. rewrite (bind_run _ _ _ _ _ (__getSelection_run w Hok)).
    apply on_copy_loop. exact Hvalid. }
  simpl. split; [reflexivity|]. split; [reflexivity|]. split.
  - intros new_obj Hnew. apply in_seq in Hnew as [Hlo Hhi].
    split; [apply lookup_ge_None; lia|]. split.
    + intros Hin. apply (selected_data_valid w _ Hok) in Hin. lia.
    + destruct (lookup_lt_is_Some_2 sources (new_obj - length (heap w)))
        as [source Hsource]; [fold sources in Hhi; lia|].
      exists (duplicate (heap w) source). split.
      * rewrite lookup_app_r by lia.
        rewrite list_lookup_fmap. fold sources. rewrite Hsource. reflexivity.
      * unfold duplicate. destruct (heap w !! source) as [s|]; simpl.
        -- destruct (is_phrase s); auto.
        -- auto.
  - intros k source s Hk Hs. exists (duplicate (heap w) source). split.
    + rewrite lookup_app_r by lia.
      replace (length (heap w) + k - length (heap w)) with k by lia.
      rewrite list_lookup_fmap. fold sources in Hk |- *. rewrite Hk. reflexivity.
    + unfold duplicate. rewrite Hs. simpl. auto.
Qed.

Lemma copy_appends_fresh_leaves_witness :
  selection_ok (sample_world [1; 2] []) = true /\
  exists w',
    on_copy (sample_world [1; 2] []) = (Ret tt, w') /\
    cutCopiedItems w' = [5; 6] /\
    kind <$> heap w' !! 5 = Some KPhrase /\
    kind <$> heap w' !! 6 = Some KScript.
Proof.
  split; [reflexivity|].
  destruct (copy_appends_fresh_leaves (sample_world [1; 2] []) eq_refl)
    as (w' & Hrun & Hheap & Hclip & _).
  exists w'. split; [exact Hrun|]. split; [exact Hclip|].
  rewrite Hheap. split; reflexivity.
Defined.

(** ** Rename *)

Section Rename.
Context `{Collab : Collaborators}.

Lemma currentWidget_run w r :
  pageItems w !! stackIndex w = Some (Some r) -> currentWidget w = (Ret r, w).
Proof.
  intros H. unfold currentWidget.
  rewrite (bind_run _ _ w w w) by reflexivity. rewrite H. reflexivity.
Qed.

Lemma item_update_run w i x e :
  witems w !! i = Some x ->
  heap w !! w_data x = Some e ->
  item_update i w = (Ret tt, set_witems (<[i := set_w_text (title e) x]> (witems w)) w).
Proof.
  intros Hx He. unfold item_update.
  rewrite (bind_run _ _ _ _ _ (wderef_run _ _ _ Hx)).
  rewrite (bind_run _ _ _ _ _ (deref_run _ _ _ He)).
  exact (update_widget_run w i x _ Hx).
Qed.

Lemma itemChanged_unfold w item rest x :
  selectedItems w = item :: rest ->
  witems w !! item = Some x ->
  on_treeWidget_itemChanged item 0 w =
  (if validate (negb (EMPTY_FIELD_REGEX_match (w_text x))) then
     monitor_suspend ;;
     page_set_item_title (w_text x) ;;
     page_rebuild_item_path ;;
     persistGlobal <- page_save ;;
     monitor_unsuspend ;;
     config_altered persistGlobal ;;
     sortItems
   else item_update item) w.
Proof.
  intros Hsel Hx. unfold on_treeWidget_itemChanged, selected.
  rewrite (bind_run _ _ w (selectedItems w) w) by reflexivity.
  rewrite Hsel. simpl first_of.
  rewrite (bind_run _ _ w item w) by reflexivity.
  rewrite Nat.eqb_refl.
  change (true && (0 =? 0)) with true. cbv iota.
  rewrite (bind_run _ _ _ _ _ (wderef_run _ _ _ Hx)). reflexivity.
Qed.


End Rename.


(** ** Stepping through a handler *)

Lemma bind_modify {B} f (k : unit -> M B) w : bind (modify f) k w = k tt (f w).
Proof. reflexivity. Qed.

Lemma bind_emit_event {B} ev (k : unit -> M B) w :
  bind (emit_event ev) k w = k tt (set_trace (trace w ++ [ev]) w).
Proof. reflexivity. Qed.

Lemma bind_get {B} (k : World -> M B) w : bind get k w = k w w.
Proof. reflexivity. Qed.

Lemma bind_ret {A B} (a : A) (k : A -> M B) w : bind (ret a) k w = k a w.
Proof. reflexivity. Qed.

Lemma bind_assoc {A B C} (c : M A) (k1 : A -> M B) (k2 : B -> M C) w :
  bind (bind c k1) k2 w = bind c (fun a => bind (k1 a) k2) w.
Proof.
  unfold bind. destruct (c w) as [[a|x| |] w1]; reflexivity.
Qed.

Lemma bind_alloc_entity {B} e (k : ref -> M B) w :
  bind (alloc_entity e) k w = k (length (heap w)) (set_heap (heap w ++ [e]) w).
Proof. reflexivity. Qed.

Lemma bind_alloc_widget {B} x (k : wref -> M B) w :
  bind (alloc_widget x) k w = k (length (witems w)) (set_witems (witems w ++ [x]) w).
Proof. reflexivity. Qed.

Lemma bind_deref {B} r (k : Entity -> M B) w e :
  heap w !! r = Some e -> bind (deref r) k w = k e w.
Proof. intros H. apply bind_run, deref_run, H. Qed.

Lemma bind_wderef {B} i (k : WidgetItem -> M B) w x :
  witems w !! i = Some x -> bind (wderef i) k w = k x w.
Proof. intros H. apply bind_run, wderef_run, H. Qed.

Lemma bind_update_entity {B} r f (k : unit -> M B) w e :
  heap w !! r = Some e ->
  bind (update_entity r f) k w = k tt (set_heap (<[r := f e]> (heap w)) w).
Proof. intros H. apply bind_run, update_entity_run, H. Qed.

Lemma bind_update_widget {B} i f (k : unit -> M B) w x :
  witems w !! i = Some x ->
  bind (update_widget i f) k w = k tt (set_witems (<[i := f x]> (witems w)) w).
Proof. intros H. apply bind_run, update_widget_run, H. Qed.

Lemma bind_persist {B} r (k : unit -> M B) w e :
  heap w !! r = Some e ->
  bind (persist r) k w = k tt (set_trace (trace w ++ [Persist r (path e)]) w).
Proof.
  intros H. unfold persist. rewrite bind_assoc, (bind_deref _ _ _ _ H).
  reflexivity.
Qed.

Lemma bind_sortItems `{Collab : Collaborators} {B} (k : unit -> M B) w :
  bind sortItems k w = k tt (sorted_world (set_trace (trace w ++ [SortItems]) w)).
Proof. reflexivity. Qed.

Lemma bind_setCurrentItem {B} i (k : unit -> M B) w :
  bind (setCurrentItem i) k w =
  k tt (set_selectedItems (match i with Some x => [x] | None => [] end)
          (set_trace (trace w ++ [SetCurrentItem i]) w)).
Proof. reflexivity. Qed.

Lemma sorted_world_lookup `{Collab : Collaborators} w i :
  witems (sorted_world w) !! i =
  (fun x => set_w_children (sort_labels (witems w) (w_children x)) x)
    <$> witems w !! i.
Proof. unfold sorted_world. simpl. apply list_lookup_fmap. Qed.

Lemma on_rename_run w i rest :
  selectedItems w = i :: rest ->
  on_rename w = (Ret tt, set_trace (trace w ++ [EditItem i]) w).
Proof.
  intros H. unfold on_rename, selected. rewrite bind_assoc, bind_get, bind_ret.
  rewrite H. simpl first_of. rewrite bind_ret. reflexivity.
Qed.

Lemma selectionChanged_single w r e :
  selection_ok w = true ->
  top_level (heap w) (selected_data w) = [r] ->
  heap w !! r = Some e ->
  on_treeWidget_itemSelectionChanged w = (Ret tt, loaded_world r (kind e) w).
Proof.
  intros Hok Htop He. unfold on_treeWidget_itemSelectionChanged.
  rewrite (bind_run _ _ _ _ _ (__getSelection_run w Hok)). rewrite Htop.
  rewrite (bind_deref _ _ _ _ He).
  unfold loaded_world, page_load, set_dirty.
  destruct (kind e); simpl page_of;
    rewrite bind_assoc, bind_modify, bind_emit_event, bind_emit_event, bind_modify;
    unfold emit_event, modify; simpl; rewrite <- !app_assoc; reflexivity.
Qed.

Ltac wsimpl :=
  cbn [heap witems cm_folders topLevelItems selectedItems cutCopiedItems dirty
       stackIndex pageItems trace set_heap set_witems set_cm_folders
       set_topLevelItems set_selectedItems set_cutCopiedItems set_dirty_field
       set_stackIndex set_pageItems set_trace].

Ltac mstep :=
  first [ rewrite bind_assoc | rewrite bind_ret | rewrite bind_modify
        | rewrite bind_emit_event | rewrite bind_get | rewrite bind_alloc_entity
        | rewrite bind_alloc_widget | rewrite bind_sortItems
        | rewrite bind_setCurrentItem ].

Ltac mnorm := repeat mstep.

Lemma count_event_app ev a b :
  count_event ev (a ++ b) = count_event ev a + count_event ev b.
Proof. unfold count_event. now rewrite List.filter_app, length_app. Qed.

Ltac count_events :=
  rewrite ?count_event_app; unfold count_event; simpl; lia.

(** ** The monitor bracket *)

Section Bracket.
Context `{Collab : Collaborators}.

Lemma __createFolder_None_run w :
  exists w',
    __createFolder None w = (Ret tt, w') /\
    trace w' = trace w ++
      [MonitorSuspend; Persist (length (heap w)) None; MonitorUnsuspend;
       SortItems; SetCurrentItem (Some (length (witems w)));
       PageLoad 0 (length (heap w)); UpdateActions [length (heap w)] true;
       CancelRecord; EditItem (length (witems w))] /\
    cm_folders w' = cm_folders w ++ [length (heap w)] /\
    heap w' = heap w ++
      [mkEntity KFolder "New Folder" EmptyString None None [] [] []].
Proof.
  unfold __createFolder, Folder_new, FolderWidgetItem, new_widget_item,
    monitor_suspend, monitor_unsuspend, addTopLevelItem.
  mnorm.
  erewrite bind_deref by (wsimpl; apply lookup_snoc_new).
  mnorm.
  erewrite bind_persist by (wsimpl; apply lookup_snoc_new).
  mnorm.
  erewrite bind_run; cycle 1.
  { eapply selectionChanged_single.
    - unfold selection_ok. wsimpl. cbn [forallb].
      rewrite sorted_world_lookup. wsimpl. rewrite lookup_snoc_new. simpl.
      unfold sorted_world. wsimpl. rewrite lookup_snoc_new. reflexivity.
    - unfold top_level, selected_data, data_of. wsimpl. cbn [map].
      rewrite sorted_world_lookup. wsimpl. rewrite lookup_snoc_new. simpl.
      unfold parent_of, sorted_world. wsimpl. rewrite lookup_snoc_new.
      reflexivity.
    - unfold sorted_world. wsimpl. apply lookup_snoc_new. }
  erewrite on_rename_run by reflexivity.
  eexists. split; [reflexivity|].
  unfold loaded_world, sorted_world. wsimpl.
  split; [|split; reflexivity].
  rewrite <- !app_assoc. reflexivity.
Qed.

(** C1, at the path the claim singles out: creating a top-level folder
    in the default location suspends the monitor twice and resumes it
    once, while the two other answers of the dialog resume it as often
    as they suspend it. *)
Theorem new_topfolder_default_leaves_monitor_suspended (w : World) (chosen : string) :
  (exists w',
     on_new_topfolder Yes chosen w = (Ret tt, w') /\
     count_event MonitorSuspend (trace w') = count_event MonitorSuspend (trace w) + 2 /\
     count_event MonitorUnsuspend (trace w') = count_event MonitorUnsuspend (trace w) + 1) /\
  (exists w',
     on_new_topfolder No chosen w = (Ret tt, w') /\
     count_event MonitorSuspend (trace w') = count_event MonitorSuspend (trace w) + 1 /\
     count_event MonitorUnsuspend (trace w') = count_event MonitorUnsuspend (trace w) + 1) /\
  (exists w',
     on_new_topfolder Cancel chosen w = (Ret tt, w') /\
     count_event MonitorSuspend (trace w') = count_event MonitorSuspend (trace w) + 1 /\
     count_event MonitorUnsuspend (trace w') = count_event MonitorUnsuspend (trace w) + 1).
Proof.
  split; [|split].
  - unfold on_new_topfolder, monitor_suspend. rewrite bind_emit_event.
    destruct (__createFolder_None_run (set_trace (trace w ++ [MonitorSuspend]) w))
      as (w' & Hrun & Htrace & _).
    exists w'. split; [exact Hrun|]. rewrite Htrace. wsimpl.
    split; count_events.
  - unfold on_new_topfolder, monitor_suspend, monitor_unsuspend, config_altered.
    rewrite bind_emit_event.
    destruct (negb (chosen =? EmptyString)%string).
    + unfold Folder_new, FolderWidgetItem, new_widget_item, addTopLevelItem.
      mnorm.
      erewrite bind_deref by (wsimpl; apply lookup_snoc_new).
      mnorm.
      eexists. split; [reflexivity|]. wsimpl.
      split; count_events.
    + mnorm. eexists. split; [reflexivity|]. wsimpl.
      split; count_events.
  - unfold on_new_topfolder, monitor_suspend, monitor_unsuspend.
    rewrite bind_emit_event.
    eexists. split; [reflexivity|]. wsimpl.
    split; count_events.
Qed.

End Bracket.

(** ** Delete *)

(** C2, at a folder selected together with one of its children: Delete
    removes both nodes one after the other, so the child's hotkey is
    unregistered twice and the child is detached on its own, whereas Cut
    on the same selection drops the child first and removes the folder
    alone. *)
Theorem delete_removes_selected_child_on_its_own :
  let w := sample_world [0; 1] [] in
  let deleted := on_delete (Collab := Concrete.collaborators) 3 Yes w in
  let cut := on_cut (Collab := Concrete.collaborators) 3 w in
  top_level_filter [0; 1] w = (Ret [0], w) /\
  fst deleted = Ret tt /\
  trace (snd deleted) =
    [MonitorSuspend;
     HotkeyRemoved 2; HotkeyRemoved 1; RemoveData 0; SortItems;
     SetCurrentItem (Some 4);
     HotkeyRemoved 1; RemoveData 1; SortItems; SetCurrentItem (Some 2);
     MonitorUnsuspend; ConfigAltered false] /\
  items <$> heap (snd deleted) !! 0 = Some [] /\
  fst cut = Ret tt /\
  trace (snd cut) =
    [MonitorSuspend;
     HotkeyRemoved 2; HotkeyRemoved 1; RemoveData 0; SortItems;
     SetCurrentItem (Some 4);
     MonitorUnsuspend; ConfigAltered false] /\
  items <$> heap (snd cut) !! 0 = Some [1].
Proof. vm_compute. repeat split; reflexivity. Qed.

(** ** Hotkeys of a removed subtree *)

Lemma list_eqb_eq a : forall b, list_eqb a b = true -> a = b.
Proof.
  induction a as [|x a IH]; intros [|y b] H; simpl in H; try discriminate.
  - reflexivity.
  - apply andb_true_iff in H as [Hxy Hab].
    apply Nat.eqb_eq in Hxy. subst y. f_equal. exact (IH b Hab).
Qed.

Lemma set_trace_set_trace t1 t2 w :
  set_trace t2 (set_trace t1 w) = set_trace t2 w.
Proof. reflexivity. Qed.

Lemma shape_ok_folder h r subs leaves e :
  shape_ok h (Node r subs leaves) = true ->
  h !! r = Some e ->
  is_folder e = true ->
  folders e = map root subs /\ items e = leaves /\
  forallb (valid_ref h) leaves = true /\
  forallb (shape_ok h) subs = true.
Proof.
  intros Hok He Hf. simpl in Hok. rewrite He, Hf in Hok.
  apply andb_true_iff in Hok as [Hok Hsubs].
  apply andb_true_iff in Hok as [Hok _].
  apply andb_true_iff in Hok as [Hok Hleaves].
  apply andb_true_iff in Hok as [Hfs His].
  apply list_eqb_eq in Hfs. apply list_eqb_eq in His. auto.
Qed.

Lemma shape_ok_leaf h r subs leaves e :
  shape_ok h (Node r subs leaves) = true ->
  h !! r = Some e ->
  is_folder e = false ->
  subs = [] /\ leaves = [].
Proof.
  intros Hok He Hf. simpl in Hok. rewrite He, Hf in Hok.
  destruct subs; [|discriminate]. destruct leaves; [auto|discriminate].
Qed.

Lemma shape_ok_root h t : shape_ok h t = true -> exists e, h !! root t = Some e.
Proof.
  destruct t as [r subs leaves]. simpl.
  destruct (h !! r) as [e|]; [eauto | discriminate].
Qed.

Lemma height_sub s subs : In s subs -> height s <= list_max (map height subs).
Proof.
  intros Hin. induction subs as [|a subs IH]; [contradiction|].
  simpl. destruct Hin as [->|Hin]; [lia|]. specialize (IH Hin). lia.
Qed.

(** The leaves loop of [__deleteHotkeys]. *)
Lemma deleteHotkeys_leaves leaves :
  forall w,
    forallb (valid_ref (heap w)) leaves = true ->
    for_each leaves (fun item =>
      i <- deref item ;; when (has_hotkey i) (hotkey_removed item)) w
    = (Ret tt,
       set_trace (trace w ++ map HotkeyRemoved
                    (List.filter (hotkey_at (heap w)) leaves)) w).
Proof.
  induction leaves as [|l leaves IH]; intros w Hvalid.
  - simpl. rewrite app_nil_r. unfold ret, set_trace. now rewrite world_eta.
  - simpl in Hvalid. apply andb_true_iff in Hvalid as [Hl Hrest].
    unfold valid_ref in Hl. destruct (heap w !! l) as [e|] eqn:He; [|discriminate].
    cbn [for_each]. rewrite bind_assoc, (bind_deref _ _ _ _ He).
    cbn [List.filter]. unfold hotkey_at at 1. rewrite He.
    destruct (has_hotkey e); cbn [when].
    + unfold hotkey_removed. rewrite bind_emit_event.
      rewrite IH by exact Hrest. wsimpl.
      rewrite set_trace_set_trace. cbn [map]. rewrite <- app_assoc. reflexivity.
    + rewrite bind_ret. apply IH. exact Hrest.
Qed.

Lemma __deleteHotkeys_run fuel :
  forall t w,
    shape_ok (heap w) t = true ->
    height t <= fuel ->
    __deleteHotkeys fuel (root t) w
    = (Ret tt,
       set_trace (trace w ++ map HotkeyRemoved
                    (List.filter (hotkey_at (heap w)) (nodes t))) w).
Proof.
  induction fuel as [|fuel IH]; intros [r subs leaves] w Hok Hh.
  - simpl in Hh. lia.
  - destruct (shape_ok_root _ _ Hok) as [e He]. simpl in He.
    cbn [__deleteHotkeys root]. rewrite (bind_deref _ _ _ _ He).
    cbn [nodes List.filter]. unfold hotkey_at at 1. rewrite He.
    assert (Hsubs_loop : forall subs' w',
      heap w' = heap w ->
      (forall s, In s subs' -> shape_ok (heap w) s = true /\ height s <= fuel) ->
      for_each (map root subs') (__deleteHotkeys fuel) w'
      = (Ret tt,
         set_trace (trace w' ++ map HotkeyRemoved
                      (List.filter (hotkey_at (heap w)) (flat_map nodes subs'))) w')).
    { induction subs' as [|s subs' IHs]; intros w' Hheap Hall.
      - simpl. rewrite app_nil_r. unfold ret, set_trace. now rewrite world_eta.
      - cbn [map for_each].
        destruct (Hall s (or_introl eq_refl)) as [Hs Hhs].
        rewrite (bind_run _ _ _ _ _ (IH s w' ltac:(rewrite Hheap; exact Hs) Hhs)).
        rewrite IHs; [|exact Hheap|intros s' Hs'; apply Hall; now right].
        wsimpl. rewrite set_trace_set_trace. rewrite Hheap.
        cbn [flat_map]. rewrite List.filter_app, List.map_app, <- app_assoc.
        reflexivity. }
    destruct (is_folder e) eqn:Hf.
    + destruct (shape_ok_folder _ _ _ _ _ Hok He Hf) as (Hfs & His & Hleaves & Hsubs).
      rewrite Hfs, His.
      assert (Hall : forall s, In s subs ->
                shape_ok (heap w) s = true /\ height s <= fuel).
      { intros s Hs. split.
        - rewrite forallb_forall in Hsubs. exact (Hsubs s Hs).
        - pose proof (height_sub s subs Hs). simpl in Hh. lia. }
      rewrite List.filter_app.
      destruct (has_hotkey e); cbn [when].
      * unfold hotkey_removed. rewrite bind_emit_event.
        rewrite (bind_run _ _ _ _ _
                   (Hsubs_loop subs (set_trace (trace w ++ [HotkeyRemoved r]) w)
                               eq_refl Hall)).
        rewrite deleteHotkeys_leaves by exact Hleaves.
        wsimpl. rewrite !set_trace_set_trace. cbn [map].
        rewrite List.map_app, <- !app_assoc. reflexivity.
      * rewrite bind_ret.
        rewrite (bind_run _ _ _ _ _ (Hsubs_loop subs w eq_refl Hall)).
        rewrite deleteHotkeys_leaves by exact Hleaves.
        wsimpl. rewrite !set_trace_set_trace.
        rewrite List.map_app, <- !app_assoc. reflexivity.
    + destruct (shape_ok_leaf _ _ _ _ _ Hok He Hf) as [-> ->].
      cbn [flat_map app List.filter map].
      destruct (has_hotkey e); cbn [when].
      * unfold hotkey_removed. rewrite bind_emit_event. reflexivity.
      * rewrite bind_ret. rewrite app_nil_r. unfold ret, set_trace.
        now rewrite world_eta.
Qed.

(** ** Removing one node *)

Lemma same_data_refl ws : same_data ws ws.
Proof. intros i. reflexivity. Qed.

Lemma same_data_trans a b c : same_data a b -> same_data b c -> same_data a c.
Proof. intros Hab Hbc i. now rewrite Hbc, Hab. Qed.

Lemma same_data_insert ws i x f :
  ws !! i = Some x -> w_data (f x) = w_data x -> same_data ws (<[i := f x]> ws).
Proof.
  intros Hx Hf j. destruct (Nat.eq_dec i j) as [->|Hne].
  - rewrite list_lookup_insert_eq by exact (lookup_lt_Some _ _ _ Hx).
    rewrite Hx. simpl. now rewrite Hf.
  - now rewrite list_lookup_insert_ne.
Qed.

Lemma same_data_map ws (f : WidgetItem -> WidgetItem) :
  (forall x, w_data (f x) = w_data x) -> same_data ws (map f ws).
Proof.
  intros Hf j. rewrite list_lookup_fmap.
  destruct (ws !! j) as [x|]; simpl; [now rewrite Hf | reflexivity].
Qed.

Lemma same_data_lookup ws ws' i x :
  same_data ws ws' -> ws !! i = Some x ->
  exists x', ws' !! i = Some x' /\ w_data x' = w_data x.
Proof.
  intros Hs Hx. specialize (Hs i). rewrite Hx in Hs.
  destruct (ws' !! i) as [x'|]; [|discriminate].
  simpl in Hs. injection Hs as Hs. now exists x'.
Qed.

Lemma same_nodes_but_refl i ws : same_nodes_but i ws ws.
Proof. intros j. split; reflexivity. Qed.

Lemma same_nodes_but_trans i a b c :
  same_nodes_but i a b -> same_nodes_but i b c -> same_nodes_but i a c.
Proof.
  intros Hab Hbc j. destruct (Hab j) as [Hd1 Hp1], (Hbc j) as [Hd2 Hp2].
  split.
  - now rewrite Hd2, Hd1.
  - intros Hj. now rewrite (Hp2 Hj), (Hp1 Hj).
Qed.

Lemma same_nodes_but_insert i ws k x f :
  ws !! k = Some x ->
  w_data (f x) = w_data x ->
  (k <> i -> w_parent (f x) = w_parent x) ->
  same_nodes_but i ws (<[k := f x]> ws).
Proof.
  intros Hx Hd Hp j. destruct (Nat.eq_dec k j) as [->|Hne].
  - rewrite list_lookup_insert_eq by exact (lookup_lt_Some _ _ _ Hx).
    rewrite Hx. simpl. split; [now rewrite Hd|].
    intros Hj. now rewrite (Hp Hj).
  - rewrite list_lookup_insert_ne by exact Hne. split; reflexivity.
Qed.

Lemma same_nodes_but_map i ws (f : WidgetItem -> WidgetItem) :
  (forall x, w_data (f x) = w_data x /\ w_parent (f x) = w_parent x) ->
  same_nodes_but i ws (map f ws).
Proof.
  intros Hf j. rewrite list_lookup_fmap.
  destruct (ws !! j) as [x|]; simpl; [|split; reflexivity].
  destruct (Hf x) as [Hd Hp]. rewrite Hd, Hp. split; reflexivity.
Qed.

Lemma same_nodes_but_data i ws ws' : same_nodes_but i ws ws' -> same_data ws ws'.
Proof. intros H j. exact (proj1 (H j)). Qed.

Lemma same_nodes_but_parent i ws ws' j :
  same_nodes_but i ws ws' -> j <> i -> w_parent_of ws' j = w_parent_of ws j.
Proof.
  intros H Hj. destruct (H j) as [_ Hp]. specialize (Hp Hj).
  unfold w_parent_of.
  destruct (ws' !! j), (ws !! j); simpl in Hp; congruence.
Qed.

Section RemoveItem.
Context `{Collab : Collaborators}.

Lemma same_data_sorted w : same_data (witems w) (witems (sorted_world w)).
Proof. unfold sorted_world. wsimpl. apply same_data_map. reflexivity. Qed.

Lemma removeChild_run w p i xp :
  witems w !! p = Some xp ->
  (exists xi, witems w !! i = Some xi) ->
  exists ws,
    removeChild p i w = (Ret tt, set_witems ws w) /\
    same_nodes_but i (witems w) ws.
Proof.
  intros Hp [xi Hi]. unfold removeChild. rewrite (bind_wderef _ _ _ _ Hp).
  destruct (mem i (w_children xp)).
  - rewrite (bind_update_widget _ _ _ _ _ Hp).
    assert (Hi1 : exists xi', (<[p := set_w_children (remove_first i (w_children xp)) xp]>
                                 (witems w)) !! i = Some xi').
    { destruct (Nat.eq_dec p i) as [->|Hne].
      - rewrite list_lookup_insert_eq by exact (lookup_lt_Some _ _ _ Hp). eauto.
      - rewrite list_lookup_insert_ne by exact Hne. eauto. }
    destruct Hi1 as [xi' Hi1].
    rewrite (update_widget_run
               (set_witems (<[p := set_w_children (remove_first i (w_children xp)) xp]>
                              (witems w)) w) i xi' _ Hi1).
    wsimpl.
    eexists. split; [reflexivity|].
    eapply same_nodes_but_trans.
    + apply (same_nodes_but_insert i _ p xp
               (fun x => set_w_children (remove_first i (w_children xp)) x) Hp);
        reflexivity.
    + apply (same_nodes_but_insert i _ i xi' (set_w_parent None) Hi1);
        [reflexivity | congruence].
  - exists (witems w). split; [|apply same_nodes_but_refl].
    unfold ret, set_witems. now rewrite world_eta.
Qed.

(** [__removeItem] on a top-level node. *)
Lemma __removeItem_top fuel w widgetItem x t :
  witems w !! widgetItem = Some x ->
  w_parent x = None ->
  root t = w_data x ->
  shape_ok (heap w) t = true ->
  height t <= fuel ->
  mem (w_data x) (cm_folders w) = true ->
  exists w' c,
    __removeItem fuel widgetItem w = (Ret tt, w') /\
    heap w' = heap w /\
    cm_folders w' = remove_first (w_data x) (cm_folders w) /\
    cutCopiedItems w' = cutCopiedItems w /\
    trace w' = trace w ++
      map HotkeyRemoved (List.filter (hotkey_at (heap w)) (nodes t)) ++
      [RemoveData (w_data x); SortItems; SetCurrentItem c] /\
    same_nodes_but widgetItem (witems w) (witems w').
Proof.
  intros Hx Hpar Hroot Hok Hh Hmem.
  unfold __removeItem. rewrite (bind_wderef _ _ _ _ Hx). rewrite Hpar.
  cbn [__extractData]. rewrite bind_assoc, (bind_wderef _ _ _ _ Hx), bind_ret.
  rewrite <- Hroot.
  rewrite (bind_run _ _ _ _ _ (__deleteHotkeys_run fuel t w Hok Hh)).
  unfold indexOfTopLevelItem, takeTopLevelItem, remove_data, topLevelItemCount,
    topLevelItem.
  mnorm. wsimpl. rewrite Hroot, Hmem. mnorm.
  eexists. eexists. split; [reflexivity|].
  unfold sorted_world. wsimpl.
  split; [reflexivity|]. split; [reflexivity|]. split; [reflexivity|].
  split; [rewrite <- !app_assoc; reflexivity|].
  apply same_nodes_but_map. intros y. split; reflexivity.
Qed.

Lemma remove_from_parent_run w item e ip pe :
  heap w !! ip = Some pe ->
  listed e item pe = true ->
  (if is_folder e then remove_folder ip item else remove_item ip item) w
  = (Ret tt, set_heap (<[ip := detach e item pe]> (heap w)) w).
Proof.
  intros Hpe Hl. unfold listed, detach in *.
  destruct (is_folder e).
  - unfold remove_folder. rewrite (bind_deref _ _ _ _ Hpe), Hl.
    exact (update_entity_run w ip pe _ Hpe).
  - unfold remove_item. rewrite (bind_deref _ _ _ _ Hpe), Hl.
    exact (update_entity_run w ip pe _ Hpe).
Qed.

(** [__removeItem] on a node below another node. *)
Lemma __removeItem_child fuel w widgetItem x p xp t e ip pe :
  witems w !! widgetItem = Some x ->
  w_parent x = Some p ->
  witems w !! p = Some xp ->
  root t = w_data x ->
  shape_ok (heap w) t = true ->
  height t <= fuel ->
  heap w !! w_data x = Some e ->
  parent e = Some ip ->
  heap w !! ip = Some pe ->
  listed e (w_data x) pe = true ->
  exists w' c,
    __removeItem fuel widgetItem w = (Ret tt, w') /\
    heap w' = <[ip := detach e (w_data x) pe]> (heap w) /\
    cm_folders w' = cm_folders w /\
    cutCopiedItems w' = cutCopiedItems w /\
    trace w' = trace w ++
      map HotkeyRemoved (List.filter (hotkey_at (heap w)) (nodes t)) ++
      [RemoveData (w_data x); SortItems; SetCurrentItem c] /\
    same_nodes_but widgetItem (witems w) (witems w').
Proof.
  intros Hx Hpar Hp Hroot Hok Hh He Hip Hpe Hl.
  unfold __removeItem. rewrite (bind_wderef _ _ _ _ Hx). rewrite Hpar.
  cbn [__extractData]. rewrite bind_assoc, (bind_wderef _ _ _ _ Hx), bind_ret.
  rewrite <- Hroot.
  rewrite (bind_run _ _ _ _ _ (__deleteHotkeys_run fuel t w Hok Hh)).
  rewrite Hroot.
  set (w1 := set_trace _ w).
  unfold indexOfChild. rewrite !bind_assoc.
  rewrite (bind_wderef _ _ w1 xp Hp). rewrite bind_ret, bind_assoc.
  destruct (removeChild_run w1 p widgetItem xp Hp (ex_intro _ x Hx))
    as (ws & Hrc & Hsame).
  rewrite (bind_run _ _ _ _ _ Hrc).
  rewrite bind_assoc.
  rewrite (bind_deref _ _ (set_witems ws w1) e He).
  rewrite Hip. rewrite bind_assoc.
  rewrite (bind_run _ _ _ _ _
             (remove_from_parent_run (set_witems ws w1) (w_data x) e ip pe Hpe Hl)).
  unfold remove_data. mnorm.
  destruct (same_data_lookup _ _ _ _ (same_nodes_but_data _ _ _ Hsame) Hp)
    as (xp' & Hp' & _).
  set (w2 := sorted_world _).
  assert (Hp2 : witems w2 !! p =
                Some (set_w_children (sort_labels ws (w_children xp')) xp')).
  { unfold w2. rewrite sorted_world_lookup. wsimpl. rewrite Hp'. reflexivity. }
  unfold childCount. rewrite bind_assoc, (bind_wderef _ _ w2 _ Hp2), bind_ret.
  assert (Hw2 :
    heap w2 = <[ip := detach e (w_data x) pe]> (heap w) /\
    cm_folders w2 = cm_folders w /\
    cutCopiedItems w2 = cutCopiedItems w /\
    trace w2 = trace w ++
      map HotkeyRemoved (List.filter (hotkey_at (heap w)) (nodes t)) ++
      [RemoveData (w_data x); SortItems] /\
    same_nodes_but widgetItem (witems w) (witems w2)).
  { unfold w2, sorted_world, w1. wsimpl.
    split; [reflexivity|]. split; [reflexivity|]. split; [reflexivity|].
    split; [rewrite <- !app_assoc; reflexivity|].
    eapply same_nodes_but_trans; [exact Hsame|].
    apply same_nodes_but_map. intros y. split; reflexivity. }
  clearbody w2. destruct Hw2 as (Hheap & Hcm & Hclip & Htrace & Hdata).
  match goal with
  | |- context [if ?b then _ else _] => destruct b
  end.
  - unfold child. rewrite bind_assoc, (bind_wderef _ _ w2 _ Hp2), bind_ret.
    eexists. eexists. split; [reflexivity|]. wsimpl.
    rewrite Htrace, <- !app_assoc.
    split; [exact Hheap|]. split; [exact Hcm|]. split; [exact Hclip|].
    split; [reflexivity | exact Hdata].
  - eexists. eexists. split; [reflexivity|]. wsimpl.
    rewrite Htrace, <- !app_assoc.
    split; [exact Hheap|]. split; [exact Hcm|]. split; [exact Hclip|].
    split; [reflexivity | exact Hdata].
Qed.

Lemma __removeItem_run fuel w widgetItem x t :
  witems w !! widgetItem = Some x ->
  root t = w_data x ->
  shape_ok (heap w) t = true ->
  height t <= fuel ->
  removable w widgetItem = true ->
  exists w' c,
    __removeItem fuel widgetItem w = (Ret tt, w') /\
    heap w' = heap_without w widgetItem /\
    cm_folders w' = roots_without w widgetItem /\
    cutCopiedItems w' = cutCopiedItems w /\
    trace w' = trace w ++
      map HotkeyRemoved (List.filter (hotkey_at (heap w)) (nodes t)) ++
      [RemoveData (w_data x); SortItems; SetCurrentItem c] /\
    same_nodes_but widgetItem (witems w) (witems w').
Proof.
  intros Hx Hroot Hok Hh Hrem.
  unfold removable, heap_without, roots_without in *. rewrite Hx in *.
  destruct (w_parent x) as [p|] eqn:Hpar.
  - destruct (witems w !! p) as [xp|] eqn:Hp; [|discriminate].
    destruct (heap w !! w_data x) as [e|] eqn:He; [|discriminate].
    destruct (parent e) as [ip|] eqn:Hip; [|discriminate].
    destruct (heap w !! ip) as [pe|] eqn:Hpe; [|discriminate].
    exact (__removeItem_child fuel w widgetItem x p xp t e ip pe
             Hx Hpar Hp Hroot Hok Hh He Hip Hpe Hrem).
  - exact (__removeItem_top fuel w widgetItem x t Hx Hpar Hroot Hok Hh Hrem).
Qed.

End RemoveItem.

(** ** Delete of a folder *)

Lemma count_hotkey_events h r l :
  count_event (HotkeyRemoved r) (map HotkeyRemoved (List.filter (hotkey_at h) l))
  = if hotkey_at h r then occurrences r l else 0.
Proof.
  unfold count_event, occurrences. induction l as [|a l IH]; simpl.
  - now destruct (hotkey_at h r).
  - destruct (hotkey_at h a) eqn:Ha; simpl.
    + destruct (Nat.eqb_spec r a) as [->|Hne]; simpl.
      * rewrite IH, Ha. reflexivity.
      * exact IH.
    + destruct (Nat.eqb_spec r a) as [->|Hne]; simpl.
      * rewrite IH, Ha. reflexivity.
      * exact IH.
Qed.

Lemma occurrences_NoDup r l : NoDup l -> In r l -> occurrences r l = 1.
Proof.
  unfold occurrences. intros Hnd. induction Hnd as [|a l Hnotin Hnd IH]; intros Hin.
  - contradiction.
  - simpl. destruct (Nat.eqb_spec r a) as [->|Hne]; simpl.
    + assert (Hnone : List.filter (Nat.eqb a) l = []).
      { clear -Hnotin. induction l as [|b l IHl]; simpl; [reflexivity|].
        destruct (Nat.eqb_spec a b) as [->|Hne].
        - exfalso. apply Hnotin. now left.
        - apply IHl. intros Hin. apply Hnotin. now right. }
      now rewrite Hnone.
    + apply IH. destruct Hin as [->|Hin]; [contradiction | exact Hin].
Qed.

Lemma occurrences_not_In r l : ~ In r l -> occurrences r l = 0.
Proof.
  unfold occurrences. induction l as [|a l IH]; intros Hnotin; simpl.
  - reflexivity.
  - destruct (Nat.eqb_spec r a) as [->|Hne].
    + exfalso. apply Hnotin. now left.
    + apply IH. intros Hin. apply Hnotin. now right.
Qed.

Lemma parent_detach e child pe : parent (detach e child pe) = parent pe.
Proof. unfold detach. now destruct (is_folder e). Qed.

Lemma heap_without_parent w i d :
  parent_of (heap_without w i) d = parent_of (heap w) d.
Proof.
  unfold heap_without.
  destruct (witems w !! i) as [x|]; [|reflexivity].
  destruct (w_parent x); [|reflexivity].
  destruct (heap w !! w_data x) as [e|]; [|reflexivity].
  destruct (parent e) as [ip|]; [|reflexivity].
  destruct (heap w !! ip) as [pe|] eqn:Hpe; [|reflexivity].
  unfold parent_of. destruct (Nat.eq_dec ip d) as [->|Hne].
  - rewrite list_lookup_insert_eq by exact (lookup_lt_Some _ _ _ Hpe).
    rewrite Hpe. apply parent_detach.
  - now rewrite list_lookup_insert_ne.
Qed.

Lemma heap_without_other w i x d :
  witems w !! i = Some x ->
  parent_of (heap w) (w_data x) <> Some d ->
  heap_without w i !! d = heap w !! d.
Proof.
  intros Hx Hd. unfold heap_without. rewrite Hx.
  destruct (w_parent x); [|reflexivity].
  unfold parent_of in Hd.
  destruct (heap w !! w_data x) as [e|]; [|reflexivity].
  destruct (parent e) as [ip|]; [|reflexivity].
  destruct (heap w !! ip) as [pe|]; [|reflexivity].
  apply list_lookup_insert_ne. congruence.
Qed.

Section DeleteFolder.
Context `{Collab : Collaborators}.

(** C6, as the code has it: deleting a folder calls [hotkey_removed]
    for the folder and for each of its descendants at any depth, once
    per occurrence in the tree, when and only when the object has HOTKEY
    among its modes; objects without it cause no call.  The folder itself
    leaves the root folder list or its parent's folder list, and every
    object, the descendants included, keeps its parent reference and its
    place in its parent's lists. *)
Theorem delete_folder_unregisters_hotkeys (fuel : nat) (w : World)
    (widgetItem : wref) (x : WidgetItem) (t : Shape) :
  selectedItems w = [widgetItem] ->
  witems w !! widgetItem = Some x ->
  root t = w_data x ->
  shape_ok (heap w) t = true ->
  height t <= fuel ->
  removable w widgetItem = true ->
  exists w' c,
    on_delete fuel Yes w = (Ret tt, w') /\
    trace w' = trace w ++ [MonitorSuspend] ++
      map HotkeyRemoved (List.filter (hotkey_at (heap w)) (nodes t)) ++
      [RemoveData (w_data x); SortItems; SetCurrentItem c;
       MonitorUnsuspend; ConfigAltered false] /\
    (forall r,
        count_event (HotkeyRemoved r) (trace w') =
        count_event (HotkeyRemoved r) (trace w) +
        (if hotkey_at (heap w) r then occurrences r (nodes t) else 0)) /\
    (NoDup (nodes t) ->
     forall r, In r (nodes t) -> hotkey_at (heap w) r = true ->
               count_event (HotkeyRemoved r) (trace w') =
               count_event (HotkeyRemoved r) (trace w) + 1) /\
    heap w' = heap_without w widgetItem /\
    cm_folders w' = roots_without w widgetItem /\
    (forall d, parent_of (heap w') d = parent_of (heap w) d) /\
    (forall d, parent_of (heap w) (w_data x) <> Some d ->
               heap w' !! d = heap w !! d).
Proof.
  intros Hsel Hx Hroot Hok Hh Hrem.
  destruct (shape_ok_root _ _ Hok) as [e He]. rewrite Hroot in He.
  set (w1 := set_trace (trace w ++ [MonitorSuspend]) w).
  destruct (__removeItem_run fuel w1 widgetItem x t Hx Hroot Hok Hh Hrem)
    as (w2 & c & Hrun & Hheap & Hcm & _ & Htrace & _).
  exists (set_trace (trace w2 ++ [MonitorUnsuspend; ConfigAltered false]) w2), c.
  assert (Htr : trace w2 ++ [MonitorUnsuspend; ConfigAltered false] =
    trace w ++ [MonitorSuspend] ++
      map HotkeyRemoved (List.filter (hotkey_at (heap w)) (nodes t)) ++
      [RemoveData (w_data x); SortItems; SetCurrentItem c;
       MonitorUnsuspend; ConfigAltered false]).
  { rewrite Htrace. unfold w1. wsimpl. rewrite <- !app_assoc. reflexivity. }
  assert (Hcount : forall r,
        count_event (HotkeyRemoved r)
                    (trace w2 ++ [MonitorUnsuspend; ConfigAltered false]) =
        count_event (HotkeyRemoved r) (trace w) +
        (if hotkey_at (heap w) r then occurrences r (nodes t) else 0)).
  { intros r. rewrite Htr, !count_event_app, count_hotkey_events.
    change (count_event (HotkeyRemoved r) [MonitorSuspend]) with 0.
    change (count_event (HotkeyRemoved r)
              [RemoveData (w_data x); SortItems; SetCurrentItem c;
               MonitorUnsuspend; ConfigAltered false]) with 0.
    lia. }
  split; [|split; [|split; [|split; [|split; [|split; [|split]]]]]].
  - unfold on_delete, selected, monitor_suspend, monitor_unsuspend, config_altered.
    rewrite bind_assoc, bind_get, bind_ret. rewrite Hsel.
    rewrite bind_emit_event. fold w1.
    cbn [__extractData for_each].
    rewrite !bind_assoc. rewrite (bind_wderef _ _ w1 x Hx). rewrite bind_ret.
    rewrite bind_assoc. rewrite (bind_deref _ _ w1 e He). rewrite bind_ret.
    rewrite bind_assoc. rewrite (bind_run _ _ _ _ _ Hrun).
    rewrite bind_ret, bind_emit_event.
    unfold emit_event, modify. wsimpl. rewrite <- app_assoc. reflexivity.
  - wsimpl. exact Htr.
  - wsimpl. exact Hcount.
  - intros Hnd r Hin Hhk. wsimpl. rewrite Hcount, Hhk.
    now rewrite (occurrences_NoDup r _ Hnd Hin).
  - wsimpl. exact Hheap.
  - wsimpl. exact Hcm.
  - intros d. wsimpl. rewrite Hheap. apply (heap_without_parent w1).
  - intros d Hd. wsimpl. rewrite Hheap.
    exact (heap_without_other w1 widgetItem x d Hx Hd).
Qed.

End DeleteFolder.

Lemma delete_folder_unregisters_hotkeys_witness :
  exists w' c,
    on_delete (Collab := Concrete.collaborators) 2 Yes (sample_world [0] [])
    = (Ret tt, w') /\
    trace w' =
      [MonitorSuspend; HotkeyRemoved 2; HotkeyRemoved 1; RemoveData 0;
       SortItems; SetCurrentItem c; MonitorUnsuspend; ConfigAltered false] /\
    cm_folders w' = [4].
Proof.
  destruct (delete_folder_unregisters_hotkeys (Collab := Concrete.collaborators)
              2 (sample_world [0] []) 0 (mkWidget None [1; 2] "Work" 0)
              (Node 0 [Node 2 [] [3]] [1])
              eq_refl eq_refl eq_refl eq_refl (le_n 2) eq_refl)
    as (w' & c & Hrun & Htrace & _ & _ & _ & Hcm & _).
  exists w', c. split; [exact Hrun|]. split; [exact Htrace | exact Hcm].
Defined.

(** The spec's example for C6: after Work is deleted, no [hotkey_removed]
    call was made and Work has left the root folder list, but Signature
    still names Work as its parent and Work still lists it. *)
Lemma delete_folder_keeps_children_attached :
  let deleted := on_delete (Collab := Concrete.collaborators) 1 Yes work_world in
  fst deleted = Ret tt /\
  trace (snd deleted) =
    [MonitorSuspend; RemoveData 0; SortItems; SetCurrentItem None;
     MonitorUnsuspend; ConfigAltered false] /\
  cm_folders (snd deleted) = [] /\
  attached (heap (snd deleted)) 1 = true /\
  parent_of (heap (snd deleted)) 1 = Some 0 /\
  items <$> heap (snd deleted) !! 0 = Some [1].
Proof. vm_compute. repeat split; reflexivity. Qed.

(** ** Trees under updates that keep their structure *)

Lemma forallb_ext_in {A} (f g : A -> bool) l :
  (forall x, In x l -> f x = g x) -> forallb f l = forallb g l.
Proof.
  induction l as [|a l IH]; intros H; simpl; [reflexivity|].
  rewrite (H a (or_introl eq_refl)), IH; [reflexivity|].
  intros x Hx. apply H. now right.
Qed.

Lemma agree_fields h h' r :
  tree_fields <$> h' !! r = tree_fields <$> h !! r ->
  valid_ref h' r = valid_ref h r /\ folder_at h' r = folder_at h r.
Proof.
  unfold valid_ref, folder_at, is_folder, tree_fields.
  destruct (h' !! r) as [e'|], (h !! r) as [e|]; simpl; intros H;
    try discriminate; [|auto].
  injection H as Hk _ _. rewrite Hk. auto.
Qed.

Lemma root_in_nodes t : In (root t) (nodes t).
Proof. destruct t. simpl. now left. Qed.

Lemma nodes_sub s r subs leaves x :
  In s subs -> In x (nodes s) -> In x (nodes (Node r subs leaves)).
Proof.
  intros Hs Hx. simpl. right. apply in_or_app. left.
  apply in_flat_map. now exists s.
Qed.

Lemma nodes_leaf r subs leaves x :
  In x leaves -> In x (nodes (Node r subs leaves)).
Proof. intros Hx. simpl. right. apply in_or_app. now right. Qed.

Lemma shape_ok_agree n :
  forall t, height t <= n ->
  forall h h', agree_on (nodes t) h h' -> shape_ok h' t = shape_ok h t.
Proof.
  induction n as [|n IH]; intros [r subs leaves] Hh h h' Hag.
  - simpl in Hh. lia.
  - cbn [shape_ok].
    pose proof (Hag r (root_in_nodes (Node r subs leaves))) as Hr.
    cbn [root] in Hr.
    destruct (h' !! r) as [e'|], (h !! r) as [e|]; simpl in Hr;
      try discriminate; [|reflexivity].
    unfold tree_fields in Hr. injection Hr as Hk Hfs His.
    unfold is_folder. rewrite Hk, Hfs, His.
    destruct (Kind_eqb (kind e) KFolder); [|reflexivity].
    f_equal; [f_equal; [f_equal|]|].
    + apply forallb_ext_in. intros x Hx.
      apply (agree_fields h h' x). apply Hag. now apply nodes_leaf.
    + apply forallb_ext_in. intros x Hx.
      apply in_map_iff in Hx as [s [<- Hs]].
      apply (agree_fields h h' (root s)). apply Hag.
      apply (nodes_sub s r subs leaves _ Hs). apply root_in_nodes.
    + apply forallb_ext_in. intros s Hs. apply IH.
      * pose proof (height_sub s subs Hs). simpl in Hh. lia.
      * intros x Hx. apply Hag. exact (nodes_sub s r subs leaves x Hs Hx).
Qed.

Lemma shape_ok_agree_true t h h' :
  agree_on (nodes t) h h' -> shape_ok h t = true -> shape_ok h' t = true.
Proof.
  intros Hag Hok. now rewrite (shape_ok_agree (height t) t (le_n _) h h' Hag).
Qed.

Lemma clear_path_lookup h r i :
  clear_path h r !! i =
  if Nat.eqb r i then set_path None <$> h !! i else h !! i.
Proof.
  unfold clear_path. destruct (Nat.eqb_spec r i) as [->|Hne].
  - destruct (h !! i) as [e|] eqn:He; [|now rewrite He].
    now rewrite list_lookup_insert_eq by exact (lookup_lt_Some _ _ _ He).
  - destruct (h !! r) as [e|]; [|reflexivity].
    now rewrite list_lookup_insert_ne.
Qed.

Lemma clear_path_fields h r i :
  tree_fields <$> clear_path h r !! i = tree_fields <$> h !! i.
Proof.
  rewrite clear_path_lookup. destruct (Nat.eqb r i); [|reflexivity].
  now destruct (h !! i).
Qed.

Lemma clear_paths_fields l : forall h i,
  tree_fields <$> clear_paths l h !! i = tree_fields <$> h !! i.
Proof.
  induction l as [|r l IH]; intros h i; simpl; [reflexivity|].
  unfold clear_paths in IH. now rewrite IH, clear_path_fields.
Qed.

Lemma clear_paths_app a b h :
  clear_paths (a ++ b) h = clear_paths b (clear_paths a h).
Proof. unfold clear_paths. apply fold_left_app. Qed.

Lemma clear_path_parent h r i : parent_of (clear_path h r) i = parent_of h i.
Proof.
  unfold parent_of. rewrite clear_path_lookup.
  destruct (Nat.eqb r i); [|reflexivity]. now destruct (h !! i).
Qed.

Lemma clear_paths_parent l : forall h i,
  parent_of (clear_paths l h) i = parent_of h i.
Proof.
  induction l as [|r l IH]; intros h i; simpl; [reflexivity|].
  unfold clear_paths in IH. now rewrite IH, clear_path_parent.
Qed.

Lemma clear_path_keeps_none h r i :
  path_of h i = None -> path_of (clear_path h r) i = None.
Proof.
  unfold path_of. rewrite clear_path_lookup.
  destruct (Nat.eqb r i); [|auto]. now destruct (h !! i).
Qed.

Lemma clear_path_cleared h r : path_of (clear_path h r) r = None.
Proof.
  unfold path_of. rewrite clear_path_lookup, Nat.eqb_refl.
  now destruct (h !! r).
Qed.

Lemma clear_paths_keeps_none l : forall h i,
  path_of h i = None -> path_of (clear_paths l h) i = None.
Proof.
  induction l as [|r l IH]; intros h i Hi; simpl; [exact Hi|].
  apply IH. now apply clear_path_keeps_none.
Qed.

Lemma clear_paths_cleared l : forall h r,
  In r l -> path_of (clear_paths l h) r = None.
Proof.
  induction l as [|a l IH]; intros h r Hin; [contradiction|].
  simpl. destruct Hin as [->|Hin].
  - apply clear_paths_keeps_none, clear_path_cleared.
  - now apply IH.
Qed.

Lemma clear_path_valid h r e :
  h !! r = Some e -> clear_path h r = <[r := set_path None e]> h.
Proof. intros H. unfold clear_path. now rewrite H. Qed.

(** ** Clearing the paths of a moved folder *)

Lemma clear_path_step w r e :
  heap w !! r = Some e ->
  (update_entity r (set_path None) ;; persist r) w
  = (Ret tt,
     set_trace (trace w ++ [Persist r None])
       (set_heap (clear_path (heap w) r) w)).
Proof.
  intros He. rewrite (bind_update_entity _ _ _ _ _ He).
  rewrite (clear_path_valid _ _ _ He).
  unfold persist.
  erewrite bind_deref
    by (wsimpl; apply list_lookup_insert_eq; exact (lookup_lt_Some _ _ _ He)).
  reflexivity.
Qed.

Lemma valid_ref_clear_paths l h i :
  valid_ref (clear_paths l h) i = valid_ref h i.
Proof. apply (agree_fields h (clear_paths l h) i), clear_paths_fields. Qed.

(** The leaves loop of [__moveRecurseUpdate]. *)
Lemma moveRecurseUpdate_leaves leaves :
  forall w,
    forallb (valid_ref (heap w)) leaves = true ->
    for_each leaves (fun child =>
      update_entity child (set_path None) ;; persist child) w
    = (Ret tt,
       set_trace (trace w ++ map (fun r => Persist r None) leaves)
         (set_heap (clear_paths leaves (heap w)) w)).
Proof.
  induction leaves as [|l leaves IH]; intros w Hvalid.
  - simpl. rewrite app_nil_r. unfold ret, set_trace, set_heap. simpl.
    now rewrite world_eta.
  - simpl in Hvalid. apply andb_true_iff in Hvalid as [Hl Hrest].
    unfold valid_ref in Hl. destruct (heap w !! l) as [e|] eqn:He; [|discriminate].
    cbn [for_each]. rewrite (bind_run _ _ _ _ _ (clear_path_step w l e He)).
    rewrite IH.
    + wsimpl. cbn [map]. rewrite <- app_assoc. reflexivity.
    + wsimpl. rewrite <- Hrest. apply forallb_ext_in. intros i _.
      apply (valid_ref_clear_paths [l]).
Qed.

Lemma __moveRecurseUpdate_run fuel :
  forall t w,
    shape_ok (heap w) t = true ->
    folder_at (heap w) (root t) = true ->
    height t <= fuel ->
    __moveRecurseUpdate fuel (root t) w
    = (Ret tt,
       set_trace (trace w ++ map (fun r => Persist r None) (nodes t))
         (set_heap (clear_paths (nodes t) (heap w)) w)).
Proof.
  induction fuel as [|fuel IH]; intros [r subs leaves] w Hok Hfolder Hh.
  - simpl in Hh. lia.
  - destruct (shape_ok_root _ _ Hok) as [e He]. cbn [root] in He, Hfolder.
    assert (Hf : is_folder e = true).
    { unfold folder_at in Hfolder. now rewrite He in Hfolder. }
    pose proof Hok as Hok0.
    simpl in Hok0. rewrite He, Hf in Hok0.
    apply andb_true_iff in Hok0 as [Hok0 Hsubs].
    apply andb_true_iff in Hok0 as [Hok0 Hsubf].
    apply andb_true_iff in Hok0 as [Hok0 Hleaves].
    apply andb_true_iff in Hok0 as [Hfs His].
    apply list_eqb_eq in Hfs. apply list_eqb_eq in His.
    cbn [__moveRecurseUpdate root].
    rewrite <- bind_assoc.
    rewrite (bind_run _ _ _ _ _ (clear_path_step w r e He)).
    set (w1 := set_trace _ _).
    assert (Hw1 : forall i,
              tree_fields <$> heap w1 !! i = tree_fields <$> heap w !! i).
    { intros i. unfold w1. wsimpl. apply clear_path_fields. }
    assert (He1 : exists e1, heap w1 !! r = Some e1 /\
                             folders e1 = map root subs).
    { specialize (Hw1 r). rewrite He in Hw1.
      destruct (heap w1 !! r) as [e1|]; [|discriminate].
      injection Hw1 as _ Hfs1 _. exists e1. split; [reflexivity | congruence]. }
    destruct He1 as (e1 & He1 & Hfs1).
    rewrite (bind_deref _ _ _ _ He1). rewrite Hfs1.
    assert (Hsubs_loop : forall subs' w',
      (forall i, tree_fields <$> heap w' !! i = tree_fields <$> heap w !! i) ->
      (forall s, In s subs' ->
                 shape_ok (heap w) s = true /\
                 folder_at (heap w) (root s) = true /\ height s <= fuel) ->
      for_each (map root subs') (__moveRecurseUpdate fuel) w'
      = (Ret tt,
         set_trace (trace w' ++ map (fun r => Persist r None) (flat_map nodes subs'))
           (set_heap (clear_paths (flat_map nodes subs') (heap w')) w'))).
    { induction subs' as [|s subs' IHs]; intros w' Hag Hall.
      - simpl. rewrite app_nil_r. unfold ret, set_trace, set_heap. simpl.
        now rewrite world_eta.
      - cbn [map for_each].
        destruct (Hall s (or_introl eq_refl)) as (Hs & Hsf & Hhs).
        assert (Hs' : shape_ok (heap w') s = true).
        { apply (shape_ok_agree_true s (heap w)); [|exact Hs].
          intros i _. apply Hag. }
        assert (Hsf' : folder_at (heap w') (root s) = true).
        { rewrite <- Hsf. apply (agree_fields (heap w) (heap w')), Hag. }
        rewrite (bind_run _ _ _ _ _ (IH s w' Hs' Hsf' Hhs)).
        rewrite IHs.
        + wsimpl. cbn [flat_map].
          rewrite clear_paths_app, List.map_app, <- app_assoc. reflexivity.
        + intros i. wsimpl. rewrite clear_paths_fields. apply Hag.
        + intros s' Hs''. apply Hall. now right. }
    assert (Hall : forall s, In s subs ->
               shape_ok (heap w) s = true /\
               folder_at (heap w) (root s) = true /\ height s <= fuel).
    { intros s Hs. split; [|split].
      - rewrite forallb_forall in Hsubs. exact (Hsubs s Hs).
      - rewrite forallb_forall in Hsubf. apply Hsubf.
        apply in_map_iff. now exists s.
      - pose proof (height_sub s subs Hs). simpl in Hh. lia. }
    rewrite (bind_run _ _ _ _ _ (Hsubs_loop subs w1 Hw1 Hall)).
    set (w2 := set_trace _ _).
    assert (Hw2 : forall i,
              tree_fields <$> heap w2 !! i = tree_fields <$> heap w !! i).
    { intros i. unfold w2. wsimpl. rewrite clear_paths_fields. apply Hw1. }
    assert (He2 : exists e2, heap w2 !! r = Some e2 /\ items e2 = leaves).
    { specialize (Hw2 r). rewrite He in Hw2.
      destruct (heap w2 !! r) as [e2|]; [|discriminate].
      injection Hw2 as _ _ His2. exists e2. split; [reflexivity | congruence]. }
    destruct He2 as (e2 & He2 & His2).
    rewrite (bind_deref _ _ _ _ He2). rewrite His2.
    rewrite moveRecurseUpdate_leaves.
    + unfold w2, w1. wsimpl. cbn [nodes map].
      change (clear_paths (r :: flat_map nodes subs ++ leaves) (heap w))
        with (clear_paths (flat_map nodes subs ++ leaves) (clear_path (heap w) r)).
      rewrite clear_paths_app, List.map_app, <- !app_assoc. reflexivity.
    + rewrite <- Hleaves. apply forallb_ext_in. intros i _.
      apply (agree_fields (heap w) (heap w2)), Hw2.
Qed.

(** ** Move *)

Lemma top_level_filter_run w l :
  forallb (valid_node (witems w)) l = true ->
  top_level_filter l w = (Ret (top_level_nodes (witems w) l), w).
Proof.
  intros Hvalid. unfold top_level_filter, top_level_nodes.
  apply filter_m_pure. intros f Hf.
  rewrite forallb_forall in Hvalid. specialize (Hvalid f Hf).
  unfold valid_node in Hvalid. unfold w_parent_of.
  destruct (witems w !! f) as [x|] eqn:Hx; [|discriminate].
  now rewrite (bind_wderef _ _ _ _ Hx).
Qed.

Lemma reparent_fields h target item r :
  r <> target ->
  tree_fields <$> reparent h target item !! r = tree_fields <$> h !! r.
Proof.
  intros Hne. unfold reparent.
  destruct (h !! item) as [e|] eqn:He; [|reflexivity].
  assert (Hitem : tree_fields <$> <[item := set_parent (Some target) e]> h !! r
                  = tree_fields <$> h !! r).
  { destruct (Nat.eq_dec item r) as [->|Hni].
    - rewrite list_lookup_insert_eq by exact (lookup_lt_Some _ _ _ He).
      now rewrite He.
    - now rewrite list_lookup_insert_ne. }
  cbv zeta.
  destruct (<[item := set_parent (Some target) e]> h !! target) as [te|];
    [|exact Hitem].
  rewrite list_lookup_insert_ne by congruence. exact Hitem.
Qed.

Lemma heap_without_fields w i x r :
  witems w !! i = Some x ->
  parent_of (heap w) (w_data x) <> Some r ->
  tree_fields <$> heap_without w i !! r = tree_fields <$> heap w !! r.
Proof. intros Hx Hr. now rewrite (heap_without_other w i x r Hx Hr). Qed.

Lemma heap_without_length w i : length (heap_without w i) = length (heap w).
Proof.
  unfold heap_without.
  destruct (witems w !! i) as [x|]; [|reflexivity].
  destruct (w_parent x); [|reflexivity].
  destruct (heap w !! w_data x) as [e|]; [|reflexivity].
  destruct (parent e) as [ip|]; [|reflexivity].
  destruct (heap w !! ip) as [pe|]; [|reflexivity].
  apply length_insert.
Qed.

Section Move.
Context `{Collab : Collaborators}.

Lemma add_to_target_run w target item e te (as_folder : bool) :
  heap w !! item = Some e ->
  is_folder e = as_folder ->
  item <> target ->
  heap w !! target = Some te ->
  (if as_folder then add_folder target item else add_item target item) w
  = (Ret tt, set_heap (reparent (heap w) target item) w).
Proof.
  intros He Hk Hne Hte.
  assert (Hte' : <[item := set_parent (Some target) e]> (heap w) !! target = Some te)
    by now rewrite list_lookup_insert_ne.
  unfold reparent. rewrite He. cbv zeta. rewrite Hte'. unfold enlist. rewrite Hk.
  destruct as_folder.
  - unfold add_folder. rewrite (bind_update_entity _ _ _ _ _ He).
    exact (update_entity_run
             (set_heap (<[item := set_parent (Some target) e]> (heap w)) w)
             target te _ Hte').
  - unfold add_item. rewrite (bind_update_entity _ _ _ _ _ He).
    exact (update_entity_run
             (set_heap (<[item := set_parent (Some target) e]> (heap w)) w)
             target te _ Hte').
Qed.

Lemma addChild_run w p i xp xi :
  witems w !! p = Some xp ->
  witems w !! i = Some xi ->
  exists ws,
    addChild p i w = (Ret tt, set_witems ws w) /\
    same_nodes_but i (witems w) ws /\
    w_parent_of ws i = Some p /\
    (exists xp', ws !! p = Some xp' /\ In i (w_children xp')).
Proof.
  intros Hp Hi. unfold addChild.
  rewrite (bind_update_widget _ _ _ _ _ Hp).
  set (xp1 := set_w_children (w_children xp ++ [i]) xp).
  set (ws1 := <[p := xp1]> (witems w)).
  assert (Hlen : p < length (witems w)) by exact (lookup_lt_Some _ _ _ Hp).
  assert (Hi1 : exists xi1, ws1 !! i = Some xi1 /\
                            w_children xi1 = w_children (if Nat.eqb p i then xp1 else xi) /\
                            w_data xi1 = w_data xi).
  { unfold ws1. destruct (Nat.eqb_spec p i) as [->|Hne].
    - rewrite list_lookup_insert_eq by exact Hlen. exists xp1.
      split; [reflexivity|]. split; [reflexivity|].
      unfold xp1. simpl. congruence.
    - rewrite list_lookup_insert_ne by exact Hne. eauto. }
  destruct Hi1 as (xi1 & Hi1 & Hch & Hdata).
  rewrite (update_widget_run (set_witems ws1 w) i xi1 _ Hi1). wsimpl.
  assert (Hlen1 : i < length ws1) by exact (lookup_lt_Some _ _ _ Hi1).
  eexists. split; [reflexivity|]. split; [|split].
  - eapply same_nodes_but_trans.
    + apply (same_nodes_but_insert i _ p xp (fun _ => xp1) Hp); reflexivity.
    + apply (same_nodes_but_insert i _ i xi1 (set_w_parent (Some p)) Hi1);
        [reflexivity | congruence].
  - unfold w_parent_of. now rewrite list_lookup_insert_eq by exact Hlen1.
  - destruct (Nat.eqb_spec p i) as [->|Hne].
    + exists (set_w_parent (Some i) xi1). split.
      * now rewrite list_lookup_insert_eq by exact Hlen1.
      * simpl. rewrite Hch. unfold xp1. simpl. apply in_or_app. right. now left.
    + exists xp1. split.
      * rewrite list_lookup_insert_ne by congruence. unfold ws1.
        now rewrite list_lookup_insert_eq by exact Hlen.
      * unfold xp1. simpl. apply in_or_app. right. now left.
Qed.

(** One turn of the loop of [move_items]: the node leaves its place, its
    object is entered under the target object, and the paths of the
    object and of everything below it are cleared and persisted. *)
Lemma move_one_run fuel w tgt target source xs xt t :
  witems w !! source = Some xs ->
  witems w !! target = Some xt ->
  valid_ref (heap w) tgt = true ->
  root t = w_data xs ->
  shape_ok (heap w) t = true ->
  height t <= fuel ->
  removable w source = true ->
  ~ In tgt (nodes t) ->
  (forall ip, parent_of (heap w) (w_data xs) = Some ip -> ~ In ip (nodes t)) ->
  exists w' c,
    move_one fuel tgt target source w = (Ret tt, w') /\
    heap w' = clear_paths (nodes t)
                (reparent (heap_without w source) tgt (w_data xs)) /\
    cm_folders w' = roots_without w source /\
    cutCopiedItems w' = cutCopiedItems w /\
    trace w' = trace w ++
      map HotkeyRemoved (List.filter (hotkey_at (heap w)) (nodes t)) ++
      [RemoveData (w_data xs); SortItems; SetCurrentItem c] ++
      map (fun r => Persist r None) (nodes t) /\
    same_nodes_but source (witems w) (witems w') /\
    w_parent_of (witems w') source = Some target /\
    (exists xt', witems w' !! target = Some xt' /\ In source (w_children xt')).
Proof.
  intros Hxs Hxt Htgt Hroot Hok Hh Hrem Hnt Hnip.
  set (item := w_data xs) in *.
  destruct (__removeItem_run fuel w source xs t Hxs Hroot Hok Hh Hrem)
    as (w2 & c & Hrun & Hheap & Hcm & Hclip & Htrace & Hdata).
  destruct (shape_ok_root _ _ Hok) as [e He]. rewrite Hroot in He.
  assert (Hitem_in : In item (nodes t)).
  { rewrite <- Hroot. apply root_in_nodes. }
  assert (Hself : parent_of (heap w) item <> Some item).
  { intros Hp. exact (Hnip item Hp Hitem_in). }
  assert (He2 : heap w2 !! item = Some e).
  { rewrite Hheap, (heap_without_other w source xs item Hxs Hself). exact He. }
  assert (Hne : item <> tgt) by (intros ->; contradiction).
  assert (Hte : exists te, heap w2 !! tgt = Some te).
  { apply lookup_lt_is_Some_2. rewrite Hheap, heap_without_length.
    unfold valid_ref in Htgt. destruct (heap w !! tgt) eqn:Ht; [|discriminate].
    exact (lookup_lt_Some _ _ _ Ht). }
  destruct Hte as [te Hte].
  destruct (same_data_lookup _ _ _ _ (same_nodes_but_data _ _ _ Hdata) Hxs)
    as (xs2 & Hxs2 & Hd2).
  destruct (same_data_lookup _ _ _ _ (same_nodes_but_data _ _ _ Hdata) Hxt)
    as (xt2 & Hxt2 & _).
  unfold move_one. rewrite (bind_run _ _ _ _ _ Hrun).
  cbn [__extractData]. rewrite bind_assoc, (bind_wderef _ _ _ _ Hxs2), bind_ret.
  rewrite Hd2. fold item.
  rewrite (bind_deref _ _ _ _ He2).
  set (h2 := reparent (heap w2) tgt item).
  assert (Hagree : agree_on (nodes t) (heap w) h2).
  { intros r Hr. unfold h2. rewrite reparent_fields by (intros ->; contradiction).
    rewrite Hheap. apply (heap_without_fields w source xs r Hxs).
    intros Hp. exact (Hnip r Hp Hr). }
  assert (Hmid : exists w3,
    (if is_folder e then
       add_folder tgt item ;; __moveRecurseUpdate fuel item
     else
       add_item tgt item ;; update_entity item (set_path None) ;; persist item) w2
    = (Ret tt, w3) /\
    heap w3 = clear_paths (nodes t) h2 /\
    trace w3 = trace w2 ++ map (fun r => Persist r None) (nodes t) /\
    witems w3 = witems w2 /\ cm_folders w3 = cm_folders w2 /\
    cutCopiedItems w3 = cutCopiedItems w2).
  { destruct (is_folder e) eqn:Hf.
    - rewrite (bind_run _ _ _ _ _
                 (add_to_target_run w2 tgt item e te true He2 Hf Hne Hte)).
      fold h2. rewrite <- Hroot.
      rewrite __moveRecurseUpdate_run.
      + eexists. split; [reflexivity|]. wsimpl. auto.
      + wsimpl. exact (shape_ok_agree_true t (heap w) h2 Hagree Hok).
      + wsimpl. rewrite Hroot. fold item.
        rewrite (proj2 (agree_fields (heap w) h2 item (Hagree item Hitem_in))).
        unfold folder_at. rewrite He. exact Hf.
      + exact Hh.
    - destruct t as [r subs leaves]. cbn [root] in Hroot. subst r.
      destruct (shape_ok_leaf _ _ _ _ _ Hok He Hf) as [-> ->].
      rewrite (bind_run _ _ _ _ _
                 (add_to_target_run w2 tgt item e te false He2 Hf Hne Hte)).
      fold h2.
      assert (Hi2 : exists e2, h2 !! item = Some e2).
      { specialize (Hagree item Hitem_in). fold item in He. rewrite He in Hagree.
        destruct (h2 !! item) as [e2|]; [eauto | discriminate]. }
      destruct Hi2 as [e2 Hi2].
      rewrite (clear_path_step (set_heap h2 w2) item e2 Hi2).
      eexists. split; [reflexivity|]. wsimpl. auto. }
  destruct Hmid as (w3 & Hmid & Hheap3 & Htrace3 & Hw3 & Hcm3 & Hclip3).
  rewrite (bind_run _ _ _ _ _ Hmid).
  assert (Hxt3 : witems w3 !! target = Some xt2) by now rewrite Hw3.
  assert (Hxs3 : witems w3 !! source = Some xs2) by now rewrite Hw3.
  destruct (addChild_run w3 target source xt2 xs2 Hxt3 Hxs3)
    as (ws & Hadd & Hsame & Hpar & Hchild).
  rewrite Hadd. exists (set_witems ws w3), c.
  split; [reflexivity|]. wsimpl.
  split; [rewrite Hheap3; unfold h2; now rewrite Hheap|].
  split; [now rewrite Hcm3, Hcm|].
  split; [now rewrite Hclip3, Hclip|].
  split; [rewrite Htrace3, Htrace, <- !app_assoc; reflexivity|].
  split; [|split; [exact Hpar | exact Hchild]].
  eapply same_nodes_but_trans; [exact Hdata|]. rewrite <- Hw3. exact Hsame.
Qed.

End Move.

(** ** Paste *)

(** C3, at a folder that was cut and is pasted into another folder: Sub
    (object 2, holding script Run, object 3) is cut out of Work and
    pasted into Home (object 4).  Paste enters Sub under Home, persists
    Sub alone and with the path it had under Work, clears the clipboard
    and selects the new node; no path is cleared and Run is not
    persisted.  Moving the same node to Home clears and persists both. *)
Theorem paste_keeps_paths_of_cut_folder :
  let cut := on_cut (Collab := Concrete.collaborators) 2 (sample_world [2] []) in
  let pasted := on_paste (Collab := Concrete.collaborators)
                         (set_selectedItems [4] (snd cut)) in
  let moved := move_items (Collab := Concrete.collaborators) 2 [2] 4
                          (sample_world [2] []) in
  fst cut = Ret tt /\
  cutCopiedItems (snd cut) = [2] /\
  fst pasted = Ret tt /\
  trace (snd pasted) = trace (snd cut) ++
    [MonitorSuspend; Persist 2 (Some "/cfg/Work/Sub"%string); SortItems;
     SetCurrentItem (Some 5); PageLoad 0 2; UpdateActions [2] true;
     CancelRecord; SetItemSelected 5 true; MonitorUnsuspend;
     ConfigAltered false] /\
  parent_of (heap (snd pasted)) 2 = Some 4 /\
  folders <$> heap (snd pasted) !! 4 = Some [2] /\
  items <$> heap (snd pasted) !! 2 = Some [3] /\
  path_of (heap (snd pasted)) 2 = Some "/cfg/Work/Sub"%string /\
  path_of (heap (snd pasted)) 3 = Some "/cfg/Work/Sub/Run.py"%string /\
  cutCopiedItems (snd pasted) = [] /\
  selectedItems (snd pasted) = [5] /\
  fst moved = Ret tt /\
  trace (snd moved) =
    [MonitorSuspend; HotkeyRemoved 2; RemoveData 2; SortItems;
     SetCurrentItem (Some 1); Persist 2 None; Persist 3 None;
     MonitorUnsuspend; SortItems; ConfigAltered true] /\
  path_of (heap (snd moved)) 2 = None /\
  path_of (heap (snd moved)) 3 = None.
Proof. vm_compute. repeat split; reflexivity. Qed.

(** ** The arena after one move *)

Lemma fields_projections h h' r :
  tree_fields <$> h' !! r = tree_fields <$> h !! r ->
  folders_of h' r = folders_of h r /\ items_of h' r = items_of h r /\
  folder_at h' r = folder_at h r /\ valid_ref h' r = valid_ref h r.
Proof.
  intros H. destruct (agree_fields h h' r H) as [Hv Hf].
  unfold folders_of, items_of.
  destruct (h' !! r) as [e'|], (h !! r) as [e|]; simpl in H; try discriminate.
  - injection H as _ Hfs His. auto.
  - auto.
Qed.

Lemma mem_remove_first_ne c x l :
  c <> x -> mem c (remove_first x l) = mem c l.
Proof.
  intros Hne. induction l as [|a l IH]; simpl; [reflexivity|].
  destruct (Nat.eqb_spec x a) as [->|Hxa].
  - destruct (Nat.eqb_spec c a) as [->|Hca]; [contradiction | reflexivity].
  - simpl. now rewrite IH.
Qed.

Lemma mem_app c a b : mem c (a ++ b) = mem c a || mem c b.
Proof. unfold mem. apply existsb_app. Qed.

Lemma occurrences_remove_first_le c x l :
  occurrences c (remove_first x l) <= occurrences c l.
Proof.
  unfold occurrences. induction l as [|a l IH]; simpl; [lia|].
  destruct (Nat.eqb x a).
  - destruct (Nat.eqb c a); simpl; lia.
  - simpl. destruct (Nat.eqb c a); simpl; lia.
Qed.

Lemma occurrences_remove_first_lt x l :
  mem x l = true -> occurrences x (remove_first x l) < occurrences x l.
Proof.
  unfold occurrences. induction l as [|a l IH]; simpl; [discriminate|].
  destruct (Nat.eqb_spec x a) as [->|Hne]; simpl.
  - intros _. lia.
  - intros Hm. destruct (Nat.eqb_spec x a); [contradiction|]. now apply IH.
Qed.

Lemma occurrences_snoc_ne c x l :
  c <> x -> occurrences c (l ++ [x]) = occurrences c l.
Proof.
  intros Hne. unfold occurrences. rewrite List.filter_app, length_app. simpl.
  destruct (Nat.eqb_spec c x); [contradiction | simpl; lia].
Qed.

(** *** [heap_without] *)

Lemma heap_without_path w i r : path_of (heap_without w i) r = path_of (heap w) r.
Proof.
  unfold heap_without.
  destruct (witems w !! i) as [x|]; [|reflexivity].
  destruct (w_parent x); [|reflexivity].
  destruct (heap w !! w_data x) as [e|]; [|reflexivity].
  destruct (parent e) as [ip|]; [|reflexivity].
  destruct (heap w !! ip) as [pe|] eqn:Hpe; [|reflexivity].
  unfold path_of. destruct (Nat.eq_dec ip r) as [->|Hne].
  - rewrite list_lookup_insert_eq by exact (lookup_lt_Some _ _ _ Hpe).
    rewrite Hpe. unfold detach. now destruct (is_folder e).
  - now rewrite list_lookup_insert_ne.
Qed.

Lemma heap_without_kind w i r :
  folder_at (heap_without w i) r = folder_at (heap w) r /\
  valid_ref (heap_without w i) r = valid_ref (heap w) r.
Proof.
  unfold heap_without.
  destruct (witems w !! i) as [x|]; [|auto].
  destruct (w_parent x); [|auto].
  destruct (heap w !! w_data x) as [e|]; [|auto].
  destruct (parent e) as [ip|]; [|auto].
  destruct (heap w !! ip) as [pe|] eqn:Hpe; [|auto].
  unfold folder_at, valid_ref. destruct (Nat.eq_dec ip r) as [->|Hne].
  - rewrite list_lookup_insert_eq by exact (lookup_lt_Some _ _ _ Hpe).
    rewrite Hpe. unfold detach, is_folder. now destruct (Kind_eqb (kind e) KFolder).
  - now rewrite list_lookup_insert_ne.
Qed.

(** The child lists of [p] after the removal: as before, or without the
    first occurrence of the removed object. *)
Lemma heap_without_lists w i x p :
  witems w !! i = Some x ->
  (folders_of (heap_without w i) p = folders_of (heap w) p \/
   folders_of (heap_without w i) p = remove_first (w_data x) (folders_of (heap w) p)) /\
  (items_of (heap_without w i) p = items_of (heap w) p \/
   items_of (heap_without w i) p = remove_first (w_data x) (items_of (heap w) p)).
Proof.
  intros Hx. unfold heap_without. rewrite Hx.
  destruct (w_parent x); [|auto].
  destruct (heap w !! w_data x) as [e|]; [|auto].
  destruct (parent e) as [ip|]; [|auto].
  destruct (heap w !! ip) as [pe|] eqn:Hpe; [|auto].
  unfold folders_of, items_of. destruct (Nat.eq_dec ip p) as [->|Hne].
  - rewrite list_lookup_insert_eq by exact (lookup_lt_Some _ _ _ Hpe).
    rewrite Hpe. unfold detach. destruct (is_folder e); simpl; auto.
  - rewrite list_lookup_insert_ne by exact Hne. auto.
Qed.

Lemma heap_without_child_count w i x p c :
  witems w !! i = Some x ->
  child_count (heap_without w i) p c <= child_count (heap w) p c.
Proof.
  intros Hx. unfold child_count.
  destruct (heap_without_lists w i x p Hx) as [[-> | ->] [-> | ->]];
    pose proof (occurrences_remove_first_le c (w_data x) (folders_of (heap w) p));
    pose proof (occurrences_remove_first_le c (w_data x) (items_of (heap w) p));
    lia.
Qed.

Lemma heap_without_child_count_lt w i x p e ip :
  witems w !! i = Some x ->
  w_parent x = Some p ->
  removable w i = true ->
  heap w !! w_data x = Some e ->
  parent e = Some ip ->
  child_count (heap_without w i) ip (w_data x) < child_count (heap w) ip (w_data x).
Proof.
  intros Hx Hp Hrem He Hip. unfold removable, heap_without, child_count in *.
  rewrite Hx, Hp in *. destruct (witems w !! p); [|discriminate].
  rewrite He, Hip in *.
  destruct (heap w !! ip) as [pe|] eqn:Hpe; [|discriminate].
  unfold folders_of, items_of.
  rewrite list_lookup_insert_eq by exact (lookup_lt_Some _ _ _ Hpe).
  rewrite Hpe. unfold listed, detach in *.
  destruct (is_folder e); simpl.
  - pose proof (occurrences_remove_first_lt _ _ Hrem). lia.
  - pose proof (occurrences_remove_first_lt _ _ Hrem). lia.
Qed.

Lemma heap_without_mem w i x p c :
  witems w !! i = Some x ->
  c <> w_data x ->
  mem c (folders_of (heap_without w i) p) = mem c (folders_of (heap w) p) /\
  mem c (items_of (heap_without w i) p) = mem c (items_of (heap w) p).
Proof.
  intros Hx Hc.
  destruct (heap_without_lists w i x p Hx) as [[-> | ->] [-> | ->]];
    rewrite ?(mem_remove_first_ne c (w_data x)) by exact Hc; auto.
Qed.

(** *** [reparent] *)

Lemma reparent_lookup h tgt item e te p :
  h !! item = Some e ->
  item <> tgt ->
  h !! tgt = Some te ->
  reparent h tgt item !! p =
  if Nat.eqb p tgt then Some (enlist item (is_folder e) te)
  else if Nat.eqb p item then Some (set_parent (Some tgt) e)
  else h !! p.
Proof.
  intros He Hne Hte. unfold reparent. rewrite He. cbv zeta.
  assert (Hli : item < length h) by exact (lookup_lt_Some _ _ _ He).
  assert (Hlt : tgt < length h) by exact (lookup_lt_Some _ _ _ Hte).
  rewrite list_lookup_insert_ne by exact Hne. rewrite Hte.
  destruct (Nat.eqb_spec p tgt) as [->|Hpt].
  - rewrite list_lookup_insert_eq; [reflexivity|]. now rewrite length_insert.
  - rewrite list_lookup_insert_ne by congruence.
    destruct (Nat.eqb_spec p item) as [->|Hpi].
    + now rewrite list_lookup_insert_eq.
    + now rewrite list_lookup_insert_ne by congruence.
Qed.

Lemma enlist_fields item b te :
  parent (enlist item b te) = parent te /\ path (enlist item b te) = path te /\
  kind (enlist item b te) = kind te.
Proof. unfold enlist. destruct b; auto. Qed.

Lemma reparent_parent_other h tgt item r :
  r <> item -> parent_of (reparent h tgt item) r = parent_of h r.
Proof.
  intros Hr. unfold reparent, parent_of.
  destruct (h !! item) as [e|] eqn:He; [|reflexivity]. cbv zeta.
  assert (Hli : item < length h) by exact (lookup_lt_Some _ _ _ He).
  destruct (<[item := set_parent (Some tgt) e]> h !! tgt) as [te|] eqn:Hte.
  - destruct (Nat.eq_dec tgt r) as [->|Htr].
    + rewrite list_lookup_insert_eq
        by exact (lookup_lt_Some _ _ _ Hte).
      rewrite list_lookup_insert_ne in Hte by congruence. rewrite Hte.
      apply enlist_fields.
    + rewrite !list_lookup_insert_ne by congruence. reflexivity.
  - now rewrite list_lookup_insert_ne by congruence.
Qed.

Lemma reparent_path h tgt item r :
  path_of (reparent h tgt item) r = path_of h r.
Proof.
  unfold reparent, path_of.
  destruct (h !! item) as [e|] eqn:He; [|reflexivity]. cbv zeta.
  assert (Hli : item < length h) by exact (lookup_lt_Some _ _ _ He).
  assert (Hitem : forall q,
            path <$> <[item := set_parent (Some tgt) e]> h !! q = path <$> h !! q).
  { intros q. destruct (Nat.eq_dec item q) as [->|Hq].
    - rewrite list_lookup_insert_eq by exact Hli. now rewrite He.
    - now rewrite list_lookup_insert_ne. }
  assert (Hgoal : forall h' : list Entity,
            (forall q, path <$> h' !! q = path <$> h !! q) ->
            match h' !! r with Some e0 => path e0 | None => None end =
            match h !! r with Some e0 => path e0 | None => None end).
  { intros h' Hh'. specialize (Hh' r).
    destruct (h' !! r), (h !! r); simpl in Hh'; congruence. }
  apply Hgoal. intros q.
  destruct (<[item := set_parent (Some tgt) e]> h !! tgt) as [te|] eqn:Hte;
    [|apply Hitem].
  destruct (Nat.eq_dec tgt q) as [->|Hq].
  - rewrite list_lookup_insert_eq
      by exact (lookup_lt_Some _ _ _ Hte).
    rewrite <- Hitem, Hte. simpl. f_equal. apply enlist_fields.
  - rewrite list_lookup_insert_ne by exact Hq. apply Hitem.
Qed.

Lemma reparent_kind h tgt item r :
  folder_at (reparent h tgt item) r = folder_at h r /\
  valid_ref (reparent h tgt item) r = valid_ref h r.
Proof.
  unfold reparent, folder_at, valid_ref, is_folder.
  destruct (h !! item) as [e|] eqn:He; [|auto]. cbv zeta.
  assert (Hli : item < length h) by exact (lookup_lt_Some _ _ _ He).
  assert (Hitem : forall q,
            kind <$> <[item := set_parent (Some tgt) e]> h !! q = kind <$> h !! q).
  { intros q. destruct (Nat.eq_dec item q) as [->|Hq].
    - rewrite list_lookup_insert_eq by exact Hli. now rewrite He.
    - now rewrite list_lookup_insert_ne. }
  assert (Hgoal : forall h' : list Entity,
     (forall q, kind <$> h' !! q = kind <$> h !! q) ->
     match h' !! r with Some e0 => Kind_eqb (kind e0) KFolder | None => false end =
     match h !! r with Some e0 => Kind_eqb (kind e0) KFolder | None => false end /\
     match h' !! r with Some _ => true | None => false end =
     match h !! r with Some _ => true | None => false end).
  { intros h' Hh'. specialize (Hh' r).
    destruct (h' !! r), (h !! r); simpl in Hh'; try discriminate; [|auto].
    injection Hh' as ->. auto. }
  apply Hgoal. intros q.
  destruct (<[item := set_parent (Some tgt) e]> h !! tgt) as [te|] eqn:Hte;
    [|apply Hitem].
  destruct (Nat.eq_dec tgt q) as [->|Hq].
  - rewrite list_lookup_insert_eq
      by exact (lookup_lt_Some _ _ _ Hte).
    rewrite <- Hitem, Hte. simpl. f_equal. apply enlist_fields.
  - rewrite list_lookup_insert_ne by exact Hq. apply Hitem.
Qed.

(** *** [clear_paths] *)

Lemma clear_paths_path_other l : forall h r,
  ~ In r l -> path_of (clear_paths l h) r = path_of h r.
Proof.
  induction l as [|a l IH]; intros h r Hr; [reflexivity|].
  simpl. rewrite IH by (intros Hin; apply Hr; now right).
  unfold path_of. rewrite clear_path_lookup.
  destruct (Nat.eqb_spec a r) as [->|Hne]; [|reflexivity].
  exfalso. apply Hr. now left.
Qed.

Lemma clear_paths_projections l h r :
  folders_of (clear_paths l h) r = folders_of h r /\
  items_of (clear_paths l h) r = items_of h r /\
  folder_at (clear_paths l h) r = folder_at h r /\
  valid_ref (clear_paths l h) r = valid_ref h r.
Proof. apply fields_projections, clear_paths_fields. Qed.

Lemma reparent_lists h tgt item p :
  (folders_of (reparent h tgt item) p = folders_of h p \/
   folders_of (reparent h tgt item) p = folders_of h p ++ [item]) /\
  (items_of (reparent h tgt item) p = items_of h p \/
   items_of (reparent h tgt item) p = items_of h p ++ [item]).
Proof.
  destruct (Nat.eq_dec p tgt) as [->|Hne].
  - unfold reparent, folders_of, items_of.
    destruct (h !! item) as [e|] eqn:He; [|auto]. cbv zeta.
    assert (Hli : item < length h) by exact (lookup_lt_Some _ _ _ He).
    destruct (<[item := set_parent (Some tgt) e]> h !! tgt) as [te|] eqn:Hte.
    + rewrite list_lookup_insert_eq by exact (lookup_lt_Some _ _ _ Hte).
      assert (Hsame : folders te = match h !! tgt with Some e0 => folders e0 | None => [] end
                      /\ items te = match h !! tgt with Some e0 => items e0 | None => [] end).
      { destruct (Nat.eq_dec item tgt) as [->|Hit].
        - rewrite list_lookup_insert_eq in Hte by exact Hli.
          injection Hte as <-. rewrite He. auto.
        - rewrite list_lookup_insert_ne in Hte by exact Hit. rewrite Hte. auto. }
      destruct Hsame as [<- <-]. unfold enlist. destruct (is_folder e); simpl; auto.
    + assert (Hnone : h !! tgt = None).
      { destruct (Nat.eq_dec item tgt) as [->|Hit].
        - rewrite list_lookup_insert_eq in Hte by exact Hli. discriminate.
        - now rewrite list_lookup_insert_ne in Hte by exact Hit. }
      rewrite Hte, Hnone. auto.
  - destruct (fields_projections h (reparent h tgt item) p
                (reparent_fields h tgt item p Hne)) as (-> & -> & _). auto.
Qed.

Section MovedHeap.
Variables (w : World) (source : wref) (tgt : ref) (t : Shape).

Lemma moved_heap_parent_other r :
  r <> root t -> parent_of (moved_heap w source tgt t) r = parent_of (heap w) r.
Proof.
  intros Hr. unfold moved_heap.
  now rewrite clear_paths_parent, reparent_parent_other, heap_without_parent.
Qed.

Lemma moved_heap_kind r :
  folder_at (moved_heap w source tgt t) r = folder_at (heap w) r /\
  valid_ref (moved_heap w source tgt t) r = valid_ref (heap w) r.
Proof.
  unfold moved_heap.
  destruct (clear_paths_projections (nodes t)
              (reparent (heap_without w source) tgt (root t)) r) as (_ & _ & -> & ->).
  destruct (reparent_kind (heap_without w source) tgt (root t) r) as [-> ->].
  apply heap_without_kind.
Qed.

Lemma moved_heap_path_cleared r :
  In r (nodes t) -> path_of (moved_heap w source tgt t) r = None.
Proof. intros Hr. unfold moved_heap. now apply clear_paths_cleared. Qed.

Lemma moved_heap_path_none r :
  path_of (heap w) r = None -> path_of (moved_heap w source tgt t) r = None.
Proof.
  intros Hr. unfold moved_heap. apply clear_paths_keeps_none.
  now rewrite reparent_path, heap_without_path.
Qed.

Lemma moved_heap_fields r :
  r <> tgt ->
  tree_fields <$> moved_heap w source tgt t !! r
  = tree_fields <$> heap_without w source !! r.
Proof.
  intros Hr. unfold moved_heap.
  now rewrite clear_paths_fields, reparent_fields.
Qed.

Lemma moved_heap_child_count xs p c :
  witems w !! source = Some xs ->
  p <> tgt ->
  child_count (moved_heap w source tgt t) p c <= child_count (heap w) p c.
Proof.
  intros Hxs Hp. unfold child_count.
  destruct (fields_projections _ _ p (moved_heap_fields p Hp)) as (-> & -> & _).
  exact (heap_without_child_count w source xs p c Hxs).
Qed.

Lemma moved_heap_mem xs p c :
  witems w !! source = Some xs ->
  root t = w_data xs ->
  c <> root t ->
  mem c (folders_of (moved_heap w source tgt t) p) = mem c (folders_of (heap w) p) /\
  mem c (items_of (moved_heap w source tgt t) p) = mem c (items_of (heap w) p).
Proof.
  intros Hxs Hroot Hc. unfold moved_heap.
  destruct (clear_paths_projections (nodes t)
              (reparent (heap_without w source) tgt (root t)) p) as (-> & -> & _).
  rewrite Hroot in Hc.
  destruct (heap_without_mem w source xs p c Hxs Hc) as [<- <-].
  rewrite Hroot.
  destruct (reparent_lists (heap_without w source) tgt (w_data xs) p)
    as [[-> | ->] [-> | ->]];
    rewrite ?mem_app; simpl;
    destruct (Nat.eqb_spec c (w_data xs)); try contradiction;
    rewrite ?orb_false_r; auto.
Qed.

Lemma moved_heap_lists_child_other xs p c :
  witems w !! source = Some xs ->
  root t = w_data xs ->
  c <> root t ->
  lists_child (moved_heap w source tgt t) p c = lists_child (heap w) p c.
Proof.
  intros Hxs Hroot Hc. unfold lists_child.
  destruct (moved_heap_kind c) as [-> _].
  destruct (moved_heap_mem xs p c Hxs Hroot Hc) as [-> ->]. reflexivity.
Qed.

(** What holds once the object behind [source] is known to exist apart
    from the target and from its own parent. *)
Variables (xs : WidgetItem) (e : Entity).
Hypothesis Hxs : witems w !! source = Some xs.
Hypothesis Hroot : root t = w_data xs.
Hypothesis He : heap w !! root t = Some e.
Hypothesis Htgt : valid_ref (heap w) tgt = true.
Hypothesis Hne : root t <> tgt.
Hypothesis Hself : parent_of (heap w) (root t) <> Some (root t).

Lemma moved_heap_lookups :
  heap_without w source !! root t = Some e /\
  exists te, heap_without w source !! tgt = Some te.
Proof using Hxs Hroot He Htgt Hself.
  split.
  - rewrite (heap_without_other w source xs (root t) Hxs); [exact He|].
    now rewrite <- Hroot.
  - destruct (heap_without_kind w source tgt) as [_ Hv]. rewrite Htgt in Hv.
    unfold valid_ref in Hv.
    destruct (heap_without w source !! tgt) as [te|]; [eauto | discriminate].
Qed.

Lemma moved_heap_parent : parent_of (moved_heap w source tgt t) (root t) = Some tgt.
Proof using Hxs Hroot He Htgt Hne Hself.
  destruct moved_heap_lookups as (He1 & te & Hte).
  unfold moved_heap. rewrite clear_paths_parent. unfold parent_of.
  rewrite (reparent_lookup _ _ _ e te (root t) He1 Hne Hte).
  destruct (Nat.eqb_spec (root t) tgt); [contradiction|].
  now rewrite Nat.eqb_refl.
Qed.

Lemma moved_heap_lists_child :
  lists_child (moved_heap w source tgt t) tgt (root t) = true.
Proof using Hxs Hroot He Htgt Hne Hself.
  destruct moved_heap_lookups as (He1 & te & Hte).
  unfold lists_child. destruct (moved_heap_kind (root t)) as [-> _].
  unfold folder_at. rewrite He. unfold moved_heap.
  destruct (clear_paths_projections (nodes t)
              (reparent (heap_without w source) tgt (root t)) tgt) as (-> & -> & _).
  unfold folders_of, items_of.
  rewrite (reparent_lookup _ _ _ e te tgt He1 Hne Hte), Nat.eqb_refl.
  unfold enlist. destruct (is_folder e); simpl; rewrite mem_app; simpl;
    rewrite Nat.eqb_refl; apply orb_true_r.
Qed.

End MovedHeap.

(** ** Plans *)

Lemma valid_node_lookup ws i :
  valid_node ws i = true -> exists x, ws !! i = Some x.
Proof. unfold valid_node. destruct (ws !! i); [eauto | discriminate]. Qed.

Lemma source_ok_spec fuel tgt ts w s t :
  source_ok fuel tgt ts w (s, t) = true ->
  exists xs,
    witems w !! s = Some xs /\
    root t = w_data xs /\
    shape_ok (heap w) t = true /\
    height t <= fuel /\
    removable w s = true /\
    ~ In tgt (nodes t) /\
    (forall ip, parent_of (heap w) (root t) = Some ip ->
                forall t', In t' ts -> ~ In ip (nodes t')).
Proof.
  unfold source_ok. cbn [fst snd]. intros H.
  repeat (apply andb_true_iff in H as [H ?]).
  destruct (valid_node_lookup _ _ H) as [xs Hxs]. exists xs.
  unfold data_of in *. rewrite Hxs in *.
  split; [reflexivity|]. split; [now apply Nat.eqb_eq|].
  split; [assumption|]. split; [now apply Nat.leb_le|].
  split; [assumption|]. split.
  - apply mem_false. now apply negb_true_iff.
  - intros ip Hip t' Ht'.
    match goal with
    | Hm : match parent_of _ _ with _ => _ end = true |- _ =>
        rewrite Hip in Hm; rewrite forallb_forall in Hm; specialize (Hm t' Ht');
        apply negb_true_iff in Hm; now apply mem_false
    end.
Qed.

Lemma source_ok_intro fuel tgt ts w s t xs :
  witems w !! s = Some xs ->
  root t = w_data xs ->
  shape_ok (heap w) t = true ->
  height t <= fuel ->
  removable w s = true ->
  ~ In tgt (nodes t) ->
  (forall ip, parent_of (heap w) (root t) = Some ip ->
              forall t', In t' ts -> ~ In ip (nodes t')) ->
  source_ok fuel tgt ts w (s, t) = true.
Proof.
  intros Hxs Hroot Hok Hh Hrem Hnt Hiso.
  unfold source_ok, valid_node, data_of. cbn [fst snd]. rewrite Hxs, Hok, Hrem.
  rewrite (proj2 (Nat.eqb_eq _ _) Hroot), (proj2 (Nat.leb_le _ _) Hh).
  rewrite (proj2 (mem_false _ _) Hnt). simpl.
  destruct (parent_of (heap w) (root t)) as [ip|] eqn:Hip; [|reflexivity].
  apply forallb_forall. intros t' Ht'. apply negb_true_iff, mem_false.
  exact (Hiso ip eq_refl t' Ht').
Qed.

Lemma distinct_cons x l :
  distinct (x :: l) = true -> ~ In x l /\ distinct l = true.
Proof.
  simpl. intros H. apply andb_true_iff in H as [Hx Hl].
  split; [|exact Hl]. apply mem_false. now apply negb_true_iff.
Qed.

Lemma roots_without_mem w i x c :
  witems w !! i = Some x -> c <> w_data x ->
  mem c (roots_without w i) = mem c (cm_folders w).
Proof.
  intros Hx Hc. unfold roots_without. rewrite Hx.
  destruct (w_parent x); [reflexivity|]. now apply mem_remove_first_ne.
Qed.

Lemma roots_without_le w i c :
  occurrences c (roots_without w i) <= occurrences c (cm_folders w).
Proof.
  unfold roots_without. destruct (witems w !! i) as [x|]; [|lia].
  destruct (w_parent x); [lia|]. apply occurrences_remove_first_le.
Qed.

Lemma roots_without_lt w i x :
  witems w !! i = Some x ->
  w_parent x = None ->
  removable w i = true ->
  occurrences (w_data x) (roots_without w i) < occurrences (w_data x) (cm_folders w).
Proof.
  intros Hx Hp Hrem. unfold roots_without, removable in *. rewrite Hx, Hp in *.
  now apply occurrences_remove_first_lt.
Qed.

(** [removable] read through the projections of the arenas. *)
Lemma removable_spec w i :
  removable w i = true <->
  valid_node (witems w) i = true /\
  match w_parent_of (witems w) i with
  | None => mem (data_of w i) (cm_folders w) = true
  | Some p =>
      valid_node (witems w) p = true /\
      valid_ref (heap w) (data_of w i) = true /\
      exists ip, parent_of (heap w) (data_of w i) = Some ip /\
                 valid_ref (heap w) ip = true /\
                 lists_child (heap w) ip (data_of w i) = true
  end.
Proof.
  unfold removable, valid_node, w_parent_of, data_of, valid_ref, parent_of,
    lists_child, folder_at, folders_of, items_of, listed.
  destruct (witems w !! i) as [x|]; [|split; [discriminate | intros [? _]; discriminate]].
  destruct (w_parent x) as [p|]; [|tauto].
  destruct (witems w !! p) as [xp|];
    [|split; [discriminate | intros (_ & ? & _); discriminate]].
  destruct (heap w !! w_data x) as [e|];
    [|split; [discriminate | intros (_ & _ & ? & _); discriminate]].
  destruct (parent e) as [ip|];
    [|split; [discriminate | intros (_ & _ & _ & ip & ? & _); discriminate]].
  split.
  - intros H. destruct (heap w !! ip) as [pe|] eqn:Hpe; [|discriminate].
    repeat split. exists ip. rewrite Hpe. auto.
  - intros (_ & _ & _ & ip' & Hip & Hv & Hl). injection Hip as <-.
    destruct (heap w !! ip) as [pe|]; [exact Hl | discriminate].
Qed.

Lemma same_data_valid ws ws' i :
  same_data ws ws' -> valid_node ws' i = valid_node ws i.
Proof.
  intros H. specialize (H i). unfold valid_node.
  destruct (ws' !! i), (ws !! i); simpl in H; congruence.
Qed.

Lemma same_data_data_of w w' i :
  same_data (witems w) (witems w') -> data_of w' i = data_of w i.
Proof.
  intros H. specialize (H i). unfold data_of.
  destruct (witems w' !! i), (witems w !! i); simpl in H; congruence.
Qed.

Section MovePlan.
Context `{Collab : Collaborators}.

(** One turn of the loop on a node of the plan: what it does to the
    node, and what it leaves alone. *)
Lemma move_step fuel tgt target ts wk s t :
  source_ok fuel tgt ts wk (s, t) = true ->
  In t ts ->
  valid_node (witems wk) target = true ->
  valid_ref (heap wk) tgt = true ->
  exists w1 mid,
    move_one fuel tgt target s wk = (Ret tt, w1) /\
    trace w1 = trace wk ++ mid /\
    (forall r, In r (nodes t) -> In (Persist r None) mid) /\
    frame tgt [s] [root t] wk w1 /\
    moved tgt target wk w1 s t /\
    same_data (witems wk) (witems w1) /\
    (forall r, folder_at (heap w1) r = folder_at (heap wk) r /\
               valid_ref (heap w1) r = valid_ref (heap wk) r) /\
    (forall c, c <> root t -> mem c (cm_folders w1) = mem c (cm_folders wk)) /\
    (forall r, r <> tgt -> parent_of (heap wk) (root t) <> Some r ->
               tree_fields <$> heap w1 !! r = tree_fields <$> heap wk !! r).
Proof.
  intros Hsrc Hts Htarget Htgt.
  destruct (source_ok_spec _ _ _ _ _ _ Hsrc)
    as (xs & Hxs & Hroot & Hok & Hh & Hrem & Hnt & Hiso).
  destruct (valid_node_lookup _ _ Htarget) as [xt Hxt].
  assert (Hiso_t : forall ip, parent_of (heap wk) (w_data xs) = Some ip ->
                              ~ In ip (nodes t)).
  { intros ip Hip. rewrite <- Hroot in Hip. exact (Hiso ip Hip t Hts). }
  destruct (move_one_run fuel wk tgt target s xs xt t
              Hxs Hxt Htgt Hroot Hok Hh Hrem Hnt Hiso_t)
    as (w1 & c & Hrun & Hheap & Hcm & _ & Htrace & Hnodes & Hpar & _).
  rewrite <- Hroot in Hheap. fold (moved_heap wk s tgt t) in Hheap.
  destruct (shape_ok_root _ _ Hok) as [e He].
  assert (Hne : root t <> tgt).
  { intros Heq. apply Hnt. rewrite <- Heq. apply root_in_nodes. }
  assert (Hself : parent_of (heap wk) (root t) <> Some (root t)).
  { intros Hp. exact (Hiso _ Hp t Hts (root_in_nodes t)). }
  exists w1. eexists. split; [exact Hrun|]. split; [exact Htrace|].
  split; [|split; [|split; [|split; [|split; [|split]]]]].
  - intros r Hr. apply in_or_app. right. apply in_or_app. right.
    apply in_map_iff. now exists r.
  - unfold frame. rewrite Hheap, Hcm.
    split; [intros r; apply moved_heap_path_none|].
    split; [intros r Hr; apply moved_heap_parent_other;
            intros ->; apply Hr; now left|].
    split; [intros c0 p Hc;
            apply (moved_heap_lists_child_other wk s tgt t xs p c0 Hxs Hroot);
            intros ->; apply Hc; now left|].
    split; [intros j Hj; apply (same_nodes_but_parent s _ _ j Hnodes);
            intros ->; apply Hj; now left|].
    split; [intros p c0 Hp; exact (moved_heap_child_count wk s tgt t xs p c0 Hxs Hp)|].
    intros c0. apply roots_without_le.
  - unfold moved. rewrite Hheap, Hcm.
    split; [intros r; apply moved_heap_path_cleared|].
    split; [exact (moved_heap_parent wk s tgt t xs e Hxs Hroot He Htgt Hne Hself)|].
    split; [exact (moved_heap_lists_child wk s tgt t xs e Hxs Hroot He Htgt Hne Hself)|].
    split; [exact Hpar|]. split.
    + intros Htop. unfold w_parent_of in Htop. rewrite Hxs in Htop.
      rewrite Hroot. exact (roots_without_lt wk s xs Hxs Htop Hrem).
    + intros ip Hchild Hip Hipt.
      unfold w_parent_of in Hchild. rewrite Hxs in Hchild.
      destruct (w_parent xs) as [p|] eqn:Hp; [|contradiction].
      unfold child_count.
      destruct (fields_projections _ _ ip (moved_heap_fields wk s tgt t ip Hipt))
        as (-> & -> & _).
      rewrite Hroot in He, Hip |- *.
      assert (Hpe : parent e = Some ip).
      { unfold parent_of in Hip. now rewrite He in Hip. }
      exact (heap_without_child_count_lt wk s xs p e ip Hxs Hp Hrem He Hpe).
  - exact (same_nodes_but_data _ _ _ Hnodes).
  - intros r. rewrite Hheap. apply moved_heap_kind.
  - intros c0 Hc. rewrite Hcm. apply (roots_without_mem wk s xs c0 Hxs).
    now rewrite <- Hroot.
  - intros r Hr Hp. rewrite Hheap, (moved_heap_fields wk s tgt t r Hr).
    apply (heap_without_fields wk s xs r Hxs). now rewrite <- Hroot.
Qed.

(** A node of the plan that was not moved yet is as ready after a turn
    on another node as it was before. *)
Lemma source_ok_after_step fuel tgt ts wk w1 s t s' t' :
  frame tgt [s] [root t] wk w1 ->
  same_data (witems wk) (witems w1) ->
  (forall r, folder_at (heap w1) r = folder_at (heap wk) r /\
             valid_ref (heap w1) r = valid_ref (heap wk) r) ->
  (forall c, c <> root t -> mem c (cm_folders w1) = mem c (cm_folders wk)) ->
  (forall r, r <> tgt -> parent_of (heap wk) (root t) <> Some r ->
             tree_fields <$> heap w1 !! r = tree_fields <$> heap wk !! r) ->
  (forall ip, parent_of (heap wk) (root t) = Some ip -> ~ In ip (nodes t')) ->
  s' <> s ->
  root t' <> root t ->
  source_ok fuel tgt ts wk (s', t') = true ->
  source_ok fuel tgt ts w1 (s', t') = true.
Proof.
  intros (_ & Hfpar & Hflist & Hfw & _ & _) Hdata Hkind Hcm Hfields Hiso_t
         Hs Hr Hsrc.
  destruct (source_ok_spec _ _ _ _ _ _ Hsrc)
    as (xs & Hxs & Hroot & Hok & Hh & Hrem & Hnt & Hiso).
  destruct (same_data_lookup _ _ _ _ Hdata Hxs) as (xs1 & Hxs1 & Hd1).
  assert (Hnot_s : ~ In s' [s]) by (intros [->|[]]; contradiction).
  assert (Hnot_r : ~ In (root t') [root t]) by (intros [Heq|[]]; congruence).
  assert (Hdo : data_of wk s' = root t').
  { unfold data_of. now rewrite Hxs. }
  apply (source_ok_intro fuel tgt ts w1 s' t' xs1 Hxs1).
  - congruence.
  - apply (shape_ok_agree_true t' (heap wk)); [|exact Hok].
    intros r Hin. apply Hfields.
    + intros ->. contradiction.
    + intros Hp. exact (Hiso_t r Hp Hin).
  - exact Hh.
  - apply removable_spec. apply removable_spec in Hrem as [Hv Hrem].
    rewrite (same_data_valid _ _ s' Hdata), (Hfw s' Hnot_s).
    rewrite (same_data_data_of wk w1 s' Hdata), Hdo in *.
    split; [exact Hv|].
    destruct (w_parent_of (witems wk) s') as [p|].
    + destruct Hrem as (Hvp & Hvr & ip & Hip & Hvip & Hl).
      rewrite (same_data_valid _ _ p Hdata).
      rewrite (proj2 (Hkind (root t'))).
      split; [exact Hvp|]. split; [exact Hvr|].
      exists ip. rewrite (Hfpar _ Hnot_r), (proj2 (Hkind ip)), (Hflist _ ip Hnot_r).
      auto.
    + rewrite (Hcm _ Hr). exact Hrem.
  - exact Hnt.
  - intros ip Hip. rewrite (Hfpar _ Hnot_r) in Hip. exact (Hiso ip Hip).
Qed.

Lemma frame_refl tgt w : frame tgt [] [] w w.
Proof. unfold frame. repeat split; auto. Qed.

Lemma frame_trans tgt a ra b rb w w1 w2 :
  frame tgt a ra w w1 -> frame tgt b rb w1 w2 ->
  frame tgt (a ++ b) (ra ++ rb) w w2.
Proof.
  intros (Hp1 & Hpar1 & Hl1 & Hw1 & Hc1 & Ho1) (Hp2 & Hpar2 & Hl2 & Hw2 & Hc2 & Ho2).
  unfold frame. split; [|split; [|split; [|split; [|split]]]].
  - intros r Hr. auto.
  - intros r Hr. rewrite Hpar2, Hpar1; [reflexivity| |];
      intros Hin; apply Hr, in_or_app; auto.
  - intros c p Hc. rewrite Hl2, Hl1; [reflexivity| |];
      intros Hin; apply Hc, in_or_app; auto.
  - intros j Hj. rewrite Hw2, Hw1; [reflexivity| |];
      intros Hin; apply Hj, in_or_app; auto.
  - intros p c Hp. specialize (Hc1 p c Hp). specialize (Hc2 p c Hp). lia.
  - intros c. specialize (Ho1 c). specialize (Ho2 c). lia.
Qed.

Lemma moved_after tgt target wk w1 w' s t srcs roots :
  moved tgt target wk w1 s t ->
  frame tgt srcs roots w1 w' ->
  ~ In s srcs -> ~ In (root t) roots ->
  moved tgt target wk w' s t.
Proof.
  intros (Hpaths & Hpar & Hlist & Hwp & Htop & Hchild)
         (Hfp & Hfpar & Hfl & Hfw & Hfc & Hfo) Hs Hr.
  unfold moved. split; [|split; [|split; [|split; [|split]]]].
  - intros r Hin. apply Hfp, Hpaths, Hin.
  - now rewrite Hfpar.
  - now rewrite Hfl.
  - now rewrite Hfw.
  - intros Hnone. specialize (Htop Hnone). specialize (Hfo (root t)). lia.
  - intros ip Hsome Hip Hne. specialize (Hchild ip Hsome Hip Hne).
    specialize (Hfc ip (root t) Hne). lia.
Qed.

Lemma moved_before tgt target wk w1 w' s t s' t' :
  moved tgt target w1 w' s' t' ->
  frame tgt [s] [root t] wk w1 ->
  s' <> s -> root t' <> root t ->
  moved tgt target wk w' s' t'.
Proof.
  intros (Hpaths & Hpar & Hlist & Hwp & Htop & Hchild)
         (Hfp & Hfpar & Hfl & Hfw & Hfc & Hfo) Hs Hr.
  assert (Hnot_s : ~ In s' [s]) by (intros [->|[]]; contradiction).
  assert (Hnot_r : ~ In (root t') [root t]) by (intros [Heq|[]]; congruence).
  unfold moved. split; [exact Hpaths|]. split; [exact Hpar|].
  split; [exact Hlist|]. split; [exact Hwp|]. split.
  - intros Hnone. rewrite <- (Hfw s' Hnot_s) in Hnone.
    specialize (Htop Hnone). specialize (Hfo (root t')). lia.
  - intros ip Hsome Hip Hne.
    rewrite <- (Hfw s' Hnot_s) in Hsome. rewrite <- (Hfpar _ Hnot_r) in Hip.
    specialize (Hchild ip Hsome Hip Hne). specialize (Hfc ip (root t') Hne). lia.
Qed.

(** The loop of [move_items] over a plan. *)
Lemma move_loop fuel tgt target ts :
  forall rest wk,
    forallb (source_ok fuel tgt ts wk) rest = true ->
    (forall st, In st rest -> In (snd st) ts) ->
    distinct (map fst rest) = true ->
    distinct (map (fun st => root (snd st)) rest) = true ->
    valid_node (witems wk) target = true ->
    valid_ref (heap wk) tgt = true ->
    exists w' mid,
      for_each (map fst rest) (move_one fuel tgt target) wk = (Ret tt, w') /\
      trace w' = trace wk ++ mid /\
      (forall st r, In st rest -> In r (nodes (snd st)) -> In (Persist r None) mid) /\
      frame tgt (map fst rest) (map (fun st => root (snd st)) rest) wk w' /\
      (forall st, In st rest -> moved tgt target wk w' (fst st) (snd st)).
Proof.
  induction rest as [|[s t] rest IH]; intros wk Hall Hts Hds Hdr Htarget Htgt.
  - exists wk, []. simpl. rewrite app_nil_r.
    split; [reflexivity|]. split; [reflexivity|].
    split; [intros ? ? []|].
    split; [apply frame_refl | intros ? []].
  - cbn [forallb] in Hall. apply andb_true_iff in Hall as [Hhead Hrest].
    cbn [map] in Hds, Hdr. cbn [fst snd] in Hds, Hdr.
    apply distinct_cons in Hds as [Hs_notin Hds].
    apply distinct_cons in Hdr as [Hr_notin Hdr].
    assert (Ht : In t ts) by exact (Hts (s, t) (or_introl eq_refl)).
    destruct (move_step fuel tgt target ts wk s t Hhead Ht Htarget Htgt)
      as (w1 & mid1 & Hrun1 & Htrace1 & Hpersist1 & Hframe1 & Hmoved1 & Hdata1
          & Hkind1 & Hcm1 & Hfields1).
    destruct (source_ok_spec _ _ _ _ _ _ Hhead)
      as (xs & _ & _ & _ & _ & _ & _ & Hiso).
    assert (Hrest1 : forallb (source_ok fuel tgt ts w1) rest = true).
    { apply forallb_forall. intros [s' t'] Hin.
      rewrite forallb_forall in Hrest.
      apply (source_ok_after_step fuel tgt ts wk w1 s t s' t'
               Hframe1 Hdata1 Hkind1 Hcm1 Hfields1).
      - intros ip Hip. exact (Hiso ip Hip t' (Hts (s', t') (or_intror Hin))).
      - intros ->. apply Hs_notin. apply in_map_iff. now exists (s, t').
      - intros Heq. apply Hr_notin. apply in_map_iff. exists (s', t').
        split; [exact Heq | exact Hin].
      - exact (Hrest (s', t') Hin). }
    destruct (IH w1 Hrest1 (fun st Hin => Hts st (or_intror Hin)) Hds Hdr
                ltac:(rewrite (same_data_valid _ _ target Hdata1); exact Htarget)
                ltac:(rewrite (proj2 (Hkind1 tgt)); exact Htgt))
      as (w' & mid2 & Hrun2 & Htrace2 & Hpersist2 & Hframe2 & Hmoved2).
    exists w', (mid1 ++ mid2).
    split; [|split; [|split; [|split]]].
    + cbn [map for_each fst]. rewrite (bind_run _ _ _ _ _ Hrun1). exact Hrun2.
    + rewrite Htrace2, Htrace1, <- app_assoc. reflexivity.
    + intros st r [<-|Hin] Hr; apply in_or_app.
      * left. exact (Hpersist1 r Hr).
      * right. exact (Hpersist2 st r Hin Hr).
    + exact (frame_trans tgt [s] [root t] _ _ wk w1 w' Hframe1 Hframe2).
    + intros st [<-|Hin].
      * exact (moved_after tgt target wk w1 w' s t _ _ Hmoved1 Hframe2
                 Hs_notin Hr_notin).
      * destruct st as [s' t']. cbn [fst snd].
        apply (moved_before tgt target wk w1 w' s t s' t' (Hmoved2 _ Hin) Hframe1).
        -- intros ->. apply Hs_notin. apply in_map_iff. now exists (s, t').
        -- intros Heq. apply Hr_notin. apply in_map_iff. exists (s', t').
           split; [exact Heq | exact Hin].
Qed.

End MovePlan.

Section MoveItems.
Context `{Collab : Collaborators}.

Lemma w_parent_of_sorted w j :
  w_parent_of (witems (sorted_world w)) j = w_parent_of (witems w) j.
Proof.
  unfold w_parent_of. rewrite sorted_world_lookup.
  now destruct (witems w !! j).
Qed.


End MoveItems.


(** ** Sorting keeps the nodes *)

Lemma insert_by_In leb x l y : In y (insert_by leb x l) <-> y = x \/ In y l.
Proof.
  induction l as [|z l IH]; simpl.
  - intuition.
  - destruct (leb x z); simpl; [intuition|]. rewrite IH. intuition.
Qed.

Lemma sort_by_In leb l y : In y (sort_by leb l) <-> In y l.
Proof.
  unfold sort_by. induction l as [|x l IH]; simpl; [reflexivity|].
  rewrite insert_by_In, IH. intuition.
Qed.

Lemma insert_by_length leb x l : length (insert_by leb x l) = S (length l).
Proof.
  induction l as [|z l IH]; simpl; [reflexivity|].
  destruct (leb x z); simpl; [reflexivity | now rewrite IH].
Qed.

Lemma sort_by_length leb l : length (sort_by leb l) = length l.
Proof.
  unfold sort_by. induction l as [|x l IH]; simpl; [reflexivity|].
  now rewrite insert_by_length, IH.
Qed.

Lemma sort_labels_In `{Collab : Collaborators} ws l y :
  In y (sort_labels ws l) <-> In y l.
Proof. apply sort_by_In. Qed.

Lemma sort_labels_length `{Collab : Collaborators} ws l :
  length (sort_labels ws l) = length l.
Proof. apply sort_by_length. Qed.

Lemma sort_labels_nil `{Collab : Collaborators} ws l :
  sort_labels ws l = [] <-> l = [].
Proof.
  split; intros H.
  - apply length_zero_iff_nil. rewrite <- (sort_labels_length ws), H. reflexivity.
  - subst. reflexivity.
Qed.

Lemma bind_setItemSelected {B} i b (k : unit -> M B) w :
  bind (setItemSelected i b) k w =
  k tt (set_selectedItems
          (if b then (if mem i (selectedItems w) then selectedItems w
                      else selectedItems w ++ [i])
           else remove_first i (selectedItems w))
          (set_trace (trace w ++ [SetItemSelected i b]) w)).
Proof. reflexivity. Qed.

Lemma getSelection_empty w :
  selectedItems w = [] -> __getSelection w = (Ret [], w).
Proof.
  intros Hsel. unfold __getSelection, selected.
  rewrite bind_assoc, bind_get, bind_ret, Hsel. reflexivity.
Qed.

Lemma selectionChanged_empty w :
  selectedItems w = [] ->
  on_treeWidget_itemSelectionChanged w
  = (Ret tt, set_trace (trace w ++ [UpdateActions [] false]) w).
Proof.
  intros Hsel. unfold on_treeWidget_itemSelectionChanged.
  rewrite (bind_run _ _ _ _ _ (getSelection_empty w Hsel)). reflexivity.
Qed.

(** ** The log mirror as a sliding window, and its export *)

Lemma string_app_assoc (a b c : string) : ((a ++ b) ++ c = a ++ (b ++ c))%string.
Proof. induction a as [|x a IH]; simpl; [reflexivity | now rewrite IH]. Qed.

Lemma string_app_nil_r (a : string) : (a ++ EmptyString = a)%string.
Proof. induction a as [|x a IH]; simpl; [reflexivity | now rewrite IH]. Qed.

Lemma emit_all_feed records widget :
  emit_all records widget = feed (map entry_of records) widget.
Proof.
  unfold emit_all, feed. revert widget.
  induction records as [|r records IH]; intros widget; [reflexivity|].
  simpl. apply IH.
Qed.



Lemma write_all_none writes :
  forall written,
    write_all writes None written = ((written ++ join_all writes)%string, false).
Proof.
  induction writes as [|s rest IH]; intros written; simpl.
  - now rewrite string_app_nil_r.
  - rewrite IH. now rewrite string_app_assoc.
Qed.

Lemma write_all_some writes :
  forall n written,
    write_all writes (Some n) written
    = ((written ++ join_all (take n writes))%string, n <? length writes).
Proof.
  induction writes as [|s rest IH]; intros n written; simpl.
  - destruct n; simpl; now rewrite string_app_nil_r.
  - destruct n as [|n]; simpl.
    + now rewrite string_app_nil_r.
    + rewrite IH. now rewrite string_app_assoc.
Qed.

Lemma text_lines_line t rest :
  has_char "010" t = false ->
  text_lines (t ++ newline ++ rest) = t :: text_lines rest.
Proof.
  induction t as [|c t IH]; intros Hnl; simpl in *.
  - reflexivity.
  - apply orb_false_iff in Hnl as [Hc Ht]. rewrite Hc.
    rewrite (IH Ht). reflexivity.
Qed.

Lemma text_lines_log_writes widget :
  forallb (fun item => negb (has_char "010" (text item))) widget = true ->
  text_lines (join_all (log_writes widget)) = map text widget.
Proof.
  induction widget as [|item widget IH]; intros Hall.
  - reflexivity.
  - simpl in Hall. apply andb_true_iff in Hall as [Hitem Hall].
    apply negb_true_iff in Hitem.
    change (text_lines (text item ++ newline ++ join_all (log_writes widget))%string
            = text item :: map text widget).
    rewrite (text_lines_line _ _ Hitem). now rewrite (IH Hall).
Qed.

Lemma join_all_take_drop n (l : list string) :
  join_all l = (join_all (take n l) ++ join_all (drop n l))%string.
Proof.
  revert n. induction l as [|s l IH]; intros [|n]; simpl; try reflexivity.
  rewrite (IH n). now rewrite string_app_assoc.
Qed.




(** ** Selection changes and the first population of the tree *)

(** X4: a selection change loads a page only when the selection, with
    the objects whose parent is selected too left out, is a single
    object: then the page of its kind becomes current and holds it, the
    edit session is marked clean and recording is cancelled; otherwise
    only the actions are updated, and page, stack index and dirty mark
    stay as they were.  The tree and the clipboard are never changed. *)
Theorem selection_changed_loads_single_object (w : World) :
  selection_ok w = true ->
  exists w',
    on_treeWidget_itemSelectionChanged w = (Ret tt, w') /\
    heap w' = heap w /\ witems w' = witems w /\
    selectedItems w' = selectedItems w /\
    cutCopiedItems w' = cutCopiedItems w /\
    (forall r, top_level (heap w) (selected_data w) = [r] ->
       exists e, heap w !! r = Some e /\
         stackIndex w' = page_of (kind e) /\
         pageItems w' = <[page_of (kind e) := Some r]> (pageItems w) /\
         dirty w' = false /\
         trace w' = trace w ++ [PageLoad (page_of (kind e)) r;
                                UpdateActions [r] true; CancelRecord]) /\
    (length (top_level (heap w) (selected_data w)) <> 1 ->
       stackIndex w' = stackIndex w /\
       pageItems w' = pageItems w /\
       dirty w' = dirty w /\
       trace w' = trace w ++
                  [UpdateActions (top_level (heap w) (selected_data w)) false]).
Proof.
  intros Hok.
  assert (Hother : forall l, length l <> 1 ->
    top_level (heap w) (selected_data w) = l ->
    on_treeWidget_itemSelectionChanged w
    = (Ret tt, set_trace (trace w ++ [UpdateActions l false]) w)).
  { intros l Hl Htop. unfold on_treeWidget_itemSelectionChanged.
    rewrite (bind_run _ _ _ _ _ (__getSelection_run w Hok)), Htop.
    destruct l as [|r [|r' l]]; [reflexivity | | reflexivity].
    simpl in Hl. contradiction. }
  destruct (top_level (heap w) (selected_data w)) as [|r [|r' l]] eqn:Htop.
  - eexists. split; [apply (Hother []); [simpl; lia | reflexivity]|].
    wsimpl. do 4 (split; [reflexivity|]). split.
    + intros r Hr. discriminate.
    + intros _. auto.
  - assert (Hin : In r (selected_data w)).
    { apply (top_level_incl (heap w)). rewrite Htop. now left. }
    destruct (lookup_lt_is_Some_2 (heap w) r (selected_data_valid w r Hok Hin))
      as [e He].
    exists (loaded_world r (kind e) w).
    split; [exact (selectionChanged_single w r e Hok Htop He)|].
    unfold loaded_world. wsimpl. do 4 (split; [reflexivity|]). split.
    + intros r0 Hr0. injection Hr0 as <-. exists e.
      split; [exact He|]. auto.
    + intros Hlen. simpl in Hlen. contradiction.
  - eexists. split; [apply (Hother (r :: r' :: l)); [simpl; lia | reflexivity]|].
    wsimpl. do 4 (split; [reflexivity|]). split.
    + intros r0 Hr0. discriminate.
    + intros _. auto.
Qed.

Lemma selection_changed_loads_single_object_witness :
  exists w',
    on_treeWidget_itemSelectionChanged (sample_world [0; 1] []) = (Ret tt, w') /\
    stackIndex w' = 0 /\ dirty w' = false /\
    trace w' = [PageLoad 0 0; UpdateActions [0] true; CancelRecord].
Proof.
  destruct (selection_changed_loads_single_object (sample_world [0; 1] []) eq_refl)
    as (w' & Hrun & _ & _ & _ & _ & Hone & _).
  destruct (Hone 0 eq_refl) as (e & He & Hstack & _ & Hdirty & Htrace).
  injection He as <-.
  exists w'. split; [exact Hrun|]. split; [exact Hstack|].
  split; [exact Hdirty | exact Htrace].
Defined.

Section Populate.
Context `{Collab : Collaborators}.

Lemma addTopLevelItems_run l :
  forall w, for_each l addTopLevelItem w
            = (Ret tt, set_topLevelItems (topLevelItems w ++ l) w).
Proof.
  induction l as [|i l IH]; intros w; cbn [for_each].
  - unfold ret, set_topLevelItems. rewrite app_nil_r. now rewrite world_eta.
  - unfold addTopLevelItem at 1. rewrite bind_modify, IH. wsimpl.
    rewrite <- app_assoc. reflexivity.
Qed.

(** X5: populating the tree appends the root nodes to the top level and
    sorts it; the node that comes first in that order becomes the only
    selected node, its page is loaded and the session is marked clean;
    with no node at all the selection is cleared and only the actions
    are updated.  No model object is changed. *)
Theorem populate_tree_selects_first_folder (w : World) (root_folders : list wref) :
  forallb (root_node w) (topLevelItems w ++ root_folders) = true ->
  exists w',
    populate_tree root_folders w = (Ret tt, w') /\
    topLevelItems w' = sort_labels (witems w) (topLevelItems w ++ root_folders) /\
    heap w' = heap w /\
    match topLevelItems w' with
    | [] =>
        selectedItems w' = [] /\ dirty w' = dirty w /\
        trace w' = trace w ++ [SortItems; SetCurrentItem None; UpdateActions [] false]
    | first :: _ =>
        In first (topLevelItems w ++ root_folders) /\
        selectedItems w' = [first] /\ dirty w' = false /\
        exists e, heap w !! data_of w first = Some e /\
                  stackIndex w' = page_of (kind e) /\
                  trace w' = trace w ++
                    [SortItems; SetCurrentItem (Some first);
                     PageLoad (page_of (kind e)) (data_of w first);
                     UpdateActions [data_of w first] true; CancelRecord]
    end.
Proof.
  intros Hroots. unfold populate_tree.
  rewrite (bind_run _ _ _ _ _ (addTopLevelItems_run root_folders w)).
  unfold topLevelItem. mnorm.
  set (w1 := sorted_world _).
  assert (Htop1 : topLevelItems w1
                  = sort_labels (witems w) (topLevelItems w ++ root_folders))
    by reflexivity.
  assert (Hheap1 : heap w1 = heap w) by reflexivity.
  assert (Hdirty1 : dirty w1 = dirty w) by reflexivity.
  assert (Htrace1 : trace w1 = trace w ++ [SortItems]) by reflexivity.
  assert (Hlook1 : forall i, witems w1 !! i =
            (fun x => set_w_children (sort_labels (witems w) (w_children x)) x)
              <$> witems w !! i).
  { intros i. unfold w1. rewrite sorted_world_lookup. reflexivity. }
  clearbody w1. wsimpl. rewrite <- Htop1.
  assert (Htl : forall i, In i (topLevelItems w1) ->
                          In i (topLevelItems w ++ root_folders)).
  { intros i. rewrite Htop1. apply sort_labels_In. }
  destruct (topLevelItems w1) as [|first tl'] eqn:Htl1.
  - change (nth_Z [] 0) with (@None nat). cbv iota.
    rewrite selectionChanged_empty by reflexivity.
    eexists. split; [reflexivity|]. wsimpl. rewrite Htl1.
    split; [reflexivity|]. split; [exact Hheap1|].
    split; [reflexivity|]. split; [exact Hdirty1|].
    rewrite Htrace1, <- !app_assoc. reflexivity.
  - change (nth_Z (first :: tl') 0) with (Some first). cbv iota.
    assert (Hfirst : In first (topLevelItems w ++ root_folders))
      by (apply Htl; now left).
    rewrite forallb_forall in Hroots. specialize (Hroots first Hfirst).
    unfold root_node in Hroots.
    destruct (witems w !! first) as [x|] eqn:Hx; [|discriminate].
    destruct (heap w !! w_data x) as [e|] eqn:He; [|discriminate].
    destruct (parent e) eqn:Hpar; [discriminate|].
    erewrite selectionChanged_single with (r := w_data x) (e := e); cycle 1.
    { unfold selection_ok. wsimpl. cbn [forallb].
      rewrite Hlook1, Hx. simpl. now rewrite Hheap1, He. }
    { unfold top_level, selected_data, data_of. wsimpl. cbn [map].
      rewrite Hlook1, Hx. simpl.
      unfold parent_of. rewrite Hheap1, He, Hpar. reflexivity. }
    { wsimpl. rewrite Hheap1. exact He. }
    eexists. split; [reflexivity|].
    unfold loaded_world. wsimpl. rewrite Htl1.
    split; [reflexivity|]. split; [exact Hheap1|].
    split; [exact Hfirst|]. split; [reflexivity|]. split; [reflexivity|].
    exists e. unfold data_of. rewrite Hx.
    split; [exact He|]. split; [reflexivity|].
    rewrite Htrace1, <- !app_assoc. reflexivity.
Qed.

End Populate.

Lemma populate_tree_selects_first_folder_witness :
  exists w',
    populate_tree (Collab := Concrete.collaborators) [0; 4]
      (mkWorld sample_heap sample_witems [0; 4] [] [] [] false 1
               [None; None; None] [])
    = (Ret tt, w') /\
    topLevelItems w' = [4; 0] /\ selectedItems w' = [4] /\ stackIndex w' = 0.
Proof.
  destruct (populate_tree_selects_first_folder (Collab := Concrete.collaborators)
              (mkWorld sample_heap sample_witems [0; 4] [] [] [] false 1
                       [None; None; None] [])
              [0; 4] eq_refl)
    as (w' & Hrun & Htop & _ & Hfirst).
  exists w'. split; [exact Hrun|].
  change (topLevelItems w' = [4; 0]) in Htop.
  rewrite Htop in Hfirst. destruct Hfirst as (_ & Hsel & _ & e & He & Hstack & _).
  split; [exact Htop|]. split; [exact Hsel|].
  injection He as <-. exact Hstack.
Defined.

(** ** Creating folders, phrases and scripts *)

Section Create.
Context `{Collab : Collaborators}.

(** The steps that [on_new_phrase] and [on_new_script] share, from the
    state [w] on. *)
Ltac new_leaf_run Hsel Hx Hpe :=
  match type of Hx with
  | witems ?w !! ?parent_item = Some ?x =>
    let Hlt := fresh "Hlt" in
    let Hplt := fresh "Hplt" in
    assert (Hlt : parent_item < length (witems w)) by exact (lookup_lt_Some _ _ _ Hx);
    assert (Hplt : w_data x < length (heap w)) by exact (lookup_lt_Some _ _ _ Hpe);
    unfold on_new_phrase, on_new_script, selected, monitor_suspend, monitor_unsuspend,
      Phrase_new, Script_new, PhraseWidgetItem, ScriptWidgetItem, new_widget_item,
      add_item;
    mnorm; wsimpl; rewrite Hsel; cbn [first_of __extractData]; mnorm;
    erewrite bind_wderef by (wsimpl; exact Hx);
    mnorm;
    erewrite bind_deref by (wsimpl; apply lookup_snoc_new);
    mnorm; cbn [title];
    erewrite bind_update_widget
      by (wsimpl; rewrite lookup_app_l by exact Hlt; exact Hx);
    mnorm;
    erewrite bind_update_entity by (wsimpl; apply lookup_snoc_new);
    wsimpl; rewrite insert_snoc_new;
    erewrite bind_update_entity
      by (wsimpl; rewrite lookup_app_l by exact Hplt; exact Hpe);
    erewrite bind_persist
      by (wsimpl; rewrite list_lookup_insert_ne by lia; apply lookup_snoc_new);
    mnorm; rewrite bind_setItemSelected; wsimpl;
    replace (remove_first parent_item [length (witems w)])
      with [length (witems w)]
      by (simpl; destruct (Nat.eqb_spec parent_item (length (witems w)));
          [lia | reflexivity]);
    (erewrite bind_run; cycle 1);
    [ eapply selectionChanged_single;
      [ unfold selection_ok; wsimpl; cbn [forallb];
        rewrite sorted_world_lookup; wsimpl;
        rewrite list_lookup_insert_ne by lia; rewrite lookup_snoc_new; simpl;
        unfold sorted_world; wsimpl;
        rewrite list_lookup_insert_ne by lia; rewrite lookup_snoc_new; reflexivity
      | unfold top_level, selected_data, data_of; wsimpl; cbn [map];
        rewrite sorted_world_lookup; wsimpl;
        rewrite list_lookup_insert_ne by lia; rewrite lookup_snoc_new; simpl;
        unfold parent_of, sorted_world; wsimpl;
        rewrite list_lookup_insert_ne by lia; rewrite lookup_snoc_new; simpl;
        destruct (Nat.eqb_spec (w_data x) (length (heap w))); [lia | reflexivity]
      | unfold sorted_world; wsimpl;
        rewrite list_lookup_insert_ne by lia; apply lookup_snoc_new ]
    | erewrite on_rename_run by reflexivity;
      eexists; eexists; split; [reflexivity|];
      unfold loaded_world; wsimpl; unfold sorted_world at 1; wsimpl;
      split; [reflexivity|]; split;
      [ rewrite sorted_world_lookup; wsimpl;
        rewrite list_lookup_insert_ne by lia; rewrite lookup_snoc_new; reflexivity |];
      split;
      [ rewrite sorted_world_lookup; wsimpl;
        rewrite list_lookup_insert_eq by (rewrite length_app; simpl; lia);
        reflexivity |];
      split;
      [ cbn [w_children set_w_children]; apply sort_labels_In, in_or_app; right;
        now left |];
      split; [reflexivity|]; split; [reflexivity|]; split; [reflexivity|];
      split; [reflexivity|];
      unfold sorted_world; wsimpl; rewrite <- !app_assoc; reflexivity ]
  end.




Lemma basename_aux_plain name :
  has_char "/" name = false ->
  forall acc, basename_aux acc name = (acc ++ name)%string.
Proof.
  induction name as [|c name IH]; intros Hn acc; simpl in *.
  - now rewrite string_app_nil_r.
  - apply orb_false_iff in Hn as [Hc Hn]. rewrite Hc.
    rewrite (IH Hn). now rewrite string_app_assoc.
Qed.

Lemma basename_aux_path dir name :
  has_char "/" name = false ->
  forall acc, basename_aux acc (dir ++ "/" ++ name) = name.
Proof.
  intros Hn. induction dir as [|c dir IH]; intros acc; simpl.
  - now rewrite (basename_aux_plain name Hn).
  - destruct (Ascii.eqb c "/"); apply IH.
Qed.

Lemma basename_of_path dir name :
  has_char "/" name = false ->
  basename (dir ++ "/" ++ name) = name.
Proof. intros Hn. apply basename_aux_path, Hn. Qed.

(** X9: a top-level folder created elsewhere gets the last component of
    the chosen directory as its title and the directory as its path, and
    joins the root folder list and the top-level nodes with a node of
    its own; the host is told that the configuration changed, but the
    folder is not persisted, the tree is not sorted and the selection
    stays as it was.  A dismissed directory dialog and a cancelled
    question change nothing beyond suspending and resuming the
    monitor. *)
Theorem new_topfolder_elsewhere_is_not_persisted (w : World) (chosen : string) :
  chosen <> EmptyString ->
  exists w',
    on_new_topfolder No chosen w = (Ret tt, w') /\
    heap w' = heap w ++
      [mkEntity KFolder (basename chosen) EmptyString None (Some chosen) [] [] []] /\
    witems w' = witems w ++
      [mkWidget None [] (basename chosen) (length (heap w))] /\
    cm_folders w' = cm_folders w ++ [length (heap w)] /\
    topLevelItems w' = topLevelItems w ++ [length (witems w)] /\
    selectedItems w' = selectedItems w /\
    trace w' = trace w ++ [MonitorSuspend; ConfigAltered true; MonitorUnsuspend] /\
    (forall dir name, chosen = (dir ++ "/" ++ name)%string ->
                      has_char "/" name = false -> basename chosen = name) /\
    on_new_topfolder No EmptyString w
    = (Ret tt, set_trace (trace w ++ [MonitorSuspend; MonitorUnsuspend]) w) /\
    on_new_topfolder Cancel chosen w
    = (Ret tt, set_trace (trace w ++ [MonitorSuspend; MonitorUnsuspend]) w).
Proof.
  intros Hchosen.
  eexists. split.
  { unfold on_new_topfolder, monitor_suspend, monitor_unsuspend, config_altered.
    rewrite bind_emit_event.
    destruct (String.eqb_spec chosen EmptyString) as [He|_]; [contradiction|].
    simpl negb. cbv iota.
    unfold Folder_new, FolderWidgetItem, new_widget_item, addTopLevelItem.
    mnorm.
    erewrite bind_deref by (wsimpl; apply lookup_snoc_new).
    mnorm. reflexivity. }
  wsimpl. cbn [title].
  split; [reflexivity|]. split; [reflexivity|]. split; [reflexivity|].
  split; [reflexivity|]. split; [reflexivity|].
  split; [rewrite <- !app_assoc; reflexivity|].
  split; [intros dir name -> Hn; exact (basename_of_path dir name Hn)|].
  split.
  - unfold on_new_topfolder, monitor_suspend, monitor_unsuspend.
    rewrite bind_emit_event. simpl negb. cbv iota.
    rewrite bind_ret. unfold emit_event, modify. wsimpl.
    rewrite <- !app_assoc. reflexivity.
  - unfold on_new_topfolder, monitor_suspend, monitor_unsuspend.
    rewrite bind_emit_event. unfold emit_event, modify. wsimpl.
    rewrite <- !app_assoc. reflexivity.
Qed.

(** ** Handlers called with nothing selected *)

(** X10: with nothing selected, New Folder fails on the first selected
    node before anything is done, while New Phrase and New Script fail
    on it after the monitor was suspended, which is then not resumed. *)
Theorem create_without_selection_raises (w : World) :
  selectedItems w = [] ->
  on_new_folder w = (Raise IndexError, w) /\
  on_new_phrase w = (Raise IndexError, set_trace (trace w ++ [MonitorSuspend]) w) /\
  on_new_script w = (Raise IndexError, set_trace (trace w ++ [MonitorSuspend]) w).
Proof.
  intros Hsel. split; [|split].
  - unfold on_new_folder, selected. rewrite bind_assoc, bind_get, bind_ret, Hsel.
    reflexivity.
  - unfold on_new_phrase, selected, monitor_suspend.
    rewrite bind_emit_event, bind_assoc, bind_get, bind_ret. wsimpl. rewrite Hsel.
    reflexivity.
  - unfold on_new_script, selected, monitor_suspend.
    rewrite bind_emit_event, bind_assoc, bind_get, bind_ret. wsimpl. rewrite Hsel.
    reflexivity.
Qed.

(** X11: with nothing selected, Rename, Clone and Paste fail on the
    first element of an empty list and leave the state as it was: the
    monitor is not suspended and the clipboard is kept. *)
Theorem rename_clone_paste_without_selection_raise (w : World) :
  selectedItems w = [] ->
  on_rename w = (Raise IndexError, w) /\
  on_clone w = (Raise IndexError, w) /\
  on_paste w = (Raise IndexError, w).
Proof.
  intros Hsel. split; [|split].
  - unfold on_rename, selected. rewrite bind_assoc, bind_get, bind_ret, Hsel.
    reflexivity.
  - unfold on_clone. rewrite (bind_run _ _ _ _ _ (getSelection_empty w Hsel)).
    reflexivity.
  - unfold on_paste, selected. rewrite bind_assoc, bind_get, bind_ret, Hsel.
    reflexivity.
Qed.

(** X12: a change of a node is acted on only for the label of the first
    selected node: a change of another node, or of another column, does
    nothing at all, and with nothing selected the handler fails on the
    first element of the empty selection. *)
Theorem item_changed_only_for_first_selected_label (w : World) (item : wref)
    (column : nat) :
  (selectedItems w = [] ->
   on_treeWidget_itemChanged item column w = (Raise IndexError, w)) /\
  (forall first rest,
      selectedItems w = first :: rest ->
      item <> first \/ column <> 0 ->
      on_treeWidget_itemChanged item column w = (Ret tt, w)).
Proof.
  split.
  - intros Hsel. unfold on_treeWidget_itemChanged, selected.
    rewrite bind_assoc, bind_get, bind_ret, Hsel. reflexivity.
  - intros first rest Hsel Hother. unfold on_treeWidget_itemChanged, selected.
    rewrite bind_assoc, bind_get, bind_ret, Hsel. cbn [first_of].
    rewrite bind_ret.
    replace (Nat.eqb item first && Nat.eqb column 0) with false; [reflexivity|].
    symmetry. apply andb_false_iff.
    destruct Hother as [H|H]; [left | right]; now apply Nat.eqb_neq.
Qed.

(** X13: with nothing selected, Copy does nothing; Cut replaces the
    clipboard by the empty list and tells the host that the
    configuration changed; a confirmed Delete removes nothing and tells
    the host the same; a selection change only updates the actions. *)
Theorem copy_cut_delete_without_selection (fuel : nat) (w : World) :
  selectedItems w = [] ->
  on_copy w = (Ret tt, w) /\
  on_cut fuel w
  = (Ret tt, set_trace (trace w ++ [MonitorSuspend; MonitorUnsuspend;
                                    ConfigAltered false])
               (set_cutCopiedItems [] w)) /\
  on_delete fuel Yes w
  = (Ret tt, set_trace (trace w ++ [MonitorSuspend; MonitorUnsuspend;
                                    ConfigAltered false]) w) /\
  on_treeWidget_itemSelectionChanged w
  = (Ret tt, set_trace (trace w ++ [UpdateActions [] false]) w).
Proof.
  intros Hsel.
  pose proof (getSelection_empty w Hsel) as Hget.
  split; [|split; [|split]].
  - unfold on_copy. rewrite (bind_run _ _ _ _ _ Hget). reflexivity.
  - unfold on_cut. rewrite (bind_run _ _ _ _ _ Hget).
    unfold monitor_suspend, monitor_unsuspend, config_altered, selected.
    rewrite bind_modify, bind_emit_event, bind_assoc, bind_get, bind_ret.
    wsimpl. rewrite Hsel. unfold top_level_filter. cbn [filter_m].
    rewrite bind_ret. cbn [for_each]. rewrite bind_ret, bind_emit_event.
    unfold emit_event, modify. wsimpl. rewrite <- !app_assoc. reflexivity.
  - unfold on_delete, selected, monitor_suspend, monitor_unsuspend, config_altered.
    rewrite bind_assoc, bind_get, bind_ret, Hsel.
    rewrite bind_emit_event, bind_ret. cbn [for_each]. rewrite bind_ret.
    rewrite bind_emit_event.
    unfold emit_event, modify. wsimpl. rewrite <- !app_assoc. reflexivity.
  - exact (selectionChanged_empty w Hsel).
Qed.

End Create.




Lemma new_topfolder_elsewhere_is_not_persisted_witness :
  exists w',
    on_new_topfolder (Collab := Concrete.collaborators) No "/home/me/Snippets"
      (sample_world [] []) = (Ret tt, w') /\
    title <$> heap w' !! 5 = Some "Snippets"%string /\
    path <$> heap w' !! 5 = Some (Some "/home/me/Snippets"%string) /\
    trace w' = [MonitorSuspend; ConfigAltered true; MonitorUnsuspend].
Proof.
  destruct (new_topfolder_elsewhere_is_not_persisted (Collab := Concrete.collaborators)
              (sample_world [] []) "/home/me/Snippets")
    as (w' & Hrun & Hheap & _ & _ & _ & _ & Htrace & Hbase & _).
  - discriminate.
  - exists w'. split; [exact Hrun|]. rewrite Hheap.
    split; [|split; [reflexivity | exact Htrace]].
    simpl. rewrite (Hbase "/home/me"%string "Snippets"%string eq_refl eq_refl).
    reflexivity.
Defined.

Lemma create_without_selection_raises_witness :
  on_new_phrase (Collab := Concrete.collaborators) (sample_world [] [])
  = (Raise IndexError, set_trace [MonitorSuspend] (sample_world [] [])).
Proof.
  exact (proj1 (proj2 (create_without_selection_raises
                         (Collab := Concrete.collaborators)
                         (sample_world [] []) eq_refl))).
Defined.

Lemma rename_clone_paste_without_selection_raise_witness :
  on_paste (Collab := Concrete.collaborators) (sample_world [] [1])
  = (Raise IndexError, sample_world [] [1]).
Proof.
  exact (proj2 (proj2 (rename_clone_paste_without_selection_raise
                         (Collab := Concrete.collaborators)
                         (sample_world [] [1]) eq_refl))).
Defined.

Lemma copy_cut_delete_without_selection_witness :
  cutCopiedItems (snd (on_cut (Collab := Concrete.collaborators) 0
                         (sample_world [] [1]))) = [].
Proof.
  destruct (copy_cut_delete_without_selection (Collab := Concrete.collaborators) 0
              (sample_world [] [1]) eq_refl) as (_ & Hcut & _).
  rewrite Hcut. reflexivity.
Defined.

(** ** Clone *)

Section Clone.
Context `{Collab : Collaborators}.


(** X15: Clone with a top-level node first in the selection fails on the
    missing parent node before anything is changed: no object is made
    and the monitor is not suspended. *)
Theorem clone_of_top_level_item_raises (w : World) (first : wref)
    (rest : list wref) (x : WidgetItem) :
  selection_ok w = true ->
  top_level (heap w) (selected_data w) <> [] ->
  selectedItems w = first :: rest ->
  witems w !! first = Some x ->
  w_parent x = None ->
  on_clone w = (Raise AttributeError, w).
Proof.
  intros Hok Htop Hsel Hx Hpar.
  unfold on_clone.
  rewrite (bind_run _ _ _ _ _ (__getSelection_run w Hok)).
  destruct (top_level (heap w) (selected_data w)) as [|source others];
    [contradiction|].
  cbn [first_of]. unfold selected. mnorm. rewrite Hsel. cbn [first_of]. mnorm.
  rewrite (bind_wderef _ _ _ _ Hx). rewrite Hpar. reflexivity.
Qed.

End Clone.


Lemma clone_of_top_level_item_raises_witness :
  on_clone (Collab := Concrete.collaborators) (sample_world [4] [])
  = (Raise AttributeError, sample_world [4] []).
Proof.
  apply (clone_of_top_level_item_raises (Collab := Concrete.collaborators)
           (sample_world [4] []) 4 [] (mkWidget None [] "Home" 4));
    [reflexivity | discriminate | reflexivity | reflexivity | reflexivity].
Defined.

(** ** Cut, Delete and the removal of a node *)

Lemma index_of_range x l :
  mem x l = true -> (0 <= index_of x l < Z.of_nat (length l))%Z.
Proof.
  unfold mem. induction l as [|y l IH]; simpl; [discriminate|].
  destruct (Nat.eqb x y); simpl; [lia|].
  intros H. specialize (IH H).
  destruct (Z.ltb_spec (index_of x l) 0); lia.
Qed.

Lemma take_at_index_of x l : take_at (index_of x l) l = remove_first x l.
Proof.
  induction l as [|y l IH]; [reflexivity|].
  simpl index_of. simpl remove_first.
  destruct (Nat.eqb x y); [reflexivity|].
  rewrite <- IH. unfold take_at.
  destruct (Z.ltb_spec (index_of x l) 0) as [Hneg|Hpos].
  - reflexivity.
  - destruct (Z.ltb_spec (index_of x l + 1) 0); [lia|].
    replace (Z.to_nat (index_of x l + 1)) with (S (Z.to_nat (index_of x l))) by lia.
    reflexivity.
Qed.

Lemma remove_first_length x l :
  mem x l = true -> S (length (remove_first x l)) = length l.
Proof.
  unfold mem. induction l as [|y l IH]; simpl; [discriminate|].
  destruct (Nat.eqb x y); simpl; [reflexivity|].
  intros H. now rewrite (IH H).
Qed.

Lemma nth_Z_min_empty {A} idx : nth_Z (@nil A) (Z.min idx (0 - 1)) = None.
Proof. unfold nth_Z. destruct (Z.ltb_spec (Z.min idx (0 - 1)) 0); [reflexivity | lia]. Qed.

Lemma nth_Z_min_In (l : list nat) idx :
  l <> [] -> (0 <= idx)%Z ->
  exists c, nth_Z l (Z.min idx (Z.of_nat (length l) - 1)) = Some c /\ In c l.
Proof.
  intros Hl Hidx. unfold nth_Z.
  assert (0 < length l) by (destruct l; [contradiction | simpl; lia]).
  destruct (Z.ltb_spec (Z.min idx (Z.of_nat (length l) - 1)) 0); [lia|].
  destruct (lookup_lt_is_Some_2 l (Z.to_nat (Z.min idx (Z.of_nat (length l) - 1))))
    as [c Hc]; [lia|].
  exists c. split; [exact Hc|].
  apply list_elem_of_In. exact (list_elem_of_lookup_2 _ _ _ Hc).
Qed.

Section Removal.
Context `{Collab : Collaborators}.

(** The node the cursor lands on after a removal. *)
Lemma cursor_after_removal ws remaining idx :
  (0 <= idx)%Z ->
  match remaining with
  | [] => True
  | _ :: _ =>
      exists c, nth_Z (sort_labels ws remaining)
                      (Z.min idx (Z.of_nat (length (sort_labels ws remaining)) - 1))
                = Some c /\ In c remaining
  end.
Proof.
  intros Hidx. destruct remaining as [|r remaining]; [exact I|].
  destruct (nth_Z_min_In (sort_labels ws (r :: remaining)) idx) as (c & Hc & Hin).
  - intros H. apply sort_labels_nil in H. discriminate.
  - exact Hidx.
  - exists c. split; [exact Hc|]. now apply sort_labels_In in Hin.
Qed.

Lemma removeChild_children w p i xp :
  witems w !! p = Some xp ->
  (exists xi, witems w !! i = Some xi) ->
  mem i (w_children xp) = true ->
  exists ws xp',
    removeChild p i w = (Ret tt, set_witems ws w) /\
    ws !! p = Some xp' /\
    w_children xp' = remove_first i (w_children xp).
Proof.
  intros Hp [xi Hi] Hmem. unfold removeChild.
  rewrite (bind_wderef _ _ _ _ Hp), Hmem.
  rewrite (bind_update_widget _ _ _ _ _ Hp).
  assert (Hi1 : exists xi',
             (<[p := set_w_children (remove_first i (w_children xp)) xp]> (witems w)) !! i
             = Some xi' /\
             (p = i -> w_children xi' = remove_first i (w_children xp))).
  { destruct (Nat.eq_dec p i) as [->|Hne].
    - rewrite list_lookup_insert_eq by exact (lookup_lt_Some _ _ _ Hp). eauto.
    - rewrite list_lookup_insert_ne by exact Hne. exists xi. split; [exact Hi|].
      intros; contradiction. }
  destruct Hi1 as (xi' & Hi1 & Hsame).
  rewrite (update_widget_run
             (set_witems (<[p := set_w_children (remove_first i (w_children xp)) xp]>
                            (witems w)) w) i xi' _ Hi1).
  wsimpl.
  destruct (Nat.eq_dec p i) as [->|Hne].
  - eexists. eexists. split; [reflexivity|]. split.
    + apply list_lookup_insert_eq. rewrite length_insert.
      exact (lookup_lt_Some _ _ _ Hp).
    + simpl. now apply Hsame.
  - eexists. eexists. split; [reflexivity|]. split.
    + rewrite list_lookup_insert_ne by congruence.
      apply list_lookup_insert_eq. exact (lookup_lt_Some _ _ _ Hp).
    + reflexivity.
Qed.

(** X18: after a node was removed, the selection is one of the nodes
    that were beside it, if there are any; else it is the parent node,
    or nothing at all when the removed node was the last top-level
    node. *)
Theorem removeItem_selects_neighbour (fuel : nat) (w : World)
    (widgetItem : wref) (x : WidgetItem) (t : Shape) :
  witems w !! widgetItem = Some x ->
  root t = w_data x ->
  shape_ok (heap w) t = true ->
  height t <= fuel ->
  removable w widgetItem = true ->
  mem widgetItem (siblings w widgetItem) = true ->
  exists w',
    __removeItem fuel widgetItem w = (Ret tt, w') /\
    match remove_first widgetItem (siblings w widgetItem) with
    | [] => selectedItems w' = match w_parent x with Some p => [p] | None => [] end
    | _ :: _ =>
        exists c, selectedItems w' = [c] /\
                  In c (remove_first widgetItem (siblings w widgetItem))
    end.
Proof.
  intros Hx Hroot Hok Hh Hrem Hsib.
  unfold siblings in *. rewrite Hx in *.
  unfold removable in Hrem. rewrite Hx in Hrem.
  destruct (w_parent x) as [p|] eqn:Hpar.
  - destruct (witems w !! p) as [xp|] eqn:Hp; [|discriminate].
    destruct (heap w !! w_data x) as [e|] eqn:He; [|discriminate].
    destruct (parent e) as [ip|] eqn:Hip; [|discriminate].
    destruct (heap w !! ip) as [pe|] eqn:Hpe; [|discriminate].
    unfold __removeItem. rewrite (bind_wderef _ _ _ _ Hx). rewrite Hpar.
    cbn [__extractData]. rewrite bind_assoc, (bind_wderef _ _ _ _ Hx), bind_ret.
    rewrite <- Hroot.
    rewrite (bind_run _ _ _ _ _ (__deleteHotkeys_run fuel t w Hok Hh)).
    rewrite Hroot.
    set (w1 := set_trace _ w).
    unfold indexOfChild. rewrite !bind_assoc.
    rewrite (bind_wderef _ _ w1 xp Hp). rewrite bind_ret, bind_assoc.
    destruct (removeChild_children w1 p widgetItem xp Hp (ex_intro _ x Hx) Hsib)
      as (ws & xp' & Hrc & Hp' & Hchildren).
    rewrite (bind_run _ _ _ _ _ Hrc).
    rewrite bind_assoc.
    rewrite (bind_deref _ _ (set_witems ws w1) e He).
    rewrite Hip. rewrite bind_assoc.
    rewrite (bind_run _ _ _ _ _
               (remove_from_parent_run (set_witems ws w1) (w_data x) e ip pe Hpe Hrem)).
    unfold remove_data. mnorm.
    set (w2 := sorted_world _).
    assert (Hp2 : witems w2 !! p =
                  Some (set_w_children (sort_labels ws (w_children xp')) xp')).
    { unfold w2. rewrite sorted_world_lookup. wsimpl. rewrite Hp'. reflexivity. }
    clearbody w2.
    unfold childCount. rewrite bind_assoc, (bind_wderef _ _ w2 _ Hp2), bind_ret.
    cbn [w_children set_w_children]. rewrite Hchildren.
    pose proof (index_of_range _ _ Hsib) as Hidx.
    pose proof (cursor_after_removal ws (remove_first widgetItem (w_children xp))
                  (index_of widgetItem (w_children xp)) (proj1 Hidx)) as Hcur.
    destruct (remove_first widgetItem (w_children xp)) as [|r remaining] eqn:Hrest.
    + change (sort_labels ws []) with (@nil nat). cbn [length Z.of_nat Z.gtb Z.compare].
      eexists. split; [reflexivity|]. reflexivity.
    + destruct Hcur as (c & Hc & Hin).
      assert (Hpos : (Z.of_nat (length (sort_labels ws (r :: remaining))) >? 0)%Z = true).
      { rewrite sort_labels_length. simpl length. apply Z.gtb_lt. lia. }
      rewrite Hpos.
      unfold child. rewrite bind_assoc, (bind_wderef _ _ w2 _ Hp2), bind_ret.
      cbn [w_children set_w_children]. rewrite Hchildren, Hc.
      eexists. split; [reflexivity|]. exists c. split; [reflexivity | exact Hin].
  - unfold __removeItem. rewrite (bind_wderef _ _ _ _ Hx). rewrite Hpar.
    cbn [__extractData]. rewrite bind_assoc, (bind_wderef _ _ _ _ Hx), bind_ret.
    rewrite <- Hroot.
    rewrite (bind_run _ _ _ _ _ (__deleteHotkeys_run fuel t w Hok Hh)).
    unfold indexOfTopLevelItem, takeTopLevelItem, remove_data, topLevelItemCount,
      topLevelItem.
    mnorm. wsimpl. rewrite Hroot, Hrem. mnorm.
    eexists. split; [reflexivity|]. wsimpl. unfold sorted_world. wsimpl.
    rewrite take_at_index_of.
    pose proof (index_of_range _ _ Hsib) as Hidx.
    pose proof (cursor_after_removal (witems w)
                  (remove_first widgetItem (topLevelItems w))
                  (index_of widgetItem (topLevelItems w)) (proj1 Hidx)) as Hcur.
    destruct (remove_first widgetItem (topLevelItems w)) as [|r remaining] eqn:Hrest.
    + change (sort_labels (witems w) []) with (@nil nat). cbn [length Z.of_nat].
      now rewrite nth_Z_min_empty.
    + destruct Hcur as (c & Hc & Hin). rewrite Hc.
      exists c. split; [reflexivity | exact Hin].
Qed.


(** X17: a Delete that is not confirmed removes nothing: whatever is
    selected, the state afterwards differs only by one suspend and one
    resume of the monitor, and the host is not notified. *)
Theorem delete_declined_changes_nothing (fuel : nat) (result : Button) (w : World) :
  selection_ok w = true ->
  result <> Yes ->
  on_delete fuel result w
  = (Ret tt, set_trace (trace w ++ [MonitorSuspend; MonitorUnsuspend]) w).
Proof.
  intros Hok Hres.
  unfold on_delete, selected, monitor_suspend, monitor_unsuspend.
  rewrite bind_assoc, bind_get, bind_ret, bind_emit_event.
  assert (Hpre : forall (k : unit -> M unit),
    bind (match selectedItems w with
          | [widget_item] =>
              data <- __extractData (Some widget_item) ;;
              _ <- deref data ;; ret tt
          | _ => ret tt
          end) k (set_trace (trace w ++ [MonitorSuspend]) w)
    = k tt (set_trace (trace w ++ [MonitorSuspend]) w)).
  { intros k. destruct (selectedItems w) as [|i [|j l]] eqn:Hsel;
      try (rewrite bind_ret; reflexivity).
    destruct (selection_ok_spec w i Hok) as (x & e & Hx & He);
      [rewrite Hsel; now left|].
    cbn [__extractData]. rewrite !bind_assoc.
    erewrite bind_wderef by (wsimpl; exact Hx).
    rewrite bind_ret, bind_assoc.
    erewrite bind_deref by (wsimpl; exact He).
    rewrite bind_ret. reflexivity. }
  rewrite Hpre.
  destruct result; [contradiction| |];
    rewrite bind_ret, bind_emit_event; unfold ret; wsimpl;
    rewrite <- !app_assoc; reflexivity.
Qed.

(** X19: removing a top-level node whose object is not in the root
    folder list fails with [ValueError] half way: the hotkeys are
    already unregistered and the node is already taken from the top
    level, but the stored data is not removed, no object and no node is
    changed, and no node is made the current one. *)
Theorem removeItem_unlisted_root_fails_midway (fuel : nat) (w : World)
    (widgetItem : wref) (x : WidgetItem) (t : Shape) :
  witems w !! widgetItem = Some x ->
  w_parent x = None ->
  root t = w_data x ->
  shape_ok (heap w) t = true ->
  height t <= fuel ->
  mem (w_data x) (cm_folders w) = false ->
  exists w',
    __removeItem fuel widgetItem w = (Raise ValueError, w') /\
    trace w' = trace w ++
      map HotkeyRemoved (List.filter (hotkey_at (heap w)) (nodes t)) /\
    topLevelItems w'
      = take_at (index_of widgetItem (topLevelItems w)) (topLevelItems w) /\
    heap w' = heap w /\
    cm_folders w' = cm_folders w /\
    witems w' = witems w.
Proof.
  intros Hx Hpar Hroot Hok Hh Hmem.
  unfold __removeItem. rewrite (bind_wderef _ _ _ _ Hx). rewrite Hpar.
  cbn [__extractData]. rewrite bind_assoc, (bind_wderef _ _ _ _ Hx), bind_ret.
  rewrite <- Hroot.
  rewrite (bind_run _ _ _ _ _ (__deleteHotkeys_run fuel t w Hok Hh)).
  unfold indexOfTopLevelItem, takeTopLevelItem.
  mnorm. wsimpl. rewrite Hroot, Hmem.
  eexists. split; [reflexivity|]. wsimpl.
  repeat split; reflexivity.
Qed.

End Removal.

Lemma removeItem_selects_neighbour_witness :
  exists w',
    __removeItem (Collab := Concrete.collaborators) 1 3 (sample_world [3] [])
    = (Ret tt, w') /\
    selectedItems w' = [2].
Proof.
  destruct (removeItem_selects_neighbour (Collab := Concrete.collaborators)
              1 (sample_world [3] []) 3 (mkWidget (Some 2) [] "Run" 3) (Node 3 [] [])
              eq_refl eq_refl eq_refl (le_n 1) eq_refl eq_refl)
    as (w' & Hrun & Hsel).
  exists w'. split; [exact Hrun | exact Hsel].
Defined.


Lemma delete_declined_changes_nothing_witness :
  on_delete (Collab := Concrete.collaborators) 0 No (sample_world [0] [])
  = (Ret tt, set_trace [MonitorSuspend; MonitorUnsuspend] (sample_world [0] [])).
Proof.
  apply (delete_declined_changes_nothing (Collab := Concrete.collaborators)
           0 No (sample_world [0] [])); [reflexivity | discriminate].
Defined.

Lemma removeItem_unlisted_root_fails_midway_witness :
  exists w',
    __removeItem (Collab := Concrete.collaborators) 1 4
      (mkWorld sample_heap sample_witems [0] [4; 0] [4] [] false 0
               [None; None; None] [])
    = (Raise ValueError, w') /\
    topLevelItems w' = [0] /\ cm_folders w' = [0] /\ trace w' = [].
Proof.
  destruct (removeItem_unlisted_root_fails_midway (Collab := Concrete.collaborators)
              1 (mkWorld sample_heap sample_witems [0] [4; 0] [4] [] false 0
                         [None; None; None] [])
              4 (mkWidget None [] "Home" 4) (Node 4 [] [])
              eq_refl eq_refl eq_refl eq_refl (le_n 1) eq_refl)
    as (w' & Hrun & Htrace & Htop & _ & Hcm & _).
  exists w'. split; [exact Hrun|]. split; [exact Htop|]. split; [exact Hcm|].
  exact Htrace.
Defined.

Lemma filter_all_true {A} (f : A -> bool) l :
  (forall x, In x l -> f x = true) -> List.filter f l = l.
Proof.
  induction l as [|a l IH]; intros H; simpl; [reflexivity|].
  rewrite (H a (or_introl eq_refl)). f_equal. apply IH. intros x Hx. apply H. now right.
Qed.

Lemma top_level_nodes_idempotent ws l :
  top_level_nodes ws (top_level_nodes ws l) = top_level_nodes ws l.
Proof.
  unfold top_level_nodes at 1. apply filter_all_true. intros f Hf.
  unfold top_level_nodes in Hf. apply filter_In in Hf as [_ Hf].
  apply negb_true_iff in Hf. apply negb_true_iff.
  destruct (w_parent_of ws f) as [p|]; [|reflexivity]. simpl in *.
  apply mem_false in Hf. apply not_true_is_false. intros Hm.
  apply mem_In in Hm. apply filter_In in Hm as [Hm _]. contradiction.
Qed.



(** ** Paste of phrases and scripts *)

Section PasteLeaves.
Context `{Collab : Collaborators}.

Lemma paste_one_leaf wk parent_item tgt item :
  valid_node (witems wk) parent_item = true ->
  folder_at (heap wk) tgt = true ->
  leaf_at (heap wk) item = true ->
  paste_one parent_item tgt item wk
  = (Ret (length (witems wk)), paste_leaf parent_item tgt wk item).
Proof.
  intros Hp Htgt Hleaf.
  unfold valid_node in Hp. destruct (witems wk !! parent_item) as [xp|] eqn:Hxp;
    [|discriminate].
  unfold folder_at in Htgt. destruct (heap wk !! tgt) as [te|] eqn:Hte;
    [|discriminate].
  unfold leaf_at in Hleaf. destruct (heap wk !! item) as [e|] eqn:He;
    [|discriminate].
  apply negb_true_iff in Hleaf.
  assert (Hne : item <> tgt) by (intros ->; congruence).
  assert (Hlt : parent_item < length (witems wk)) by exact (lookup_lt_Some _ _ _ Hxp).
  assert (Hstep : forall (k : wref -> M wref),
    bind (new_item <- new_widget_item (Some parent_item) item ;;
          add_item tgt item ;; ret new_item) k wk
    = k (length (witems wk))
        (set_heap (reparent (heap wk) tgt item)
           (set_witems (Concrete.attach (heap wk) (witems wk) parent_item item) wk))).
  { intros k. unfold new_widget_item, add_item. mnorm.
    rewrite (bind_deref _ _ _ _ He). mnorm.
    erewrite bind_update_widget
      by (wsimpl; rewrite lookup_app_l by exact Hlt; exact Hxp).
    mnorm.
    erewrite bind_update_entity by (wsimpl; exact He).
    erewrite bind_update_entity
      by (wsimpl; rewrite list_lookup_insert_ne by exact Hne; exact Hte).
    mnorm. wsimpl. f_equal.
    unfold reparent, Concrete.attach. rewrite He. cbv zeta.
    rewrite list_lookup_insert_ne by exact Hne. rewrite Hte.
    rewrite lookup_app_l by exact Hlt. rewrite Hxp. rewrite Hleaf.
    unfold enlist, set_heap, set_witems. simpl. reflexivity. }
  unfold paste_one, FolderWidgetItem, PhraseWidgetItem, ScriptWidgetItem.
  rewrite (bind_deref _ _ _ _ He). rewrite Hleaf.
  assert (Hbr : (if is_phrase e
                 then new_item <- new_widget_item (Some parent_item) item ;;
                      add_item tgt item ;; ret new_item
                 else new_item <- new_widget_item (Some parent_item) item ;;
                      add_item tgt item ;; ret new_item)
                = (new_item <- new_widget_item (Some parent_item) item ;;
                   add_item tgt item ;; ret new_item))
    by (destruct (is_phrase e); reflexivity).
  rewrite Hbr, Hstep.
  assert (He' : heap (set_heap (reparent (heap wk) tgt item)
                   (set_witems (Concrete.attach (heap wk) (witems wk) parent_item item) wk))
                !! item = Some (set_parent (Some tgt) e)).
  { wsimpl. rewrite (reparent_lookup _ _ _ e te item He Hne Hte).
    destruct (Nat.eqb_spec item tgt); [contradiction|]. now rewrite Nat.eqb_refl. }
  rewrite (bind_persist _ _ _ _ He'). mnorm.
  unfold paste_leaf, path_of. rewrite He. reflexivity.
Qed.


Lemma leaf_at_alt h r : leaf_at h r = valid_ref h r && negb (folder_at h r).
Proof. unfold leaf_at, valid_ref, folder_at. now destruct (h !! r). Qed.

Lemma reparent_leaf_at h tgt item r :
  leaf_at (reparent h tgt item) r = leaf_at h r.
Proof.
  rewrite !leaf_at_alt.
  destruct (reparent_kind h tgt item r) as [-> ->]. reflexivity.
Qed.

Lemma attach_length h ws p obj : length (Concrete.attach h ws p obj) = S (length ws).
Proof.
  unfold Concrete.attach. cbv zeta.
  destruct ((ws ++ _) !! p); rewrite ?length_insert, length_app; simpl; lia.
Qed.

Lemma attach_lookup_old h ws p obj j :
  j < length ws -> j <> p ->
  Concrete.attach h ws p obj !! j = ws !! j.
Proof.
  intros Hj Hne. unfold Concrete.attach. cbv zeta.
  destruct ((ws ++ _) !! p).
  - rewrite list_lookup_insert_ne by congruence. now rewrite lookup_app_l.
  - now rewrite lookup_app_l.
Qed.

Lemma attach_lookup_new h ws p obj :
  p < length ws ->
  Concrete.attach h ws p obj !! length ws
  = Some (mkWidget (Some p) [] (title_of h obj) obj).
Proof.
  intros Hp. unfold Concrete.attach, title_of. cbv zeta.
  destruct ((ws ++ _) !! p).
  - rewrite list_lookup_insert_ne by lia. apply lookup_snoc_new.
  - apply lookup_snoc_new.
Qed.

Lemma attach_valid h ws p obj j :
  valid_node ws j = true -> valid_node (Concrete.attach h ws p obj) j = true.
Proof.
  unfold valid_node. intros Hj.
  destruct (ws !! j) as [x|] eqn:Hx; [|discriminate].
  assert (Hlt : j < length (Concrete.attach h ws p obj)).
  { rewrite attach_length. apply lookup_lt_Some in Hx. lia. }
  destruct (lookup_lt_is_Some_2 _ _ Hlt) as [y ->]. reflexivity.
Qed.

Lemma reparent_title h tgt item r :
  title_of (reparent h tgt item) r = title_of h r.
Proof.
  unfold reparent, title_of.
  destruct (h !! item) as [e|] eqn:He; [|reflexivity]. cbv zeta.
  assert (Hli : item < length h) by exact (lookup_lt_Some _ _ _ He).
  assert (Hitem : forall q,
            title <$> <[item := set_parent (Some tgt) e]> h !! q = title <$> h !! q).
  { intros q. destruct (Nat.eq_dec item q) as [->|Hq].
    - rewrite list_lookup_insert_eq by exact Hli. now rewrite He.
    - now rewrite list_lookup_insert_ne. }
  assert (Hgoal : forall h' : list Entity,
            (forall q, title <$> h' !! q = title <$> h !! q) ->
            match h' !! r with Some e0 => title e0 | None => EmptyString end =
            match h !! r with Some e0 => title e0 | None => EmptyString end).
  { intros h' Hh'. specialize (Hh' r).
    destruct (h' !! r), (h !! r); simpl in Hh'; congruence. }
  apply Hgoal. intros q.
  destruct (<[item := set_parent (Some tgt) e]> h !! tgt) as [te|] eqn:Hte;
    [|apply Hitem].
  destruct (Nat.eq_dec tgt q) as [->|Hq].
  - rewrite list_lookup_insert_eq by exact (lookup_lt_Some _ _ _ Hte).
    rewrite <- Hitem, Hte. simpl. f_equal. unfold enlist.
    now destruct (is_folder e).
  - rewrite list_lookup_insert_ne by exact Hq. apply Hitem.
Qed.

Lemma paste_leaves_loop parent_item tgt clip : forall wk,
  valid_node (witems wk) parent_item = true ->
  folder_at (heap wk) tgt = true ->
  forallb (leaf_at (heap wk)) clip = true ->
  map_m (paste_one parent_item tgt) clip wk
  = (Ret (seq (length (witems wk)) (length clip)),
     fold_left (paste_leaf parent_item tgt) clip wk).
Proof.
  induction clip as [|a l IH]; intros wk Hp Htgt Hall; [reflexivity|].
  simpl in Hall. apply andb_true_iff in Hall as [Ha Hall].
  cbn [map_m fold_left].
  rewrite (bind_run _ _ _ _ _ (paste_one_leaf wk parent_item tgt a Hp Htgt Ha)).
  erewrite bind_run; cycle 1.
  { apply IH.
    - unfold paste_leaf. wsimpl. apply attach_valid, Hp.
    - unfold paste_leaf. wsimpl.
      destruct (reparent_kind (heap wk) tgt a tgt) as [-> _]. exact Htgt.
    - unfold paste_leaf. wsimpl. rewrite forallb_forall in Hall |- *.
      intros i Hi. rewrite reparent_leaf_at. apply Hall, Hi. }
  unfold ret. f_equal. f_equal.
  unfold paste_leaf at 1. wsimpl. rewrite attach_length. reflexivity.
Qed.

Lemma paste_leaves_heap parent_item tgt clip : forall wk,
  heap (fold_left (paste_leaf parent_item tgt) clip wk)
  = reparent_all tgt clip (heap wk).
Proof. induction clip as [|a l IH]; intros wk; [reflexivity|]. simpl. now rewrite IH. Qed.

Lemma paste_leaves_trace parent_item tgt clip : forall wk,
  trace (fold_left (paste_leaf parent_item tgt) clip wk)
  = trace wk ++ map (fun i => Persist i (path_of (heap wk) i)) clip.
Proof.
  induction clip as [|a l IH]; intros wk; simpl; [now rewrite app_nil_r|].
  rewrite IH. unfold paste_leaf at 1 2. wsimpl. rewrite <- app_assoc. simpl.
  f_equal. f_equal. apply map_ext. intros i. now rewrite reparent_path.
Qed.

Lemma paste_leaves_frame parent_item tgt clip : forall wk,
  let w1 := fold_left (paste_leaf parent_item tgt) clip wk in
  selectedItems w1 = selectedItems wk /\ cutCopiedItems w1 = cutCopiedItems wk /\
  cm_folders w1 = cm_folders wk /\ topLevelItems w1 = topLevelItems wk /\
  dirty w1 = dirty wk /\ stackIndex w1 = stackIndex wk /\
  pageItems w1 = pageItems wk /\
  length (witems w1) = length (witems wk) + length clip.
Proof.
  induction clip as [|a l IH]; intros wk; cbv zeta; simpl.
  - repeat split; lia.
  - destruct (IH (paste_leaf parent_item tgt wk a))
      as (-> & -> & -> & -> & -> & -> & -> & ->).
    unfold paste_leaf. wsimpl. rewrite attach_length.
    repeat split; lia.
Qed.

Lemma paste_leaves_old_nodes parent_item tgt clip : forall wk j,
  j < length (witems wk) -> j <> parent_item ->
  witems (fold_left (paste_leaf parent_item tgt) clip wk) !! j = witems wk !! j.
Proof.
  induction clip as [|a l IH]; intros wk j Hj Hne; [reflexivity|].
  simpl. rewrite IH; [|unfold paste_leaf; wsimpl; rewrite attach_length; lia | exact Hne].
  unfold paste_leaf. wsimpl. now apply attach_lookup_old.
Qed.

Lemma paste_leaves_new_nodes parent_item tgt clip : forall wk k i,
  parent_item < length (witems wk) ->
  clip !! k = Some i ->
  witems (fold_left (paste_leaf parent_item tgt) clip wk) !! (length (witems wk) + k)
  = Some (mkWidget (Some parent_item) [] (title_of (heap wk) i) i).
Proof.
  induction clip as [|a l IH]; intros wk k i Hp Hk; [discriminate|].
  simpl. destruct k as [|k].
  - injection Hk as ->. rewrite Nat.add_0_r.
    rewrite paste_leaves_old_nodes;
      [|unfold paste_leaf; wsimpl; rewrite attach_length; lia | lia].
    unfold paste_leaf. wsimpl. now apply attach_lookup_new.
  - simpl in Hk.
    assert (Hlen : length (witems (paste_leaf parent_item tgt wk a))
                   = S (length (witems wk)))
      by (unfold paste_leaf; wsimpl; apply attach_length).
    assert (Hheap : heap (paste_leaf parent_item tgt wk a)
                    = reparent (heap wk) tgt a) by reflexivity.
    specialize (IH (paste_leaf parent_item tgt wk a) k i).
    rewrite Hlen, Hheap in IH.
    replace (length (witems wk) + S k) with (S (length (witems wk)) + k) by lia.
    rewrite IH; [|lia | exact Hk].
    now rewrite reparent_title.
Qed.


(** *** The objects after the loop *)

Lemma reparent_kind_of h tgt item r :
  kind_of (reparent h tgt item) r = kind_of h r.
Proof.
  unfold reparent, kind_of.
  destruct (h !! item) as [e|] eqn:He; [|reflexivity]. cbv zeta.
  assert (Hli : item < length h) by exact (lookup_lt_Some _ _ _ He).
  assert (Hitem : forall q,
            kind <$> <[item := set_parent (Some tgt) e]> h !! q = kind <$> h !! q).
  { intros q. destruct (Nat.eq_dec item q) as [->|Hq].
    - rewrite list_lookup_insert_eq by exact Hli. now rewrite He.
    - now rewrite list_lookup_insert_ne. }
  assert (Hgoal : forall h' : list Entity,
            (forall q, kind <$> h' !! q = kind <$> h !! q) ->
            match h' !! r with Some e0 => kind e0 | None => KScript end =
            match h !! r with Some e0 => kind e0 | None => KScript end).
  { intros h' Hh'. specialize (Hh' r).
    destruct (h' !! r), (h !! r); simpl in Hh'; congruence. }
  apply Hgoal. intros q.
  destruct (<[item := set_parent (Some tgt) e]> h !! tgt) as [te|] eqn:Hte;
    [|apply Hitem].
  destruct (Nat.eq_dec tgt q) as [->|Hq].
  - rewrite list_lookup_insert_eq by exact (lookup_lt_Some _ _ _ Hte).
    rewrite <- Hitem, Hte. simpl. f_equal. apply enlist_fields.
  - rewrite list_lookup_insert_ne by exact Hq. apply Hitem.
Qed.

Lemma reparent_leaf h tgt item :
  leaf_at h item = true -> folder_at h tgt = true ->
  parent_of (reparent h tgt item) item = Some tgt /\
  items_of (reparent h tgt item) tgt = items_of h tgt ++ [item].
Proof.
  unfold leaf_at, folder_at. intros Hleaf Htgt.
  destruct (h !! item) as [e|] eqn:He; [|discriminate].
  destruct (h !! tgt) as [te|] eqn:Hte; [|discriminate].
  apply negb_true_iff in Hleaf.
  assert (Hne : item <> tgt) by (intros ->; congruence).
  unfold parent_of, items_of.
  rewrite !(reparent_lookup _ _ _ e te _ He Hne Hte).
  rewrite Nat.eqb_refl. destruct (Nat.eqb_spec item tgt); [contradiction|].
  rewrite Nat.eqb_refl, Hte, Hleaf. auto.
Qed.

Section Reparented.
Variable tgt : ref.

Lemma reparent_all_leaf_at l : forall h r, leaf_at (reparent_all tgt l h) r = leaf_at h r.
Proof.
  induction l as [|a l IH]; intros h r; [reflexivity|].
  simpl. now rewrite IH, reparent_leaf_at.
Qed.

Lemma reparent_all_folder_at l : forall h r, folder_at (reparent_all tgt l h) r = folder_at h r.
Proof.
  induction l as [|a l IH]; intros h r; [reflexivity|].
  simpl. rewrite IH. apply reparent_kind.
Qed.

Lemma reparent_all_path l : forall h r, path_of (reparent_all tgt l h) r = path_of h r.
Proof.
  induction l as [|a l IH]; intros h r; [reflexivity|].
  simpl. now rewrite IH, reparent_path.
Qed.

Lemma reparent_all_kind_of l : forall h r, kind_of (reparent_all tgt l h) r = kind_of h r.
Proof.
  induction l as [|a l IH]; intros h r; [reflexivity|].
  simpl. now rewrite IH, reparent_kind_of.
Qed.

Lemma reparent_all_parent_other l : forall h r,
  ~ In r l -> parent_of (reparent_all tgt l h) r = parent_of h r.
Proof.
  induction l as [|a l IH]; intros h r Hr; [reflexivity|].
  simpl. rewrite IH by (intros Hin; apply Hr; now right).
  apply reparent_parent_other. intros ->. apply Hr. now left.
Qed.

Lemma reparent_all_items_mono l : forall h i,
  mem i (items_of h tgt) = true -> mem i (items_of (reparent_all tgt l h) tgt) = true.
Proof.
  induction l as [|a l IH]; intros h i Hm; [exact Hm|].
  simpl. apply IH.
  destruct (reparent_lists h tgt a tgt) as [_ [-> | ->]]; [exact Hm|].
  rewrite mem_app, Hm. reflexivity.
Qed.

Lemma reparent_all_leaves l : forall h,
  forallb (leaf_at h) l = true -> folder_at h tgt = true ->
  forall i, In i l ->
    parent_of (reparent_all tgt l h) i = Some tgt /\
    mem i (items_of (reparent_all tgt l h) tgt) = true.
Proof.
  induction l as [|a l IH]; intros h Hall Htgt i Hi; [contradiction|].
  simpl in Hall. apply andb_true_iff in Hall as [Ha Hall].
  assert (Hall' : forallb (leaf_at (reparent h tgt a)) l = true).
  { rewrite forallb_forall in Hall |- *. intros j Hj.
    rewrite reparent_leaf_at. apply Hall, Hj. }
  assert (Htgt' : folder_at (reparent h tgt a) tgt = true).
  { destruct (reparent_kind h tgt a tgt) as [-> _]. exact Htgt. }
  simpl. destruct (in_dec Nat.eq_dec i l) as [Hin|Hnin].
  - exact (IH _ Hall' Htgt' i Hin).
  - destruct Hi as [->|Hi]; [|contradiction].
    destruct (reparent_leaf h tgt i Ha Htgt) as [Hpar Hitems].
    split.
    + change (fold_left (fun h i => reparent h tgt i) l (reparent h tgt i))
        with (reparent_all tgt l (reparent h tgt i)).
      rewrite reparent_all_parent_other by exact Hnin. exact Hpar.
    + apply reparent_all_items_mono. rewrite Hitems, mem_app. simpl.
      rewrite Nat.eqb_refl. apply orb_true_r.
Qed.

End Reparented.

(** *** Selecting the new nodes *)

Lemma select_each_run l : forall w,
  for_each l (fun item => setItemSelected item true) w
  = (Ret tt,
     set_selectedItems (select_all l (selectedItems w))
       (set_trace (trace w ++ map (fun i => SetItemSelected i true) l) w)).
Proof.
  induction l as [|a l IH]; intros w; cbn [for_each].
  - simpl. rewrite app_nil_r. unfold ret. f_equal. now destruct w.
  - rewrite bind_setItemSelected, IH. wsimpl. simpl.
    rewrite <- app_assoc. reflexivity.
Qed.

Lemma select_all_In l : forall sel i,
  In i (select_all l sel) <-> In i sel \/ In i l.
Proof.
  induction l as [|a l IH]; intros sel i; simpl; [tauto|].
  unfold select_all in *. simpl. rewrite IH.
  destruct (mem a sel) eqn:Hm.
  - apply mem_In in Hm. split; [tauto|]. intros [H|[->|H]]; auto.
  - rewrite in_app_iff. simpl. tauto.
Qed.

Lemma select_all_head l : forall x sel,
  exists sel', select_all l (x :: sel) = x :: sel'.
Proof.
  induction l as [|a l IH]; intros x sel; [now exists sel|].
  unfold select_all in *. simpl. destruct (Nat.eqb a x || mem a sel); apply IH.
Qed.

Lemma last_seq n m : last (seq n (S m)) = Some (n + m).
Proof.
  revert n. induction m as [|m IH]; intros n.
  - simpl. f_equal. lia.
  - change (seq n (S (S m))) with (n :: seq (S n) (S m)).
    rewrite last_cons, IH. f_equal. lia.
Qed.


Lemma on_paste_leaves_run (w : World) (parent_item : wref)
    (rest : list wref) (xp : WidgetItem) :
  selectedItems w = parent_item :: rest ->
  witems w !! parent_item = Some xp ->
  folder_at (heap w) (w_data xp) = true ->
  cutCopiedItems w <> [] ->
  forallb (leaf_at (heap w)) (cutCopiedItems w) = true ->
  exists w' last_obj,
    on_paste w = (Ret tt, w') /\
    last (cutCopiedItems w) = Some last_obj /\
    cutCopiedItems w' = [] /\
    heap w' = reparent_all (w_data xp) (cutCopiedItems w) (heap w) /\
    (forall i, In i (cutCopiedItems w) ->
       parent_of (heap w') i = Some (w_data xp) /\
       mem i (items_of (heap w') (w_data xp)) = true /\
       path_of (heap w') i = path_of (heap w) i) /\
    (forall k i, cutCopiedItems w !! k = Some i ->
       w_parent_of (witems w') (length (witems w) + k) = Some parent_item /\
       data_of w' (length (witems w) + k) = i) /\
    (forall i, In i (selectedItems w') <->
               In i (seq (length (witems w)) (length (cutCopiedItems w)))) /\
    dirty w' = false /\
    trace w' = trace w ++ [MonitorSuspend] ++
      map (fun i => Persist i (path_of (heap w) i)) (cutCopiedItems w) ++
      [SortItems;
       SetCurrentItem (Some (length (witems w) + length (cutCopiedItems w) - 1));
       PageLoad (page_of (kind_of (heap w) last_obj)) last_obj;
       UpdateActions [last_obj] true; CancelRecord] ++
      map (fun i => SetItemSelected i true)
          (seq (length (witems w)) (length (cutCopiedItems w))) ++
      [MonitorUnsuspend; ConfigAltered false] /\
    exists w'',
      on_paste w' = (Raise IndexError, w'') /\
      trace w'' = trace w' ++ [MonitorSuspend; SortItems].
Proof.
  intros Hsel Hxp Htgt Hclip Hleaves.
  set (tgt := w_data xp) in *. set (clip := cutCopiedItems w) in *.
  set (n := length (witems w)).
  assert (Hplt : parent_item < n) by exact (lookup_lt_Some _ _ _ Hxp).
  destruct (exists_last Hclip) as (clip0 & last_obj & Hsnoc).
  assert (Hlastc : last clip = Some last_obj) by (rewrite Hsnoc; apply last_snoc).
  assert (Hlen : length clip = S (length clip0))
    by (rewrite Hsnoc, length_app; simpl; lia).
  assert (Hlk : clip !! length clip0 = Some last_obj)
    by (rewrite Hsnoc; apply lookup_snoc_new).
  assert (Hlin : In last_obj clip)
    by (rewrite Hsnoc; apply in_or_app; right; now left).
  set (w0 := set_trace (trace w ++ [MonitorSuspend]) w).
  pose proof (paste_leaves_loop parent_item tgt clip w0) as Hloop.
  specialize (Hloop ltac:(unfold valid_node, w0; wsimpl; now rewrite Hxp) Htgt Hleaves).
  pose proof (paste_leaves_heap parent_item tgt clip w0) as Hheap.
  pose proof (paste_leaves_trace parent_item tgt clip w0) as Htrace.
  pose proof (paste_leaves_frame parent_item tgt clip w0) as Hframe.
  pose proof (fun k i => paste_leaves_new_nodes parent_item tgt clip w0 k i Hplt)
    as Hnew.
  cbv zeta in Hframe.
  set (W := fold_left (paste_leaf parent_item tgt) clip w0) in *.
  change (heap w0) with (heap w) in *. change (witems w0) with (witems w) in *.
  change (trace w0) with (trace w ++ [MonitorSuspend]) in *.
  change (selectedItems w0) with (selectedItems w) in *.
  change (dirty w0) with (dirty w) in *.
  fold n in Hloop, Hnew, Hframe.
  clearbody W.
  destruct Hframe as (HWsel & HWclip & _ & _ & _ & _ & _ & HWlen).
  destruct (reparent_all_leaves tgt clip (heap w) Hleaves Htgt last_obj Hlin)
    as [Hlpar Hlmem].
  pose proof (proj1 (forallb_forall _ _) Hleaves) as Hall.
  assert (Hl0 : leaf_at (heap w) last_obj = true) by exact (Hall _ Hlin).
  assert (Hlleaf : leaf_at (heap W) last_obj = true)
    by (rewrite Hheap, reparent_all_leaf_at; exact Hl0).
  assert (HlE : exists e, heap W !! last_obj = Some e).
  { unfold leaf_at in Hlleaf. destruct (heap W !! last_obj); [eauto|discriminate]. }
  destruct HlE as [e He].
  assert (Hkind : kind e = kind_of (heap w) last_obj).
  { rewrite <- (reparent_all_kind_of tgt clip), <- Hheap. unfold kind_of.
    now rewrite He. }
  assert (Hne : tgt <> last_obj).
  { intros Heq. rewrite leaf_at_alt, <- Heq, Htgt, andb_false_r in Hl0.
    discriminate. }
  set (lastn := n + length clip0).
  assert (Hlast : last_of (seq n (length clip)) = ret lastn).
  { unfold last_of. now rewrite Hlen, last_seq. }
  assert (Hnode : witems W !! lastn
                  = Some (mkWidget (Some parent_item) [] (title_of (heap w) last_obj)
                                   last_obj))
    by exact (Hnew _ _ Hlk).
  rewrite (on_paste_unfold w parent_item rest xp Hsel Hxp).
  fold tgt clip. rewrite (bind_run _ _ _ _ _ Hloop).
  unfold paste_finish. rewrite bind_sortItems.
  set (W1 := sorted_world _).
  assert (HW1 : heap W1 = heap W /\ trace W1 = trace W ++ [SortItems] /\
                cutCopiedItems W1 = cutCopiedItems W /\
                (forall i, witems W1 !! i =
                   (fun x => set_w_children (sort_labels (witems W) (w_children x)) x)
                     <$> witems W !! i)).
  { unfold W1. split; [reflexivity|]. split; [reflexivity|]. split; [reflexivity|].
    intros i. rewrite sorted_world_lookup. reflexivity. }
  clearbody W1. destruct HW1 as (HW1h & HW1t & HW1c & HW1l).
  rewrite Hlast, bind_ret, bind_setCurrentItem.
  erewrite bind_run; cycle 1.
  { apply (selectionChanged_single _ last_obj e).
    - unfold selection_ok. wsimpl. cbn [forallb]. rewrite HW1l, Hnode. simpl.
      now rewrite HW1h, He.
    - unfold top_level, selected_data, data_of. wsimpl. cbn [map].
      rewrite HW1l, Hnode. simpl. rewrite HW1h, Hheap, Hlpar. simpl.
      destruct (Nat.eqb_spec tgt last_obj); [contradiction | reflexivity].
    - wsimpl. rewrite HW1h. exact He. }
  rewrite bind_modify. rewrite (bind_run _ _ _ _ _ (select_each_run _ _)).
  unfold monitor_unsuspend, config_altered. rewrite bind_emit_event.
  unfold loaded_world. wsimpl.
  destruct (select_all_head (seq n (length clip)) lastn []) as [sel' Hhead].
  eexists. exists last_obj. split; [reflexivity|].
  unfold emit_event, modify. wsimpl.
  split; [exact Hlastc|]. split; [reflexivity|].
  split; [rewrite HW1h; exact Hheap|].
  split.
  { intros i Hi. rewrite HW1h, Hheap.
    destruct (reparent_all_leaves tgt clip (heap w) Hleaves Htgt i Hi) as [Hp Hm].
    split; [exact Hp|]. split; [exact Hm|]. apply reparent_all_path. }
  split.
  { intros k i Hk. unfold w_parent_of, data_of. wsimpl.
    rewrite HW1l, (Hnew _ _ Hk). simpl. auto. }
  split.
  { intros i. rewrite select_all_In. simpl. split; [|tauto].
    intros [[<-|[]]|H]; [|exact H].
    apply in_seq. unfold lastn. lia. }
  split; [reflexivity|].
  split.
  { rewrite HW1t, Htrace, Hkind. unfold lastn.
    replace (n + length clip - 1) with (n + length clip0) by lia.
    rewrite <- !app_assoc. reflexivity. }
  match goal with
  | |- exists w'', on_paste ?w1 = _ /\ trace w'' = ?T ++ _ =>
      set (wf := w1); assert (Htf : trace wf = T) by reflexivity
  end.
  assert (Hnode1 : witems wf !! lastn
            = Some (set_w_children (sort_labels (witems W) [])
                      (mkWidget (Some parent_item) [] (title_of (heap w) last_obj)
                                last_obj))).
  { unfold wf. wsimpl. rewrite HW1l, Hnode. reflexivity. }
  assert (Hself : selectedItems wf = lastn :: sel') by exact Hhead.
  assert (Hclipf : cutCopiedItems wf = []) by reflexivity.
  clearbody wf.
  rewrite (on_paste_unfold wf lastn sel' _ Hself Hnode1).
  rewrite Hclipf. cbn [map_m].
  rewrite bind_ret. unfold paste_finish. rewrite bind_sortItems.
  eexists. split; [reflexivity|].
  unfold sorted_world. wsimpl. rewrite Htf, <- !app_assoc. reflexivity.
Qed.



Lemma set_parent_twice p e : set_parent p (set_parent p e) = set_parent p e.
Proof. reflexivity. Qed.

Lemma reparent_all_lookup tgt l : forall h,
  forallb (leaf_at h) l = true -> folder_at h tgt = true ->
  forall r e, h !! r = Some e -> r <> tgt ->
    reparent_all tgt l h !! r
    = Some (if mem r l then set_parent (Some tgt) e else e).
Proof.
  induction l as [|a l IH]; intros h Hall Htgt r e He Hr; [exact He|].
  simpl in Hall. apply andb_true_iff in Hall as [Ha Hall].
  assert (Hall' : forallb (leaf_at (reparent h tgt a)) l = true).
  { rewrite forallb_forall in Hall |- *. intros j Hj.
    rewrite reparent_leaf_at. apply Hall, Hj. }
  assert (Htgt' : folder_at (reparent h tgt a) tgt = true).
  { destruct (reparent_kind h tgt a tgt) as [-> _]. exact Htgt. }
  pose proof Ha as Ha'. pose proof Htgt as Htgt0.
  unfold leaf_at in Ha'. destruct (h !! a) as [ea|] eqn:Hea; [|discriminate].
  unfold folder_at in Htgt0. destruct (h !! tgt) as [te|] eqn:Hte; [|discriminate].
  apply negb_true_iff in Ha'.
  assert (Hne : a <> tgt) by (intros ->; congruence).
  change (reparent_all tgt (a :: l) h) with (reparent_all tgt l (reparent h tgt a)).
  assert (Hstep : reparent h tgt a !! r
                  = Some (if Nat.eqb r a then set_parent (Some tgt) e else e)).
  { rewrite (reparent_lookup _ _ _ ea te r Hea Hne Hte).
    destruct (Nat.eqb_spec r tgt); [contradiction|].
    destruct (Nat.eqb_spec r a) as [->|_]; [|exact He]. congruence. }
  rewrite (IH _ Hall' Htgt' r _ Hstep Hr).
  unfold mem. simpl. fold (mem r l).
  destruct (Nat.eqb r a); simpl; [|reflexivity].
  now destruct (mem r l).
Qed.

Lemma mem_seq_false r n m : r < n -> mem r (seq n m) = false.
Proof.
  intros Hr. apply not_true_is_false. intros Hm. apply mem_In, in_seq in Hm. lia.
Qed.

Lemma mem_seq_true r n m : n <= r < n + m -> mem r (seq n m) = true.
Proof.
  intros Hr. unfold mem. apply existsb_exists. exists r.
  split; [apply in_seq; lia | apply Nat.eqb_refl].
Qed.

Lemma duplicate_leaf h source : is_folder (duplicate h source) = false.
Proof.
  unfold duplicate. destruct (h !! source) as [s|]; [|reflexivity].
  now destruct (is_phrase s).
Qed.


End PasteLeaves.



(** ** A move onto the moved node *)

Lemma bind_out_of_fuel {A B} (c : M A) (k : A -> M B) w :
  fst (c w) = OutOfFuel -> fst (bind c k w) = OutOfFuel.
Proof.
  unfold bind. destruct (c w) as [[a|x| |] w']; simpl; congruence.
Qed.

Lemma moveRecurseUpdate_cycle fuel : forall w r e,
  heap w !! r = Some e -> folders e = [r] ->
  fst (__moveRecurseUpdate fuel r w) = OutOfFuel.
Proof.
  induction fuel as [|fuel IH]; intros w r e He Hf; [reflexivity|].
  cbn [__moveRecurseUpdate].
  rewrite (bind_update_entity _ _ _ _ _ He).
  assert (Hlt : r < length (heap w)) by exact (lookup_lt_Some _ _ _ He).
  erewrite bind_persist by (wsimpl; apply list_lookup_insert_eq; exact Hlt).
  erewrite bind_deref by (wsimpl; apply list_lookup_insert_eq; exact Hlt).
  cbn [folders set_path]. rewrite Hf. cbn [for_each].
  apply bind_out_of_fuel, bind_out_of_fuel.
  apply (IH _ r (set_path None e)); [|exact Hf].
  wsimpl. apply list_lookup_insert_eq. exact Hlt.
Qed.

Section SelfMove.
Context `{Collab : Collaborators}.

(** X23: a folder without child folders that is moved onto its own node
    becomes its own parent and its own child folder, and the update of
    the paths then recurses without end: whatever the recursion bound,
    the move does not return. *)
Theorem move_folder_onto_itself_never_returns (fuel : nat) (w : World)
    (source : wref) (xs : WidgetItem) (e : Entity) :
  witems w !! source = Some xs ->
  heap w !! w_data xs = Some e ->
  is_folder e = true ->
  folders e = [] ->
  forallb (valid_ref (heap w)) (items e) = true ->
  removable w source = true ->
  w_parent xs <> Some source ->
  parent_of (heap w) (w_data xs) <> Some (w_data xs) ->
  fst (move_items fuel [source] source w) = OutOfFuel.
Proof.
  intros Hxs He Hfolder Hsubs Hleaves Hrem Hself Hpself.
  unfold move_items. cbn [__extractData].
  rewrite bind_assoc, (bind_wderef _ _ _ _ Hxs), bind_ret.
  rewrite (bind_run _ _ _ _ _ (top_level_filter_run w [source]
             ltac:(simpl; unfold valid_node; now rewrite Hxs))).
  replace (top_level_nodes (witems w) [source]) with [source]; cycle 1.
  { unfold top_level_nodes, w_parent_of. simpl. rewrite Hxs.
    destruct (w_parent xs) as [p|]; [|reflexivity]. simpl.
    destruct (Nat.eqb_spec p source) as [->|_]; [congruence | reflexivity]. }
  unfold monitor_suspend. rewrite bind_emit_event.
  apply bind_out_of_fuel. cbn [for_each]. apply bind_out_of_fuel. cbv beta.
  set (w1 := set_trace _ w).
  destruct fuel as [|fuel].
  { apply bind_out_of_fuel.
    unfold __removeItem. rewrite (bind_wderef _ _ w1 _ Hxs).
    cbn [__extractData]. rewrite !bind_assoc, (bind_wderef _ _ w1 _ Hxs), bind_ret.
    reflexivity. }
  set (t := Node (w_data xs) [] (items e)).
  assert (Hok : shape_ok (heap w1) t = true).
  { simpl. change (heap w1) with (heap w). rewrite He, Hfolder, Hsubs. simpl.
    rewrite Hleaves.
    assert (Hrefl : forall l, list_eqb l l = true).
    { induction l as [|a l IHl]; simpl; [reflexivity|].
      now rewrite Nat.eqb_refl, IHl. }
    now rewrite Hrefl. }
  destruct (__removeItem_run (S fuel) w1 source xs t Hxs eq_refl Hok
              ltac:(simpl; lia) Hrem)
    as (w2 & c & Hrun & Hheap & _ & _ & _ & Hnodes).
  rewrite (bind_run _ _ _ _ _ Hrun).
  destruct (same_data_lookup _ _ _ _ (same_nodes_but_data _ _ _ Hnodes) Hxs)
    as (xs' & Hxs' & Hdata).
  cbn [__extractData]. rewrite bind_assoc, (bind_wderef _ _ _ _ Hxs'), bind_ret.
  rewrite Hdata.
  assert (He2 : heap w2 !! w_data xs = Some e).
  { rewrite Hheap. rewrite (heap_without_other w1 source xs (w_data xs) Hxs Hpself).
    exact He. }
  rewrite (bind_deref _ _ _ _ He2). rewrite Hfolder.
  apply bind_out_of_fuel.
  unfold add_folder. rewrite !bind_assoc.
  rewrite (bind_update_entity _ _ _ _ _ He2).
  assert (Hlt : w_data xs < length (heap w2)) by exact (lookup_lt_Some _ _ _ He2).
  erewrite bind_update_entity by (wsimpl; apply list_lookup_insert_eq; exact Hlt).
  eapply moveRecurseUpdate_cycle.
  - wsimpl. apply list_lookup_insert_eq. rewrite length_insert. exact Hlt.
  - simpl. now rewrite Hsubs.
Qed.

End SelfMove.

Lemma move_folder_onto_itself_never_returns_witness :
  fst (move_items (Collab := Concrete.collaborators) 1000 [2] 2
         (sample_world [2] [])) = OutOfFuel.
Proof.
  apply (move_folder_onto_itself_never_returns (Collab := Concrete.collaborators)
           1000 (sample_world [2] []) 2 (mkWidget (Some 0) [3] "Sub" 2)
           (mkEntity KFolder "Sub" EmptyString (Some 0)
                     (Some "/cfg/Work/Sub"%string) [HOTKEY] [] [3]));
    [reflexivity | reflexivity | reflexivity | reflexivity | reflexivity
    | reflexivity | discriminate | discriminate].
Defined.

(** ** Save *)

Section Save.
Context `{Collab : Collaborators}.

Lemma page_save_run w r e :
  pageItems w !! stackIndex w = Some (Some r) ->
  heap w !! r = Some e ->
  page_save w = (Ret (save_persist_global e),
                 set_trace (trace w ++ [Persist r (path e)]) w).
Proof.
  intros Hpage He. unfold page_save.
  rewrite (bind_run _ _ _ _ _ (currentWidget_run w r Hpage)).
  rewrite (bind_persist _ _ _ _ He).
  erewrite bind_deref by (wsimpl; exact He). reflexivity.
Qed.

(** [on_save] up to the look at the selection. *)
Lemma on_save_saves save_completed evs w r e :
  reports evs save_completed ->
  pageItems w !! stackIndex w = Some (Some r) ->
  heap w !! r = Some e ->
  on_save save_completed true w
  = (items <- selected ;;
     item <- first_of items ;;
     item_update item ;;
     sortItems ;;
     monitor_unsuspend ;;
     ret false)
      (set_dirty_field false
         (set_trace (trace w ++ [MonitorSuspend; Persist r (path e)]
                     ++ evs (save_persist_global e)) w)).
Proof.
  intros Hrep Hpage He. unfold on_save, monitor_suspend, set_dirty.
  rewrite bind_emit_event.
  erewrite bind_run by (apply (page_save_run _ r e); wsimpl; assumption).
  rewrite (bind_run _ _ _ _ _ (Hrep _ _)).
  rewrite bind_modify. wsimpl. unfold set_dirty_field at 1. wsimpl.
  rewrite <- !app_assoc. reflexivity.
Qed.

Lemma on_save_run save_completed evs w r e item rest x ex :
  reports evs save_completed ->
  pageItems w !! stackIndex w = Some (Some r) ->
  heap w !! r = Some e ->
  selectedItems w = item :: rest ->
  witems w !! item = Some x ->
  heap w !! w_data x = Some ex ->
  exists w',
    on_save save_completed true w = (Ret false, w') /\
    heap w' = heap w /\
    cm_folders w' = cm_folders w /\
    dirty w' = false /\
    w_text <$> witems w' !! item = Some (title ex) /\
    selectedItems w' = selectedItems w /\
    trace w' = trace w ++ [MonitorSuspend; Persist r (path e)] ++
               evs (save_persist_global e) ++ [SortItems; MonitorUnsuspend].
Proof.
  intros Hrep Hpage He Hsel Hx Hex.
  rewrite (on_save_saves save_completed evs w r e Hrep Hpage He).
  unfold selected, monitor_unsuspend. mnorm. wsimpl. rewrite Hsel. cbn [first_of].
  mnorm.
  erewrite bind_run by (apply (item_update_run _ item x ex); wsimpl; assumption).
  mnorm.
  eexists. split; [reflexivity|]. unfold sorted_world. wsimpl.
  split; [reflexivity|]. split; [reflexivity|]. split; [reflexivity|].
  split.
  { rewrite list_lookup_fmap.
    rewrite list_lookup_insert_eq by exact (lookup_lt_Some _ _ _ Hx). reflexivity. }
  split; [exact Hsel|].
  rewrite <- !app_assoc. reflexivity.
Qed.

(** X24: Save does nothing and answers True when the page does not
    validate.  When it does, and the host only takes note of the
    completed save, Save persists the object of the current page,
    reports the completed save, marks the session clean, reads the label
    of the first selected node again from its object and sorts the
    tree, all between one suspend and one resume, and answers False; no
    model object and no selection is changed. *)
Theorem save_persists_page_and_refreshes_label (save_completed : bool -> M unit)
    (evs : bool -> list Event) (w : World) (r : ref) (e : Entity)
    (item : wref) (rest : list wref) (x : WidgetItem) (ex : Entity) :
  reports evs save_completed ->
  pageItems w !! stackIndex w = Some (Some r) ->
  heap w !! r = Some e ->
  selectedItems w = item :: rest ->
  witems w !! item = Some x ->
  heap w !! w_data x = Some ex ->
  on_save save_completed false w = (Ret true, w) /\
  exists w',
    on_save save_completed true w = (Ret false, w') /\
    heap w' = heap w /\
    cm_folders w' = cm_folders w /\
    dirty w' = false /\
    w_text <$> witems w' !! item = Some (title ex) /\
    selectedItems w' = selectedItems w /\
    trace w' = trace w ++ [MonitorSuspend; Persist r (path e)] ++
               evs (save_persist_global e) ++ [SortItems; MonitorUnsuspend].
Proof.
  intros Hrep Hpage He Hsel Hx Hex. split; [reflexivity|].
  exact (on_save_run save_completed evs w r e item rest x ex Hrep Hpage He Hsel Hx Hex).
Qed.

(** X25: Save of a valid page with nothing selected persists the object
    and marks the session clean, then fails on the first element of the
    empty selection: the tree is not sorted and the monitor stays
    suspended. *)
Theorem save_without_selection_leaves_monitor_suspended
    (save_completed : bool -> M unit) (evs : bool -> list Event) (w : World)
    (r : ref) (e : Entity) :
  reports evs save_completed ->
  pageItems w !! stackIndex w = Some (Some r) ->
  heap w !! r = Some e ->
  selectedItems w = [] ->
  on_save save_completed true w
  = (Raise IndexError,
     set_dirty_field false
       (set_trace (trace w ++ [MonitorSuspend; Persist r (path e)]
                   ++ evs (save_persist_global e)) w)).
Proof.
  intros Hrep Hpage He Hsel.
  rewrite (on_save_saves save_completed evs w r e Hrep Hpage He).
  unfold selected. mnorm. wsimpl. rewrite Hsel. reflexivity.
Qed.

(** X26: the prompt answers True, which keeps the caller from going on,
    exactly when the user cancels the question or a save is attempted
    on a page that does not validate.  Cancel and No, and a page that
    does not validate, leave the state untouched; a save takes place
    when the user answers Yes or the prompt is switched off. *)
Theorem prompt_to_save_blocks_on_cancel_or_invalid_page
    (save_completed : bool -> M unit) (evs : bool -> list Event) (w : World)
    (r : ref) (e : Entity) (item : wref) (rest : list wref) (x : WidgetItem)
    (ex : Entity) (prompt_to_save : bool) (result : Button) (page_valid : bool) :
  reports evs save_completed ->
  pageItems w !! stackIndex w = Some (Some r) ->
  heap w !! r = Some e ->
  selectedItems w = item :: rest ->
  witems w !! item = Some x ->
  heap w !! w_data x = Some ex ->
  exists b w',
    promptToSave save_completed prompt_to_save result page_valid w = (Ret b, w') /\
    (b = true <->
     (prompt_to_save = true /\ result = Cancel) \/
     ((prompt_to_save = false \/ result = Yes) /\ page_valid = false)) /\
    ((prompt_to_save = true /\ result <> Yes) \/ page_valid = false -> w' = w) /\
    ((prompt_to_save = false \/ result = Yes) -> page_valid = true ->
     dirty w' = false /\
     trace w' = trace w ++ [MonitorSuspend; Persist r (path e)] ++
                evs (save_persist_global e) ++ [SortItems; MonitorUnsuspend]).
Proof.
  intros Hrep Hpage He Hsel Hx Hex.
  destruct (on_save_run save_completed evs w r e item rest x ex
              Hrep Hpage He Hsel Hx Hex)
    as (ws & Hrun & _ & _ & Hdirty & _ & _ & Htrace).
  unfold promptToSave.
  destruct prompt_to_save, result, page_valid;
    try (exists false, ws; split; [exact Hrun|];
         split; [intuition congruence|]; split; [intuition congruence|];
         intros _ _; split; [exact Hdirty | exact Htrace]);
    try (exists true, w; split; [reflexivity|];
         split; [intuition congruence|]; split; [reflexivity|];
         intros; intuition congruence);
    try (exists false, w; split; [reflexivity|];
         split; [intuition congruence|]; split; [reflexivity|];
         intros; intuition congruence).
Qed.

End Save.

Lemma save_persists_page_and_refreshes_label_witness :
  exists w',
    on_save (Collab := Concrete.collaborators) config_altered true saving_world
    = (Ret false, w') /\
    dirty w' = false /\
    trace w' = [MonitorSuspend; Persist 1 (Some "/cfg/Work/Signature.txt"%string);
                ConfigAltered false; SortItems; MonitorUnsuspend].
Proof.
  destruct (save_persists_page_and_refreshes_label (Collab := Concrete.collaborators)
              config_altered (fun b => [ConfigAltered b]) saving_world 1
              (mkEntity KPhrase "Signature" "Regards" (Some 0)
                        (Some "/cfg/Work/Signature.txt"%string) [HOTKEY] [] [])
              1 [] (mkWidget (Some 0) [] "Signature" 1)
              (mkEntity KPhrase "Signature" "Regards" (Some 0)
                        (Some "/cfg/Work/Signature.txt"%string) [HOTKEY] [] []))
    as (_ & w' & Hrun & _ & _ & Hdirty & _ & _ & Htrace);
    [intros b w0; reflexivity | reflexivity | reflexivity | reflexivity
    | reflexivity | reflexivity |].
  exists w'. split; [exact Hrun|]. split; [exact Hdirty | exact Htrace].
Defined.

Lemma save_without_selection_leaves_monitor_suspended_witness :
  exists w',
    on_save (Collab := Concrete.collaborators) config_altered true
      (mkWorld sample_heap sample_witems [4; 0] [4; 0] [] [] true 1
               [None; Some 1; None] [])
    = (Raise IndexError, w') /\
    dirty w' = false /\
    trace w' = [MonitorSuspend; Persist 1 (Some "/cfg/Work/Signature.txt"%string);
                ConfigAltered false].
Proof.
  eexists. split.
  - apply (save_without_selection_leaves_monitor_suspended
             (Collab := Concrete.collaborators)
             config_altered (fun b => [ConfigAltered b])
             (mkWorld sample_heap sample_witems [4; 0] [4; 0] [] [] true 1
                      [None; Some 1; None] [])
             1
             (mkEntity KPhrase "Signature" "Regards" (Some 0)
                       (Some "/cfg/Work/Signature.txt"%string) [HOTKEY] [] []));
      [intros b w0; reflexivity | reflexivity | reflexivity | reflexivity].
  - split; reflexivity.
Defined.

Lemma prompt_to_save_blocks_on_cancel_or_invalid_page_witness :
  exists w',
    promptToSave (Collab := Concrete.collaborators) config_altered true Cancel true
      saving_world = (Ret true, w') /\ w' = saving_world.
Proof.
  destruct (prompt_to_save_blocks_on_cancel_or_invalid_page
              (Collab := Concrete.collaborators)
              config_altered (fun b => [ConfigAltered b]) saving_world 1
              (mkEntity KPhrase "Signature" "Regards" (Some 0)
                        (Some "/cfg/Work/Signature.txt"%string) [HOTKEY] [] [])
              1 [] (mkWidget (Some 0) [] "Signature" 1)
              (mkEntity KPhrase "Signature" "Regards" (Some 0)
                        (Some "/cfg/Work/Signature.txt"%string) [HOTKEY] [] [])
              true Cancel true)
    as (b & w' & Hrun & Hb & Hsame & _);
    [intros b0 w0; reflexivity | reflexivity | reflexivity | reflexivity
    | reflexivity | reflexivity |].
  exists w'. split.
  - rewrite Hrun. f_equal. f_equal. apply Hb. left. split; reflexivity.
  - apply Hsame. left. split; [reflexivity | discriminate].
Defined.
